(** * DevConnector: the profile, post and account routes

    A shallow embedding of the Express route handlers of the DevConnector
    API, the profile routes (api/profile, in routes/api/auth.js) and the
    post routes (api/posts, in config/db.js), together with the properties
    of the written specification that concern them.

    The handlers are [async] functions that talk to a document store through
    Mongoose models.  They are embedded as computations in a state-and-
    exception monad over a [world]: the three collections, a chronological
    log of the store calls that were awaited, a fault plan saying which of the
    coming store calls reject, and the counter of the ObjectId generator. *)

From Stdlib Require Import Ascii String.
From stdpp Require Import gmap strings list fin_maps.

Open Scope string_scope.

(** ** JavaScript helpers *)

(** [if (x)] for a value that is either [undefined] or a string: only a
    non-empty string is truthy. *)
Definition truthy (v : option string) : bool :=
  match v with
  | Some s => negb (String.eqb s "")
  | None => false
  end.

(** [arr.indexOf(x)]: the first index holding [x], or [-1]. *)
Fixpoint indexOf (x : string) (l : list string) : Z :=
  match l with
  | [] => (-1)%Z
  | y :: l' =>
      if String.eqb y x then 0%Z
      else let i := indexOf x l' in
           if (i <? 0)%Z then (-1)%Z else (i + 1)%Z
  end.

(** [arr.splice(i, 1)] for [i >= 0]: drops the element at index [i]. *)
Definition splice1 {A} (i : Z) (l : list A) : list A :=
  take (Z.to_nat i) l ++ drop (S (Z.to_nat i)) l.

(** [arr.unshift(x)]. *)
Definition unshift {A} (x : A) (l : list A) : list A := x :: l.

(** [s.split(',')] *)
Fixpoint split_comma (s : string) : list string :=
  match s with
  | EmptyString => [EmptyString]
  | String c s' =>
      if Ascii.eqb c ","%char then EmptyString :: split_comma s'
      else match split_comma s' with
           | [] => [String c EmptyString]
           | piece :: rest => String c piece :: rest
           end
  end.

(** A string is the sequence of the UTF-8 bytes of the JavaScript string;
    [utf8] writes a character by the values of its bytes. *)
Definition utf8 (codes : list nat) : string :=
  string_of_list_ascii (map ascii_of_nat codes).

(** The characters [trim] strips, WhiteSpace and LineTerminator of
    ECMAScript: U+0009 to U+000D, U+0020, U+00A0, U+1680, U+2000 to U+200A,
    U+2028, U+2029, U+202F, U+205F, U+3000 and U+FEFF. *)
Definition white_space : list string :=
  [ utf8 [9]; utf8 [10]; utf8 [11]; utf8 [12]; utf8 [13]; utf8 [32];
    utf8 [194; 160];
    utf8 [225; 154; 128];
    utf8 [226; 128; 128]; utf8 [226; 128; 129]; utf8 [226; 128; 130];
    utf8 [226; 128; 131]; utf8 [226; 128; 132]; utf8 [226; 128; 133];
    utf8 [226; 128; 134]; utf8 [226; 128; 135]; utf8 [226; 128; 136];
    utf8 [226; 128; 137]; utf8 [226; 128; 138];
    utf8 [226; 128; 168]; utf8 [226; 128; 169];
    utf8 [226; 128; 175];
    utf8 [226; 129; 159];
    utf8 [227; 128; 128];
    utf8 [239; 187; 191] ].

(** What is left of [s] behind the prefix [p], if [s] starts with [p]. *)
Fixpoint drop_prefix (p s : string) : option string :=
  match p with
  | EmptyString => Some s
  | String a p' =>
      match s with
      | EmptyString => None
      | String b s' => if Ascii.eqb a b then drop_prefix p' s' else None
      end
  end.

(** Strips one leading character of [chars], if [s] starts with one. *)
Fixpoint strip_one (chars : list string) (s : string) : option string :=
  match chars with
  | [] => None
  | c :: chars' =>
      match drop_prefix c s with
      | Some rest => Some rest
      | None => strip_one chars' s
      end
  end.

(** Strips leading characters of [chars] for as long as there is one; the
    fuel bounds the number of characters stripped. *)
Fixpoint strip_leading (fuel : nat) (chars : list string) (s : string) : string :=
  match fuel with
  | O => s
  | S fuel' =>
      match strip_one chars s with
      | Some rest => strip_leading fuel' chars rest
      | None => s
      end
  end.

Definition string_rev (s : string) : string :=
  string_of_list_ascii (rev (list_ascii_of_string s)).

(** [s.trimStart()] *)
Definition trim_start (s : string) : string :=
  strip_leading (String.length s) white_space s.

(** [s.trimEnd()]: the same from the other end. *)
Definition trim_end (s : string) : string :=
  string_rev
    (strip_leading (String.length s) (map string_rev white_space) (string_rev s)).

(** [s.trim()] *)
Definition trim (s : string) : string := trim_end (trim_start s).


(** ** Documents *)

Record Like := { like_user : string }.

Record Post := {
  post_id : string;
  post_text : string;
  post_name : string;
  post_avatar : string;
  post_user : string;
  post_likes : list Like
}.

Record User := {
  user_id : string;
  user_name : string;
  user_avatar : string
}.

(** A value of a settable profile field: a string, the skills array, or the
    nested [social] object. *)
Inductive value :=
  | VStr (s : string)
  | VArr (l : list string)
  | VObj (o : gmap string string).

(** An entry of [experience] or [education]: its id and the members of the
    request body it was built from, by name. *)
Record Entry := {
  entry_id : string;
  entry_data : gmap string string
}.

Record Profile := {
  profile_id : string;
  fields : gmap string value;
  experience : list Entry;
  education : list Entry
}.

Record db := {
  users : list User;
  profiles : list Profile;
  posts : list Post
}.

(** ** Store calls, exceptions and the world *)

Inductive exn :=
  | TypeError     (* a member read on null or undefined *)
  | CastError     (* Mongoose: err.kind === 'ObjectId' *)
  | SyntaxError   (* JSON.parse *)
  | StoreError.   (* a rejected store call *)

Inductive outcome (A : Type) :=
  | Ok (a : A)
  | Throw (e : exn).
Arguments Ok {A} a.
Arguments Throw {A} e.

Inductive op :=
  | PostFindById (id : string)
  | PostSave (id : string)
  | PostRemove (id : string)
  | PostDeleteMany (user : string)
  | ProfileFindOne (user : string)
  | ProfileFindOneAndUpdate (user : string)
  | ProfileSave (id : string)
  | ProfileFindOneAndRemove (user : string)
  | UserFindOneAndRemove (id : string).

Inductive event :=
  | Started (o : op)
  | Finished (o : op).

Record world := {
  store : db;
  log : list event;
  faults : list bool;
  next_oid : nat
}.

Definition M (A : Type) : Type := world → outcome A * world.

Definition ret {A} (a : A) : M A := λ w, (Ok a, w).

Definition bind {A B} (m : M A) (k : A → M B) : M B := λ w,
  match m w with
  | (Ok a, w') => k a w'
  | (Throw e, w') => (Throw e, w')
  end.

Definition throw {A} (e : exn) : M A := λ w, (Throw e, w).

(** [try { body } catch (err) { handler }] *)
Definition try_catch {A} (body : M A) (handler : exn → M A) : M A := λ w,
  match body w with
  | (Ok a, w') => (Ok a, w')
  | (Throw e, w') => handler e w'
  end.

#[export] Instance M_ret : MRet M := @ret.
#[export] Instance M_bind : MBind M := λ A B k m, bind m k.

Definition log_event (e : event) (w : world) : world :=
  {| store := store w; log := log w ++ [e];
     faults := faults w; next_oid := next_oid w |}.

Definition set_store (d : db) (w : world) : world :=
  {| store := d; log := log w; faults := faults w; next_oid := next_oid w |}.

Definition set_faults (fs : list bool) (w : world) : world :=
  {| store := store w; log := log w; faults := fs; next_oid := next_oid w |}.

(** [await <store call>]: the call starts; if the fault plan says so it
    rejects without touching the store, otherwise it runs and finishes. *)
Definition await {A} (o : op) (f : db → A * db) : M A := λ w,
  let w1 := log_event (Started o) w in
  match faults w with
  | true :: fs => (Throw StoreError, set_faults fs w1)
  | fs =>
      let '(a, d) := f (store w) in
      (Ok a, log_event (Finished o) (set_store d (set_faults (tail fs) w1)))
  end.

(** ** Responses *)

(** A parsed JSON text; a number is kept as its literal. *)
#[local] Unset Elimination Schemes.
Inductive jsonv :=
  | JNull
  | JBool (b : bool)
  | JNumber (literal : string)
  | JString (s : string)
  | JArray (items : list jsonv)
  | JObject (members : list (string * jsonv)).
#[local] Set Elimination Schemes.

(** One element of [errors.array()] of express-validator. *)
Record verror := { msg : string; param : string }.

Inductive body :=
  | Msg (m : string)                (* { msg: m } *)
  | Errors (es : list verror)       (* { errors: [...] } *)
  | JProfile (p : Profile)
  | JLikes (ls : list Like)
  | JValue (j : jsonv)
  | Text (s : string).              (* res.send(s) *)

Record response := { status : nat; payload : body }.

Definition json (st : nat) (b : body) : response :=
  {| status := st; payload := b |}.
Definition send (st : nat) (s : string) : response :=
  {| status := st; payload := Text s |}.

(** The errors of section 7 of the specification as the responses that
    carry them. *)
Definition PostNotFound : response := json 404 (Msg "Post not found").
Definition Forbidden : response := json 401 (Msg "User not authorized").
Definition AlreadyLiked : response := json 400 (Msg "Post already liked").
Definition NotLiked : response := json 400 (Msg "Post has not yet been liked").
Definition ServerError : response := send 500 "Server Error".

(** [err.kind === 'ObjectId'] *)
Definition kind_ObjectId (err : exn) : bool :=
  match err with
  | CastError => true
  | _ => false
  end.

(** ** The Post model *)

Definition set_posts (ps : list Post) (d : db) : db :=
  {| users := users d; profiles := profiles d; posts := ps |}.

Definition set_likes (ls : list Like) (p : Post) : Post :=
  {| post_id := post_id p; post_text := post_text p; post_name := post_name p;
     post_avatar := post_avatar p; post_user := post_user p; post_likes := ls |}.

Definition has_post_id (id : string) (p : Post) : bool :=
  String.eqb (post_id p) id.

(** The document of the posts collection whose [_id] is [id]. *)
Definition lookup_post (id : string) (d : db) : option Post :=
  List.find (has_post_id id) (posts d).

(** The store after [doc.save()] of a loaded post: the stored document with
    that [_id] is replaced by the document in memory. *)
Definition write_post (p : Post) (d : db) : db :=
  set_posts
    (map (λ q, if has_post_id (post_id p) q then p else q) (posts d)) d.

(** The store after [doc.remove()]. *)
Definition drop_post (p : Post) (d : db) : db :=
  set_posts (List.filter (λ q, negb (has_post_id (post_id p) q)) (posts d)) d.


(** ** The Profile and User models *)

Definition set_profiles (ps : list Profile) (d : db) : db :=
  {| users := users d; profiles := ps; posts := posts d |}.

Definition set_users (us : list User) (d : db) : db :=
  {| users := us; profiles := profiles d; posts := posts d |}.

Definition set_fields (fs : gmap string value) (p : Profile) : Profile :=
  {| profile_id := profile_id p; fields := fs;
     experience := experience p; education := education p |}.

Definition set_experience (es : list Entry) (p : Profile) : Profile :=
  {| profile_id := profile_id p; fields := fields p;
     experience := es; education := education p |}.

Definition set_education (es : list Entry) (p : Profile) : Profile :=
  {| profile_id := profile_id p; fields := fields p;
     experience := experience p; education := es |}.

(** The filter [{ user: uid }] on a profile. *)
Definition owned_by (uid : string) (p : Profile) : bool :=
  match fields p !! "user" with
  | Some (VStr u) => String.eqb u uid
  | _ => false
  end.

Definition has_profile_id (id : string) (p : Profile) : bool :=
  String.eqb (profile_id p) id.

(** The first document that passes the filter, as [findOne] returns it. *)
Definition lookup_profile (uid : string) (d : db) : option Profile :=
  List.find (owned_by uid) (profiles d).

(** Changes, or removes, the first element of a list that passes a test. *)
Fixpoint update_first {A} (test : A → bool) (f : A → A) (l : list A) : list A :=
  match l with
  | [] => []
  | x :: l' => if test x then f x :: l' else x :: update_first test f l'
  end.

Fixpoint remove_first {A} (test : A → bool) (l : list A) : list A :=
  match l with
  | [] => []
  | x :: l' => if test x then l' else x :: remove_first test l'
  end.

(** The update [{ $set: upd }] on one document: every member of [upd]
    replaces the member of that name, whatever its value is; the other
    members stay. *)
Definition apply_set (upd : gmap string value) (p : Profile) : Profile :=
  set_fields (upd ∪ fields p) p.

(** The store after [doc.save()] of a loaded profile. *)
Definition write_profile (p : Profile) (d : db) : db :=
  set_profiles
    (map (λ q, if has_profile_id (profile_id p) q then p else q) (profiles d)) d.

(** The store after [doc.save()] of a profile made by [new Profile(...)]. *)
Definition insert_profile (p : Profile) (d : db) : db :=
  set_profiles (profiles d ++ [p])%list d.

(** ** Request bodies and validation *)

(** [check(field, message).not().isEmpty()]: the member is missing or is
    the empty string. *)
Definition isEmpty (v : option string) : bool :=
  match v with
  | Some s => String.eqb s ""
  | None => true
  end.

Definition check (field message : string) (body : gmap string string)
  : list verror :=
  if isEmpty (body !! field) then [{| msg := message; param := field |}] else [].

(** [if (v) obj[k] = v] *)
Definition assign_if_truthy {V} (k : string) (v : option string)
    (wrap : string → V) (obj : gmap string V) : gmap string V :=
  match v with
  | Some s => if truthy v then <[k := wrap s]> obj else obj
  | None => obj
  end.

(** The object literal [{ k1, k2, ... }] over members of the body: a member
    that is undefined does not reach the stored document. *)
Definition pick (keys : list string) (body : gmap string string)
  : gmap string string :=
  foldr (λ k obj, match body !! k with
                  | Some v => <[k := v]> obj
                  | None => obj
                  end) ∅ keys.

(** The [social] object built from the body. *)
Definition social_of (body : gmap string string) : gmap string string :=
  let social := ∅ in
  let social := assign_if_truthy "youtube" (body !! "youtube") id social in
  let social := assign_if_truthy "twitter" (body !! "twitter") id social in
  let social := assign_if_truthy "facebook" (body !! "facebook") id social in
  let social := assign_if_truthy "linkedin" (body !! "linkedin") id social in
  let social := assign_if_truthy "instagram" (body !! "instagram") id social in
  social.

(** [profileFields] as the upsert route builds it. *)
Definition profileFields_of (uid : string) (body : gmap string string)
  : gmap string value :=
  let pf := ∅ in
  let pf := <["user" := VStr uid]> pf in
  let pf := assign_if_truthy "company" (body !! "company") VStr pf in
  let pf := assign_if_truthy "website" (body !! "website") VStr pf in
  let pf := assign_if_truthy "location" (body !! "location") VStr pf in
  let pf := assign_if_truthy "bio" (body !! "bio") VStr pf in
  let pf := assign_if_truthy "status" (body !! "status") VStr pf in
  let pf := assign_if_truthy "githubusername" (body !! "githubusername") VStr pf in
  let pf := assign_if_truthy "skills" (body !! "skills")
              (λ skills, VArr (map trim (split_comma skills))) pf in
  <["social" := VObj (social_of body)]> pf.

(** The nested [social] member of a profile, by name. *)
Definition social_link (name : string) (p : Profile) : option string :=
  match fields p !! "social" with
  | Some (VObj social) => social !! name
  | _ => None
  end.

Section Routes.

(** What Mongoose accepts as an ObjectId, and the ids its generator hands
    out, are the driver's: both are parameters of the development. *)
Variable valid_oid : string → bool.
Variable gen_oid : nat → string.

(** [Post.findById(id)]: a malformed id rejects with a cast error. *)
Definition Post_findById (id : string) : M (option Post) :=
  if valid_oid id
  then await (PostFindById id) (λ d, (lookup_post id d, d))
  else throw CastError.

Definition Post_save (p : Post) : M unit :=
  await (PostSave (post_id p)) (λ d, (tt, write_post p d)).

Definition Post_remove (p : Post) : M unit :=
  await (PostRemove (post_id p)) (λ d, (tt, drop_post p d)).

(** The [catch] block shared by the three post routes below. *)
Definition catch_post (err : exn) : M response :=
  if kind_ObjectId err
  then mret (json 404 (Msg "Post not found"))
  else mret (send 500 "Server Error").

(** [router.delete('/:id', auth, ...)] of posts: [uid] is [req.user.id],
    [pid] is [req.params.id]. *)
Definition delete_post (uid pid : string) : M response :=
  try_catch
    (post ← Post_findById pid;
     match post with
     | None => mret (json 404 (Msg "Post not found"))
     | Some post =>
         if negb (String.eqb (post_user post) uid)
         then mret (json 401 (Msg "User not authorized"))
         else
           _ ← Post_remove post;
           mret (json 200 (Msg "Post removed"))
     end)
    catch_post.

(** [router.put('/like/:id', auth, ...)] *)
Definition like_post (uid pid : string) : M response :=
  try_catch
    (post ← Post_findById pid;
     match post with
     | None => mret (json 404 (Msg "Post not found"))
     | Some post =>
         if Nat.ltb 0
              (length (List.filter (λ like, String.eqb (like_user like) uid)
                         (post_likes post)))
         then mret (json 400 (Msg "Post already liked"))
         else
           let post :=
             set_likes (unshift {| like_user := uid |} (post_likes post)) post in
           _ ← Post_save post;
           mret (json 200 (JLikes (post_likes post)))
     end)
    catch_post.

(** [router.put('/unlike/:id', auth, ...)] *)
Definition unlike_post (uid pid : string) : M response :=
  try_catch
    (post ← Post_findById pid;
     match post with
     | None => mret (json 404 (Msg "Post not found"))
     | Some post =>
         let removeIndex := indexOf uid (map like_user (post_likes post)) in
         if (0 <=? removeIndex)%Z
         then
           let post := set_likes (splice1 removeIndex (post_likes post)) post in
           _ ← Post_save post;
           mret (json 200 (JLikes (post_likes post)))
         else mret (json 400 (Msg "Post has not yet been liked"))
     end)
    catch_post.

(** A fresh ObjectId. *)
Definition new_oid : M string := λ w,
  (Ok (gen_oid (next_oid w)),
   {| store := store w; log := log w; faults := faults w;
      next_oid := S (next_oid w) |}).

(** [obj.member] where [obj] may be null. *)
Definition deref {A} (obj : option A) : M A :=
  match obj with
  | Some a => mret a
  | None => throw TypeError
  end.

Definition Profile_findOne (uid : string) : M (option Profile) :=
  await (ProfileFindOne uid) (λ d, (lookup_profile uid d, d)).

(** [Profile.findOneAndUpdate({ user }, { $set }, { new: true })] *)
Definition Profile_findOneAndUpdate (uid : string) (upd : gmap string value)
  : M (option Profile) :=
  await (ProfileFindOneAndUpdate uid)
    (λ d, (apply_set upd <$> lookup_profile uid d,
           set_profiles (update_first (owned_by uid) (apply_set upd) (profiles d)) d)).

Definition Profile_save (p : Profile) : M unit :=
  await (ProfileSave (profile_id p)) (λ d, (tt, write_profile p d)).

Definition Profile_save_new (p : Profile) : M unit :=
  await (ProfileSave (profile_id p)) (λ d, (tt, insert_profile p d)).

Definition Post_deleteMany (uid : string) : M unit :=
  await (PostDeleteMany uid)
    (λ d, (tt, set_posts
                 (List.filter (λ p, negb (String.eqb (post_user p) uid)) (posts d)) d)).

Definition Profile_findOneAndRemove (uid : string) : M unit :=
  await (ProfileFindOneAndRemove uid)
    (λ d, (tt, set_profiles (remove_first (owned_by uid) (profiles d)) d)).

Definition User_findOneAndRemove (uid : string) : M unit :=
  await (UserFindOneAndRemove uid)
    (λ d, (tt, set_users
                 (remove_first (λ u, String.eqb (user_id u) uid) (users d)) d)).

(** [new Profile(profileFields)] *)
Definition new_Profile (pf : gmap string value) : M Profile :=
  oid ← new_oid;
  mret {| profile_id := oid; fields := pf; experience := []; education := [] |}.

(** The sub-document an array of entries makes of a plain object. *)
Definition new_Entry (data : gmap string string) : M Entry :=
  oid ← new_oid;
  mret {| entry_id := oid; entry_data := data |}.

Definition catch_profile (err : exn) : M response :=
  mret (send 500 "Server Error").

(** [router.post('/', [auth, [check(...), check(...)]], ...)] of profile:
    create or update the profile of [uid]. *)
Definition upsert_profile (uid : string) (body : gmap string string)
  : M response :=
  let errors := (check "status" "Status is required" body
                ++ check "skills" "Skills are required" body)%list in
  if negb (bool_decide (errors = []))
  then mret (json 400 (Errors errors))
  else
    let profileFields := profileFields_of uid body in
    try_catch
      (profile ← Profile_findOne uid;
       match profile with
       | Some _ =>
           profile ← Profile_findOneAndUpdate uid profileFields;
           match profile with
           | Some profile => mret (json 200 (JProfile profile))
           | None => mret (json 200 (JValue JNull))
           end
       | None =>
           profile ← new_Profile profileFields;
           _ ← Profile_save_new profile;
           mret (json 200 (JProfile profile))
       end)
      catch_profile.

(** [router.delete('/', auth, ...)] of profile: posts, profile, user. *)
Definition delete_account (uid : string) : M response :=
  try_catch
    (_ ← Post_deleteMany uid;
     _ ← Profile_findOneAndRemove uid;
     _ ← User_findOneAndRemove uid;
     mret (json 200 (Msg "User deleted")))
    catch_profile.

(** [router.put('/experience', ...)] *)
Definition add_experience (uid : string) (body : gmap string string)
  : M response :=
  let errors := (check "title" "Title is required" body
                ++ check "company" "Company is required" body
                ++ check "from" "From date is required" body)%list in
  if negb (bool_decide (errors = []))
  then mret (json 400 (Errors errors))
  else
    let newExp :=
      pick ["company"; "title"; "location"; "from"; "to"; "current";
            "description"] body in
    try_catch
      (profile ← Profile_findOne uid;
       profile ← deref profile;
       entry ← new_Entry newExp;
       let profile := set_experience (unshift entry (experience profile)) profile in
       _ ← Profile_save profile;
       mret (json 200 (JProfile profile)))
      catch_profile.

(** [router.put('/education', ...)] *)
Definition add_education (uid : string) (body : gmap string string)
  : M response :=
  let errors := (check "school" "School is required" body
                ++ check "degree" "Degree is required" body
                ++ check "fieldofstudy" "Field of study is required" body
                ++ check "from" "From date is required" body)%list in
  if negb (bool_decide (errors = []))
  then mret (json 400 (Errors errors))
  else
    let newEdu :=
      pick ["school"; "degree"; "fieldofstudy"; "from"; "to"; "current";
            "description"] body in
    try_catch
      (profile ← Profile_findOne uid;
       profile ← deref profile;
       entry ← new_Entry newEdu;
       let profile := set_education (unshift entry (education profile)) profile in
       _ ← Profile_save profile;
       mret (json 200 (JProfile profile)))
      catch_profile.

(** [router.delete('/experience/:exp_id', auth, ...)] *)
Definition remove_experience (uid exp_id : string) : M response :=
  try_catch
    (profile ← Profile_findOne uid;
     profile ← deref profile;
     let removeIndex := indexOf exp_id (map entry_id (experience profile)) in
     profile ←
       (if (0 <=? removeIndex)%Z
        then
          let profile :=
            set_experience (splice1 removeIndex (experience profile)) profile in
          _ ← Profile_save profile;
          mret profile
        else mret profile);
     mret (json 200 (JProfile profile)))
    catch_profile.

(** [router.delete('/education/:edu_id', auth, ...)] *)
Definition remove_education (uid edu_id : string) : M response :=
  try_catch
    (profile ← Profile_findOne uid;
     profile ← deref profile;
     let removeIndex := indexOf edu_id (map entry_id (education profile)) in
     profile ←
       (if (0 <=? removeIndex)%Z
        then
          let profile :=
            set_education (splice1 removeIndex (education profile)) profile in
          _ ← Profile_save profile;
          mret profile
        else mret profile);
     mret (json 200 (JProfile profile)))
    catch_profile.

End Routes.

(** ** The GitHub route *)

(** The options object handed to [request]. *)
Record request_options := {
  uri : string;
  method : string;
  headers : list (string * string)
}.

(** [response] as [request] passes it to the callback. *)
Record incoming := { statusCode : nat }.

(** How a call of [request] ends: the transport fails, or the upstream
    answers with a status and a body. *)
Inductive upstream :=
  | TransportError (e : string)
  | Reply (code : nat) (text : string).

(** The arguments [(error, response, body)] the callback receives: on a
    transport failure only [error] is defined. *)
Definition callback_args (u : upstream)
  : option string * option incoming * option string :=
  match u with
  | TransportError e => (Some e, None, None)
  | Reply code text => (None, Some {| statusCode := code |}, Some text)
  end.

Section Github.

(** [JSON.parse]; [None] stands for the SyntaxError it throws. *)
Variable JSON_parse : string → option jsonv.
(** [config.githubid] and [config.githubsecret] *)
Variables githubid githubsecret : string.

Definition github_options (username : string) : request_options :=
  {| uri := "https://api.github.com/users/" ++ username
            ++ "/repos?per_page=5&sort=created:asc&client_id=" ++ githubid
            ++ "&client_secret=" ++ githubsecret;
     method := "GET";
     headers := [("user-agent", "node.js")] |}.

(** The callback [(error, response, body) => { ... }]: [error] is only
    logged; [response.statusCode] is read whatever [error] is.  The
    callback runs after the handler has returned, outside its [try]: what
    it throws is caught by nobody and no response is sent. *)
Definition github_callback (error : option string)
    (upstream_response : option incoming) (text : option string)
  : outcome response :=
  match upstream_response with
  | None => Throw TypeError
  | Some upstream_response =>
      if negb (Nat.eqb (statusCode upstream_response) 200)
      then Ok (json 404 (Msg "No github profile found"))
      else
        match text ≫= JSON_parse with
        | Some parsed => Ok (json 200 (JValue parsed))
        | None => Throw SyntaxError
        end
  end.

(** [router.get('/github/:username', ...)], given how [request] ends for
    each options object. *)
Definition github_repos (net : request_options → upstream)
    (username : string) : outcome response :=
  let options := github_options username in
  let '(error, upstream_response, text) := callback_args (net options) in
  github_callback error upstream_response text.

End Github.

(** ** Sample instances

    A concrete choice of the two parameters and a small store, on which the
    routes are run in the examples below. *)

Definition is_hex (c : ascii) : bool :=
  let n := nat_of_ascii c in
  (Nat.leb 48 n && Nat.leb n 57) || (Nat.leb 97 n && Nat.leb n 102).

(** Twenty-four hexadecimal digits. *)
Definition hex24 (s : string) : bool :=
  Nat.eqb (String.length s) 24 && forallb is_hex (list_ascii_of_string s).

Definition hex_digit (n : nat) : ascii :=
  nth n (list_ascii_of_string "0123456789abcdef") "0"%char.

Fixpoint hex_of (width n : nat) : string :=
  match width with
  | 0 => EmptyString
  | S width' => hex_of width' (n / 16) ++ String (hex_digit (n mod 16)) EmptyString
  end.

Definition oid_of_counter (n : nat) : string := hex_of 24 n.

Definition alice : string := "5d7a514b5d2c12c7449be001".
Definition bob : string := "5d7a514b5d2c12c7449be002".
Definition carol : string := "5d7a514b5d2c12c7449be003".

Definition post_a : Post :=
  {| post_id := "5d7a514b5d2c12c7449be0a1"; post_text := "hello";
     post_name := "Alice"; post_avatar := "a.png"; post_user := alice;
     post_likes := [ {| like_user := bob |} ] |}.

Definition post_b : Post :=
  {| post_id := "5d7a514b5d2c12c7449be0b1"; post_text := "again";
     post_name := "Bob"; post_avatar := "b.png"; post_user := bob;
     post_likes := [] |}.

Definition exp_1 : Entry :=
  {| entry_id := "5d7a514b5d2c12c7449be0e1";
     entry_data := {[ "title" := "Engineer"; "company" := "Acme";
                      "from" := "2018-01-01" ]} |}.

Definition edu_1 : Entry :=
  {| entry_id := "5d7a514b5d2c12c7449be0d1";
     entry_data := {[ "school" := "MIT"; "degree" := "BSc";
                      "fieldofstudy" := "CS"; "from" := "2014-09-01" ]} |}.

Definition profile_alice : Profile :=
  {| profile_id := "5d7a514b5d2c12c7449be0f1";
     fields := {[ "user" := VStr alice; "status" := VStr "Developer";
                  "company" := VStr "Acme";
                  "skills" := VArr ["html"; "css"];
                  "social" := VObj {[ "twitter" := "https://twitter.com/alice" ]} ]};
     experience := [exp_1];
     education := [edu_1] |}.

Definition sample_db : db :=
  {| users := [ {| user_id := alice; user_name := "Alice"; user_avatar := "a.png" |};
                {| user_id := bob; user_name := "Bob"; user_avatar := "b.png" |} ];
     profiles := [profile_alice];
     posts := [post_a; post_b] |}.

Definition sample_world : world :=
  {| store := sample_db; log := []; faults := []; next_oid := 7 |}.


(** ** Vocabulary of the statements *)

(** No store call of the request is going to reject. *)
Definition no_faults (w : world) : Prop := Forall (λ b, b = false) (faults w).

(** The log entries of store calls that ran to completion, in order. *)
Definition completed (os : list op) : list event :=
  flat_map (λ o, [Started o; Finished o]) os.

(** From [w] the handler answers [r], leaves the store [d], and has awaited
    exactly the store calls [os], each to completion. *)
Definition answers (h : M response) (w : world) (r : response) (d : db)
    (os : list op) : Prop :=
  ∃ w', h w = (Ok r, w') ∧ store w' = d ∧ log w' = (log w ++ completed os)%list.

(** No user id occurs twice in the likes of a post of the store. *)
Definition likes_unique (d : db) : Prop :=
  ∀ p, p ∈ posts d → NoDup (map like_user (post_likes p)).

(** The world after a store call that ran to completion and left [d]. *)
Definition after (o : op) (d : db) (w : world) : world :=
  {| store := d; log := (log w ++ [Started o; Finished o])%list;
     faults := tail (faults w); next_oid := next_oid w |}.

(** The three store calls of the account delete, in the order of the code. *)
Definition cascade (uid : string) : list op :=
  [PostDeleteMany uid; ProfileFindOneAndRemove uid; UserFindOneAndRemove uid].

(** The store a completed account delete leaves. *)
Definition without_account (uid : string) (d : db) : db :=
  {| users := remove_first (λ u, String.eqb (user_id u) uid) (users d);
     profiles := remove_first (owned_by uid) (profiles d);
     posts := List.filter (λ p, negb (String.eqb (post_user p) uid)) (posts d) |}.

(** The members of the body the upsert route copies to the top level of
    [profileFields], and those it copies into [social]. *)
Definition top_level_names : list string :=
  ["company"; "website"; "location"; "bio"; "status"; "githubusername";
   "skills"].

Definition social_names : list string :=
  ["youtube"; "twitter"; "facebook"; "linkedin"; "instagram"].

(** The value [profileFields] holds for a truthy top-level member. *)
Definition top_level_value (name : string) (s : string) : value :=
  if String.eqb name "skills" then VArr (map trim (split_comma s)) else VStr s.

(** The body passes the validation of the upsert route. *)
Definition upsert_valid (body : gmap string string) : Prop :=
  isEmpty (body !! "status") = false ∧ isEmpty (body !! "skills") = false.

(** The body passes the validation of the experience and of the education
    route. *)
Definition experience_valid (body : gmap string string) : Prop :=
  isEmpty (body !! "title") = false ∧ isEmpty (body !! "company") = false
  ∧ isEmpty (body !! "from") = false.

Definition education_valid (body : gmap string string) : Prop :=
  isEmpty (body !! "school") = false ∧ isEmpty (body !! "degree") = false
  ∧ isEmpty (body !! "fieldofstudy") = false ∧ isEmpty (body !! "from") = false.

(** The objects [newExp] and [newEdu] of the two routes. *)
Definition newExp_of (body : gmap string string) : gmap string string :=
  pick ["company"; "title"; "location"; "from"; "to"; "current"; "description"]
    body.

Definition newEdu_of (body : gmap string string) : gmap string string :=
  pick ["school"; "degree"; "fieldofstudy"; "from"; "to"; "current";
        "description"] body.

(** Bodies for the two routes that pass validation. *)
Definition exp_body : gmap string string :=
  {[ "title" := "Developer"; "company" := "Initech"; "from" := "2019-03-01" ]}.

Definition edu_body : gmap string string :=
  {[ "school" := "NUS"; "degree" := "MSc"; "fieldofstudy" := "Computing";
     "from" := "2016-08-01" ]}.

(** The profile a response carries, if it carries one. *)
Definition returned_profile (r : outcome response) : option Profile :=
  match r with
  | Ok {| payload := JProfile p |} => Some p
  | _ => None
  end.

(** Two upsert bodies for a user whose profile has a twitter link: one
    leaves [twitter] out, the other sends it empty. *)
Definition body_without_twitter : gmap string string :=
  {[ "status" := "Developer"; "skills" := "html, css, js";
     "youtube" := "https://youtube.com/alice" ]}.

Definition body_with_empty_twitter : gmap string string :=
  {[ "status" := "Developer"; "skills" := "html, css, js";
     "company" := ""; "twitter" := "" ]}.

(** A [JSON.parse] that knows one text, and a network that is down. *)
Definition parse_sample (text : string) : option jsonv :=
  if String.eqb text "[]" then Some (JArray []) else None.

Definition network_down (_ : request_options) : upstream :=
  TransportError "ECONNREFUSED".

(** ** Further routes of the two files

    The routes below share the models above.  [User.findById] has no entry
    among the logged store calls: it is awaited like any other call, and
    may reject like any other, but leaves the log as it is. *)

(** [await] of a store call the log has no entry for. *)
Definition await_quiet {A} (f : db → A * db) : M A := λ w,
  match faults w with
  | true :: fs => (Throw StoreError, set_faults fs w)
  | fs =>
      let '(a, d) := f (store w) in
      (Ok a, set_store d (set_faults (tail fs) w))
  end.

(** The document of the users collection whose [_id] is [id]. *)
Definition lookup_user (id : string) (d : db) : option User :=
  List.find (λ u, String.eqb (user_id u) id) (users d).

(** The store after [doc.save()] of a post made by [new Post(...)]. *)
Definition insert_post (p : Post) (d : db) : db :=
  set_posts (posts d ++ [p])%list d.

(** What [res.json] sends for a like, a post and a user: the members the
    records carry, by name. *)
Definition json_of_like (l : Like) : jsonv :=
  JObject [("user", JString (like_user l))].

Definition json_of_post (p : Post) : jsonv :=
  JObject [("_id", JString (post_id p)); ("text", JString (post_text p));
           ("name", JString (post_name p)); ("avatar", JString (post_avatar p));
           ("user", JString (post_user p));
           ("likes", JArray (map json_of_like (post_likes p)))].

Definition json_of_user (u : User) : jsonv :=
  JObject [("_id", JString (user_id u)); ("name", JString (user_name u));
           ("avatar", JString (user_avatar u))].

(** [.populate('user', ['name', 'avatar'])] on a profile: the id under
    [user] gives way to the [_id], [name] and [avatar] of the user it names.
    When no user has that id Mongoose leaves null, which the fields map
    renders as no member. *)
Definition populate_user (d : db) (p : Profile) : Profile :=
  match fields p !! "user" with
  | Some (VStr u) =>
      match lookup_user u d with
      | Some usr =>
          set_fields
            (<["user" := VObj {[ "_id" := user_id usr; "name" := user_name usr;
                                 "avatar" := user_avatar usr ]}]> (fields p)) p
      | None => set_fields (delete "user" (fields p)) p
      end
  | _ => p
  end.

Section FurtherRoutes.

Variable valid_oid : string → bool.
Variable gen_oid : nat → string.

(** [User.findById(id).select('-password')]: the user record carries no
    password, so the selection keeps all of it. *)
Definition User_findById (id : string) : M (option User) :=
  await_quiet (λ d, (lookup_user id d, d)).

Definition Post_save_new (p : Post) : M unit :=
  await (PostSave (post_id p)) (λ d, (tt, insert_post p d)).

(** [new Post({ text, name, avatar, user })]: a fresh id, no likes yet. *)
Definition new_Post (text name avatar user : string) : M Post :=
  oid ← new_oid gen_oid;
  mret {| post_id := oid; post_text := text; post_name := name;
          post_avatar := avatar; post_user := user; post_likes := [] |}.

(** [Profile.findOne({ user: id }).populate('user', ['name', 'avatar'])],
    one awaited query. *)
Definition Profile_findOne_populated (id : string) : M (option Profile) :=
  await (ProfileFindOne id) (λ d, (populate_user d <$> lookup_profile id d, d)).

(** [router.get('/', auth, ...)] of auth: the user of the token. *)
Definition get_auth_user (uid : string) : M response :=
  try_catch
    (user ← User_findById uid;
     mret (json 200 (JValue (match user with
                             | Some user => json_of_user user
                             | None => JNull
                             end))))
    (λ err, mret (send 400 "Server Error")).

(** [router.post('/', [auth, [check('text', ...)]], ...)] of posts. *)
Definition create_post (uid : string) (body : gmap string string)
  : M response :=
  let errors := check "text" "Text is required" body in
  if negb (bool_decide (errors = []))
  then mret (json 400 (Errors errors))
  else
    try_catch
      (user ← User_findById uid;
       user ← deref user;
       newPost ← new_Post (default "" (body !! "text")) (user_name user)
                   (user_avatar user) uid;
       _ ← Post_save_new newPost;
       mret (json 200 (JValue (json_of_post newPost))))
      (λ err, mret (send 500 "Server Error")).

(** [router.get('/:id', auth, ...)] of posts. *)
Definition get_post (pid : string) : M response :=
  try_catch
    (post ← Post_findById valid_oid pid;
     match post with
     | None => mret (json 404 (Msg "Post not found"))
     | Some post => mret (json 200 (JValue (json_of_post post)))
     end)
    catch_post.

(** [router.get('/me', auth, ...)] of profile. *)
Definition get_my_profile (uid : string) : M response :=
  try_catch
    (profile ← Profile_findOne_populated uid;
     match profile with
     | None => mret (json 400 (Msg "User profile not found!"))
     | Some profile => mret (json 200 (JProfile profile))
     end)
    catch_profile.

(** [router.get('/user/:id', ...)] of profile: the id comes from the path
    and may be malformed. *)
Definition get_profile_by_user (id : string) : M response :=
  try_catch
    (profile ← (if valid_oid id then Profile_findOne_populated id
                else throw CastError);
     match profile with
     | None => mret (json 400 (Msg "User profile not found!"))
     | Some profile => mret (json 200 (JProfile profile))
     end)
    (λ err,
       if kind_ObjectId err
       then mret (json 400 (Msg "User profile not found!"))
       else mret (send 500 "Server Error")).

End FurtherRoutes.

(** ** The client's profile actions (client/src/actions/profile.js)

    An action is an async thunk: it sends one request through axios and
    dispatches according to how the request settles.  It is embedded as a
    function of the way axios settles each request, giving the effects it
    performs, in order, and the exception it ends with if one escapes. *)

Inductive action :=
  | GET_PROFILE (payload : body)
  | GET_PROFILES (payload : body)
  | PROFILE_ERROR (message : string) (code : nat)
  | UPDATE_PROFILE (payload : body)
  | CLEAR_PROFILE
  | ACCOUNT_DELETED
  | GET_REPOS (payload : body).

Inductive effect :=
  | Dispatch (a : action)
  | SetAlert (message : string) (alertType : option string)
  | HistoryPush (path : string).

(** [err.response] *)
Record axios_response := {
  data : body;
  response_status : nat;
  statusText : string
}.

(** How a request settles: fulfilled with [result.data], or rejected with
    an error whose [response] is undefined when no answer came. *)
Inductive settled :=
  | Fulfilled (result_data : body)
  | Rejected (err_response : option axios_response).

Record axios_request := {
  verb : string;
  url : string;
  formData : option (gmap string string);
  config_headers : list (string * string)
}.

Definition axios_get (path : string) : axios_request :=
  {| verb := "GET"; url := path; formData := None; config_headers := [] |}.

Definition axios_delete (path : string) : axios_request :=
  {| verb := "DELETE"; url := path; formData := None; config_headers := [] |}.

Definition json_config : list (string * string) :=
  [("Content-Type", "application/json")].

Definition axios_post (path : string) (form : gmap string string)
  : axios_request :=
  {| verb := "POST"; url := path; formData := Some form;
     config_headers := json_config |}.

Definition axios_put (path : string) (form : gmap string string)
  : axios_request :=
  {| verb := "PUT"; url := path; formData := Some form;
     config_headers := json_config |}.

(** What a thunk has done when its promise settles: the effects, in order,
    and the exception it rejected with, if any. *)
Definition thunk_result : Type := list effect * option exn.

(** The catch block all actions end with: it reads [err.response.statusText]
    and [err.response.status]. *)
Definition dispatch_profile_error (err_response : option axios_response)
  : thunk_result :=
  match err_response with
  | Some response =>
      ([Dispatch (PROFILE_ERROR (statusText response) (response_status response))],
       None)
  | None => ([], Some TypeError)
  end.

(** [err.response.data.errors]: the outer [None] is the TypeError of a
    member read on null, the inner one is [undefined]. *)
Definition data_errors (err_response : option axios_response)
  : option (option (list verror)) :=
  match err_response with
  | Some response =>
      match data response with
      | Errors es => Some (Some es)
      | JValue JNull => None
      | _ => Some None
      end
  | None => None
  end.

(** The catch block of the three form actions: one danger alert for each
    validation error, then the error action. *)
Definition alert_errors_then_profile_error
    (err_response : option axios_response) : thunk_result :=
  match data_errors err_response with
  | None => ([], Some TypeError)
  | Some errors =>
      let alerts :=
        match errors with
        | Some errors => map (λ error, SetAlert (msg error) (Some "danger")) errors
        | None => []
        end in
      let '(effects, thrown) := dispatch_profile_error err_response in
      ((alerts ++ effects)%list, thrown)
  end.

Section ProfileActions.

(** How axios settles each request. *)
Variable axios : axios_request → settled.

Definition getCurrentProfile : thunk_result :=
  match axios (axios_get "/api/profile/me") with
  | Fulfilled result_data => ([Dispatch (GET_PROFILE result_data)], None)
  | Rejected err_response => dispatch_profile_error err_response
  end.

Definition getProfiles : thunk_result :=
  let '(effects, thrown) :=
    match axios (axios_get "/api/profile/") with
    | Fulfilled result_data => ([Dispatch (GET_PROFILES result_data)], None)
    | Rejected err_response => dispatch_profile_error err_response
    end in
  (Dispatch CLEAR_PROFILE :: effects, thrown).

Definition getProfileById (userId : string) : thunk_result :=
  match axios (axios_get ("/api/profile/" ++ userId)) with
  | Fulfilled result_data => ([Dispatch (GET_PROFILE result_data)], None)
  | Rejected err_response => dispatch_profile_error err_response
  end.

Definition getGithubRepos (username : string) : thunk_result :=
  match axios (axios_get ("/api/profile/github/" ++ username)) with
  | Fulfilled result_data => ([Dispatch (GET_REPOS result_data)], None)
  | Rejected err_response => dispatch_profile_error err_response
  end.

Definition createProfile (form : gmap string string) (edit : bool)
  : thunk_result :=
  match axios (axios_post "/api/profile" form) with
  | Fulfilled result_data =>
      ((Dispatch (GET_PROFILE result_data)
        :: SetAlert (if edit then "Profile Updated" else "Profile Created")
             (Some "success")
        :: (if negb edit then [HistoryPush "/dashboard"] else []))%list,
       None)
  | Rejected err_response => alert_errors_then_profile_error err_response
  end.

Definition addExperience (form : gmap string string) : thunk_result :=
  match axios (axios_put "/api/profile/experience" form) with
  | Fulfilled result_data =>
      ([Dispatch (UPDATE_PROFILE result_data);
        SetAlert "Experience Added" (Some "success");
        HistoryPush "/dashboard"], None)
  | Rejected err_response => alert_errors_then_profile_error err_response
  end.

Definition addEducation (form : gmap string string) : thunk_result :=
  match axios (axios_put "/api/profile/education" form) with
  | Fulfilled result_data =>
      ([Dispatch (UPDATE_PROFILE result_data);
        SetAlert "Education Added" (Some "success");
        HistoryPush "/dashboard"], None)
  | Rejected err_response => alert_errors_then_profile_error err_response
  end.

Definition deleteExperience (id : string) : thunk_result :=
  match axios (axios_delete ("/api/profile/experience/" ++ id)) with
  | Fulfilled result_data =>
      ([Dispatch (UPDATE_PROFILE result_data);
        SetAlert "Experience Removed" (Some "success")], None)
  | Rejected err_response => dispatch_profile_error err_response
  end.

Definition deleteEducation (id : string) : thunk_result :=
  match axios (axios_delete ("/api/profile/education/" ++ id)) with
  | Fulfilled result_data =>
      ([Dispatch (UPDATE_PROFILE result_data);
        SetAlert "Education Removed" (Some "success")], None)
  | Rejected err_response => dispatch_profile_error err_response
  end.

(** [confirmed] is what [window.confirm] returns. *)
Definition deleteAccount (confirmed : bool) : thunk_result :=
  if confirmed
  then
    match axios (axios_delete "/api/profile/") with
    | Fulfilled _ =>
        ([Dispatch CLEAR_PROFILE; Dispatch ACCOUNT_DELETED;
          SetAlert "Your account has been permanently deleted" None], None)
    | Rejected err_response => dispatch_profile_error err_response
    end
  else ([], None).

End ProfileActions.

(** How axios settles a request the server answered with [r]: a status
    from 200 to 299 fulfils it, any other rejects it with the answer as
    [err.response].  The reason phrase of a status is the transport's. *)
Definition settle (reason : nat → string) (r : response) : settled :=
  if Nat.leb 200 (status r) && Nat.ltb (status r) 300
  then Fulfilled (payload r)
  else Rejected (Some {| data := payload r; response_status := status r;
                         statusText := reason (status r) |}).

(** ** Vocabulary of the further statements *)

(** How many profiles of the store the filter [{ user: uid }] selects. *)
Definition count_owned (uid : string) (d : db) : nat :=
  length (List.filter (owned_by uid) (profiles d)).

(** No user has two profiles. *)
Definition one_profile_each (d : db) : Prop :=
  ∀ uid, (count_owned uid d ≤ 1)%nat.

(** Of the next [k] store calls, how many run before one rejects. *)
Fixpoint calls_before_fault (k : nat) (fs : list bool) : nat :=
  match k with
  | 0 => 0
  | S k' =>
      match fs with
      | true :: _ => 0
      | _ :: fs' => S (calls_before_fault k' fs')
      | [] => k
      end
  end.

(** The store after the first [n] calls of the account delete. *)
Definition cascade_stage (n : nat) (uid : string) (d : db) : db :=
  match n with
  | 0 => d
  | 1 => set_posts
           (List.filter (λ p, negb (String.eqb (post_user p) uid)) (posts d)) d
  | 2 => set_profiles (remove_first (owned_by uid) (profiles d))
           (set_posts
              (List.filter (λ p, negb (String.eqb (post_user p) uid)) (posts d))
              d)
  | _ => without_account uid d
  end.

(** The commas of a string. *)
Definition commas (s : string) : nat :=
  length (List.filter (Ascii.eqb ","%char) (list_ascii_of_string s)).

(** A string that is a sequence of characters of [chars]. *)
Inductive made_of (chars : list string) : string → Prop :=
  | made_of_nil : made_of chars ""
  | made_of_cons c s : c ∈ chars → made_of chars s → made_of chars (c ++ s).

(** ** Further samples *)

(** The body of a post, a form that fails the validation of the upsert, and
    a world whose second store call rejects. *)
Definition text_body : gmap string string := {[ "text" := "first post" ]}.

Definition invalid_form : gmap string string := {[ "company" := "Acme" ]}.

Definition world_failing_second : world :=
  {| store := sample_db; log := []; faults := [false; true]; next_oid := 7 |}.

Definition world_failing_third : world :=
  {| store := sample_db; log := []; faults := [false; false; true];
     next_oid := 7 |}.

(** Reason phrases of the statuses the routes use. *)
Definition reason_phrase (code : nat) : string :=
  if Nat.eqb code 400 then "Bad Request"
  else if Nat.eqb code 401 then "Unauthorized"
  else if Nat.eqb code 404 then "Not Found"
  else if Nat.eqb code 500 then "Internal Server Error"
  else "OK".

(** An axios that never gets an answer, and one that settles every request
    as a server that answers [r]. *)
Definition axios_down (_ : axios_request) : settled := Rejected None.

Definition axios_answering (r : response) (_ : axios_request) : settled :=
  settle reason_phrase r.

(** Skills padded with a no-break space and an ideographic space. *)
Definition padded_skills : string :=
  "html," ++ utf8 [194; 160] ++ " css" ++ utf8 [227; 128; 128] ++ ",js".

Definition body_with_padded_skills : gmap string string :=
  {[ "status" := "Developer"; "skills" := padded_skills ]}.

(** * Properties *)

(** ** Strings *)

(** The skills of the example of the specification. *)
Example skills_trimmed_in_order :
  map trim (split_comma "html, css, js") = ["html"; "css"; "js"]
  ∧ map trim (split_comma " a ,b,, c ") = ["a"; "b"; ""; "c"].
Proof. split; vm_compute; reflexivity. Qed.

(** ** The monad and the store calls *)

Lemma run_bind {A B} (m : M A) (k : A → M B) (w : world) :
  (m ≫= k) w = match m w with
               | (Ok a, w') => k a w'
               | (Throw e, w') => (Throw e, w')
               end.
Proof. reflexivity. Qed.

Lemma run_ret_bind {A B} (a : A) (k : A → M B) (w : world) :
  (mret a ≫= k) w = k a w.
Proof. reflexivity. Qed.

Lemma await_ok {A} (o : op) (f : db → A * db) (w : world) :
  no_faults w →
  await o f w = (Ok (f (store w)).1, after o (f (store w)).2 w).
Proof.
  unfold no_faults, await, after. intros Hq.
  destruct (faults w) as [|[] fs] eqn:Hf.
  - destruct (f (store w)) as [a d].
    unfold log_event, set_store, set_faults. simpl. by rewrite <- app_assoc.
  - by inversion Hq.
  - destruct (f (store w)) as [a d].
    unfold log_event, set_store, set_faults. simpl. by rewrite <- app_assoc.
Qed.

Lemma after_no_faults (o : op) (d : db) (w : world) :
  no_faults w → no_faults (after o d w).
Proof.
  unfold no_faults. simpl. intros Hq.
  destruct (faults w); [done|]. by inversion Hq.
Qed.

(** A store call either rejects, leaving the store as it was, or runs. *)
Lemma await_cases {A} (o : op) (f : db → A * db) (w : world) :
  (∃ w', await o f w = (Throw StoreError, w') ∧ store w' = store w
         ∧ log w' = (log w ++ [Started o])%list)
  ∨ await o f w = (Ok (f (store w)).1, after o (f (store w)).2 w).
Proof.
  unfold await, after.
  destruct (faults w) as [|[] fs] eqn:Hf.
  - right. destruct (f (store w)) as [a d].
    unfold log_event, set_store, set_faults. simpl. by rewrite <- app_assoc.
  - left. eexists. split; [reflexivity|]. done.
  - right. destruct (f (store w)) as [a d].
    unfold log_event, set_store, set_faults. simpl. by rewrite <- app_assoc.
Qed.

(** ** Arrays *)

Lemma indexOf_ge_m1 (x : string) (l : list string) : (-1 ≤ indexOf x l)%Z.
Proof.
  induction l as [|y l IH]; simpl; [lia|].
  destruct (String.eqb y x); [lia|].
  destruct (Z.ltb_spec (indexOf x l) 0); lia.
Qed.

(** [indexOf] is negative exactly when the element does not occur. *)
Lemma indexOf_absent (x : string) (l : list string) :
  (0 <=? indexOf x l)%Z = false ↔ x ∉ l.
Proof.
  induction l as [|y l IH]; simpl.
  - split; [intros _; apply not_elem_of_nil | done].
  - destruct (String.eqb_spec y x) as [->|Hne].
    + split; [done|]. intros H. exfalso. apply H. left.
    + rewrite not_elem_of_cons.
      pose proof (indexOf_ge_m1 x l).
      destruct (Z.ltb_spec (indexOf x l) 0) as [Hlt|Hge].
      * split; [|done]. intros _. split; [congruence|].
        apply IH. apply Z.leb_gt. lia.
      * split.
        -- intros Hc. apply Z.leb_gt in Hc. lia.
        -- intros [_ Hn]. apply IH in Hn. apply Z.leb_gt in Hn. lia.
Qed.

(** When the key occurs among the images, [indexOf] points at the first
    element that carries it and [splice1] removes that element. *)
Lemma splice1_indexOf {A} (key : A → string) (x : string) (l : list A) :
  x ∈ map key l →
  ∃ l1 a l2, l = (l1 ++ a :: l2)%list ∧ key a = x ∧ (x ∉ map key l1)
             ∧ (0 <=? indexOf x (map key l))%Z = true
             ∧ splice1 (indexOf x (map key l)) l = (l1 ++ l2)%list.
Proof.
  induction l as [|b l IH]; simpl.
  - intros H. by apply elem_of_nil in H.
  - intros H. destruct (String.eqb_spec (key b) x) as [Hb|Hb].
    + exists [], b, l. split_and!; try done. simpl. apply not_elem_of_nil.
    + apply elem_of_cons in H as [H|H]; [congruence|].
      destruct (IH H) as (l1 & a & l2 & -> & Ha & Hn & Hi & Hs).
      exists (b :: l1), a, l2.
      apply Z.leb_le in Hi.
      destruct (Z.ltb_spec (indexOf x (map key (l1 ++ a :: l2))) 0) as [?|_];
        [lia|].
      split_and!; try done.
      * simpl. rewrite not_elem_of_cons. split; [congruence | done].
      * apply Z.leb_le. lia.
      * unfold splice1 in *.
        replace (Z.to_nat (indexOf x (map key (l1 ++ a :: l2)) + 1))
          with (S (Z.to_nat (indexOf x (map key (l1 ++ a :: l2))))) by lia.
        simpl. by rewrite Hs.
Qed.

(** ** The posts collection *)

Lemma lookup_post_Some (pid : string) (d : db) (post : Post) :
  lookup_post pid d = Some post → post_id post = pid ∧ post ∈ posts d.
Proof.
  unfold lookup_post. intros H. apply find_some in H as [Hin Hid].
  split; [by apply String.eqb_eq | by apply list_elem_of_In].
Qed.

Lemma lookup_write_post (pid : string) (d : db) (post post' : Post) :
  lookup_post pid d = Some post → post_id post' = pid →
  lookup_post pid (write_post post' d) = Some post'.
Proof.
  unfold lookup_post, write_post, has_post_id. simpl. intros H <-.
  induction (posts d) as [|q ps IH]; simpl in *; [done|].
  destruct (String.eqb_spec (post_id q) (post_id post')) as [Heq|Hne].
  - by rewrite String.eqb_refl.
  - apply String.eqb_neq in Hne. rewrite Hne. by apply IH.
Qed.

Lemma lookup_drop_post (d : db) (post : Post) :
  lookup_post (post_id post) (drop_post post d) = None.
Proof.
  unfold lookup_post, drop_post. simpl.
  induction (posts d) as [|q ps IH]; simpl; [done|].
  destruct (has_post_id (post_id post) q) eqn:Hq; simpl; [done|].
  by rewrite Hq.
Qed.

Lemma already_liked_iff (uid : string) (ls : list Like) :
  Nat.ltb 0 (length (List.filter (λ like, String.eqb (like_user like) uid) ls))
    = true
  ↔ uid ∈ map like_user ls.
Proof.
  induction ls as [|l ls IH]; simpl.
  - split; [done|]. intros H. by apply elem_of_nil in H.
  - destruct (String.eqb_spec (like_user l) uid) as [->|Hne]; simpl.
    + split; [intros _; left | done].
    + rewrite IH, elem_of_cons. split; [tauto|]. intros [?|?]; [congruence|done].
Qed.

Section PostProperties.

Variable valid_oid : string → bool.

Lemma Post_findById_ok (pid : string) (w : world) :
  valid_oid pid = true → no_faults w →
  Post_findById valid_oid pid w
  = (Ok (lookup_post pid (store w)), after (PostFindById pid) (store w) w).
Proof.
  intros Hv Hq. unfold Post_findById. rewrite Hv. by rewrite await_ok.
Qed.

Lemma Post_findById_malformed (pid : string) (w : world) :
  valid_oid pid = false → Post_findById valid_oid pid w = (Throw CastError, w).
Proof. intros Hv. unfold Post_findById. by rewrite Hv. Qed.

(** C5. Liking a post that exists: when the caller is already among the
    likes the answer is AlreadyLiked, the store is as it was and the only
    store call made is the lookup (nothing is saved); otherwise
    [{user: uid}] is put in front of the likes, the post is saved with
    them, and the new likes are the answer. *)
Theorem like_post_guarded (w : world) (uid pid : string) (post : Post) :
  no_faults w → valid_oid pid = true →
  lookup_post pid (store w) = Some post →
  (uid ∈ map like_user (post_likes post) →
     answers (like_post valid_oid uid pid) w AlreadyLiked (store w)
       [PostFindById pid])
  ∧ (uid ∉ map like_user (post_likes post) →
     let likes' := {| like_user := uid |} :: post_likes post in
     let post' := set_likes likes' post in
     answers (like_post valid_oid uid pid) w (json 200 (JLikes likes'))
       (write_post post' (store w)) [PostFindById pid; PostSave pid]
     ∧ lookup_post pid (write_post post' (store w)) = Some post').
Proof.
  intros Hq Hv Hp. destruct (lookup_post_Some _ _ _ Hp) as [Hid _].
  unfold answers, like_post, try_catch. rewrite run_bind.
  rewrite Post_findById_ok, Hp by done.
  split.
  - intros Hin. apply already_liked_iff in Hin. rewrite Hin.
    eexists. split; [reflexivity|]. done.
  - intros Hin. simpl.
    destruct (Nat.ltb 0 _) eqn:Hl.
    { apply already_liked_iff in Hl. done. }
    split; [|by eapply lookup_write_post].
    rewrite run_bind. unfold Post_save.
    rewrite await_ok by by apply after_no_faults.
    eexists. split; [reflexivity|]. simpl. rewrite Hid.
    split; [done|]. by rewrite <- app_assoc.
Qed.

(** C6. Unliking a post that exists: when the caller is not among the
    likes the answer is NotLiked, the store is as it was and nothing is
    saved; otherwise the first like of the caller is taken out, the post
    is saved with the remaining likes, and those are the answer. *)
Theorem unlike_post_guarded (w : world) (uid pid : string) (post : Post) :
  no_faults w → valid_oid pid = true →
  lookup_post pid (store w) = Some post →
  (uid ∉ map like_user (post_likes post) →
     answers (unlike_post valid_oid uid pid) w NotLiked (store w)
       [PostFindById pid])
  ∧ (uid ∈ map like_user (post_likes post) →
     ∃ before like behind,
       post_likes post = (before ++ like :: behind)%list
       ∧ like_user like = uid
       ∧ (uid ∉ map like_user before)
       ∧ let likes' := (before ++ behind)%list in
         let post' := set_likes likes' post in
         answers (unlike_post valid_oid uid pid) w (json 200 (JLikes likes'))
           (write_post post' (store w)) [PostFindById pid; PostSave pid]
         ∧ lookup_post pid (write_post post' (store w)) = Some post').
Proof.
  intros Hq Hv Hp. destruct (lookup_post_Some _ _ _ Hp) as [Hid _].
  unfold answers, unlike_post, try_catch. rewrite run_bind.
  rewrite Post_findById_ok, Hp by done.
  split.
  - intros Hin. simpl. rewrite (proj2 (indexOf_absent _ _) Hin).
    eexists. split; [reflexivity|]. done.
  - intros Hin.
    destruct (splice1_indexOf like_user uid _ Hin)
      as (before & like & behind & Hl & Hu & Hn & Hi & Hs).
    exists before, like, behind. split_and!; try done;
      [|by eapply lookup_write_post].
    simpl. rewrite Hi, Hs, run_bind. unfold Post_save.
    rewrite await_ok by by apply after_no_faults.
    eexists. split; [reflexivity|]. simpl. rewrite Hid.
    split; [done|]. by rewrite <- app_assoc.
Qed.

(** C7. Deleting a post: an absent post gives NotFound; a post of
    somebody else gives Forbidden and the store, the post in it, is as it
    was; the owner's own post is removed from the store and the answer is
    the success message. *)
Theorem delete_post_owner_only (w : world) (uid pid : string) :
  no_faults w →
  (lookup_post pid (store w) = None →
     ∃ w', delete_post valid_oid uid pid w = (Ok PostNotFound, w')
           ∧ store w' = store w)
  ∧ (∀ post, valid_oid pid = true → lookup_post pid (store w) = Some post →
       (post_user post ≠ uid →
          answers (delete_post valid_oid uid pid) w Forbidden (store w)
            [PostFindById pid]
          ∧ lookup_post pid (store w) = Some post)
       ∧ (post_user post = uid →
          answers (delete_post valid_oid uid pid) w
            (json 200 (Msg "Post removed")) (drop_post post (store w))
            [PostFindById pid; PostRemove pid]
          ∧ lookup_post pid (drop_post post (store w)) = None)).
Proof.
  intros Hq. split.
  - intros Hp. unfold delete_post, try_catch. rewrite run_bind.
    destruct (valid_oid pid) eqn:Hv.
    + rewrite Post_findById_ok, Hp by done. eexists. by split.
    + rewrite Post_findById_malformed by done. eexists. by split.
  - intros post Hv Hp. destruct (lookup_post_Some _ _ _ Hp) as [Hid _].
    unfold answers, delete_post, try_catch. rewrite run_bind.
    rewrite Post_findById_ok, Hp by done.
    split.
    + intros Hne. apply String.eqb_neq in Hne. rewrite Hne. simpl.
      split; [|done]. eexists. split; [reflexivity|]. done.
    + intros Heq. apply String.eqb_eq in Heq. rewrite Heq. simpl.
      split; [|rewrite <- Hid; apply lookup_drop_post].
      rewrite run_bind. unfold Post_remove.
      rewrite await_ok by by apply after_no_faults.
      eexists. split; [reflexivity|]. simpl. rewrite Hid.
      split; [done|]. by rewrite <- app_assoc.
Qed.

Lemma likes_unique_write (p : Post) (d : db) :
  likes_unique d → NoDup (map like_user (post_likes p)) →
  likes_unique (write_post p d).
Proof.
  unfold likes_unique, write_post. simpl. intros Hd Hp q Hq.
  apply list_elem_of_In, in_map_iff in Hq as (q' & Hq & Hin).
  destruct (has_post_id (post_id p) q'); subst; [done|].
  by apply Hd, list_elem_of_In.
Qed.

(** What a like or an unlike leaves in the store: the store it found, or
    that store with one post rewritten. *)
Lemma like_post_store (w : world) (uid pid : string) :
  store (like_post valid_oid uid pid w).2 = store w
  ∨ ∃ post, lookup_post pid (store w) = Some post
      ∧ (uid ∉ map like_user (post_likes post))
      ∧ store (like_post valid_oid uid pid w).2
        = write_post (set_likes ({| like_user := uid |} :: post_likes post) post)
            (store w).
Proof.
  unfold like_post, try_catch. rewrite run_bind. unfold Post_findById.
  destruct (valid_oid pid); [|by left].
  destruct (await_cases (PostFindById pid) (λ d, (lookup_post pid d, d)) w)
    as [(w' & -> & Hs & _)| ->]; [by left|].
  simpl. destruct (lookup_post pid (store w)) as [post|] eqn:Hp; [|by left].
  destruct (Nat.ltb 0 _) eqn:Hl; [by left|].
  rewrite run_bind. unfold Post_save.
  match goal with |- context [await ?o ?f ?w0] =>
    destruct (await_cases o f w0) as [(w' & -> & Hs & _)| ->] end.
  - left. simpl in *. by rewrite Hs.
  - right. exists post. split_and!; [done| |done].
    intros Hin. apply already_liked_iff in Hin. congruence.
Qed.

Lemma unlike_post_store (w : world) (uid pid : string) :
  store (unlike_post valid_oid uid pid w).2 = store w
  ∨ ∃ post before like behind,
      lookup_post pid (store w) = Some post
      ∧ post_likes post = (before ++ like :: behind)%list
      ∧ store (unlike_post valid_oid uid pid w).2
        = write_post (set_likes (before ++ behind) post) (store w).
Proof.
  unfold unlike_post, try_catch. rewrite run_bind. unfold Post_findById.
  destruct (valid_oid pid); [|by left].
  destruct (await_cases (PostFindById pid) (λ d, (lookup_post pid d, d)) w)
    as [(w' & -> & Hs & _)| ->]; [by left|].
  simpl. destruct (lookup_post pid (store w)) as [post|] eqn:Hp; [|by left].
  destruct (0 <=? _)%Z eqn:Hi; [|by left].
  assert (uid ∈ map like_user (post_likes post)) as Hin.
  { destruct (decide (uid ∈ map like_user (post_likes post))); [done|].
    rewrite (proj2 (indexOf_absent _ _) n) in Hi. done. }
  destruct (splice1_indexOf like_user uid _ Hin)
    as (before & like & behind & Hl & _ & _ & _ & Hsp).
  rewrite Hsp, run_bind. unfold Post_save.
  match goal with |- context [await ?o ?f ?w0] =>
    destruct (await_cases o f w0) as [(w' & -> & Hs & _)| ->] end.
  - left. simpl in *. by rewrite Hs.
  - right. by exists post, before, like, behind.
Qed.

(** C9. A user id occurs at most once in the likes of a post, and a like
    and an unlike keep it so: if no post of the store has a user id twice
    among its likes, none has after [like_post] and none has after
    [unlike_post], whatever the request and however it ends. *)
Theorem likes_unique_preserved (w : world) (uid pid : string) :
  likes_unique (store w) →
  likes_unique (store (like_post valid_oid uid pid w).2)
  ∧ likes_unique (store (unlike_post valid_oid uid pid w).2).
Proof.
  intros Hu. split.
  - destruct (like_post_store w uid pid) as [->|(post & Hp & Hn & ->)];
      [done|].
    apply likes_unique_write; [done|]. simpl.
    apply NoDup_cons. split; [done|].
    apply Hu. by destruct (lookup_post_Some _ _ _ Hp).
  - destruct (unlike_post_store w uid pid)
      as [->|(post & before & like & behind & Hp & Hl & ->)]; [done|].
    apply likes_unique_write; [done|]. simpl.
    destruct (lookup_post_Some _ _ _ Hp) as [_ Hin].
    specialize (Hu post Hin). rewrite Hl in Hu.
    rewrite map_app in *. simpl in Hu.
    apply NoDup_app in Hu as (H1 & H2 & H3).
    apply NoDup_cons in H3 as [_ H3].
    apply NoDup_app. split_and!; [done| |done].
    intros x Hx Hx'. apply (H2 x Hx). by right.
Qed.

End PostProperties.

(** ** The account route *)

Lemma without_account_posts (uid : string) (d : db) (p : Post) :
  p ∈ posts (without_account uid d) → post_user p ≠ uid.
Proof.
  simpl. intros H. apply list_elem_of_In, filter_In in H as [_ H].
  apply negb_true_iff in H. by apply String.eqb_neq.
Qed.

Lemma remove_first_split {A} (test : A → bool) (before : list A) (x : A)
    (behind : list A) :
  test x = true → (∀ y, y ∈ before → test y = false) →
  remove_first test (before ++ x :: behind) = (before ++ behind)%list.
Proof.
  intros Hx Hb. induction before as [|y before IH]; simpl.
  - by rewrite Hx.
  - rewrite (Hb y) by left. f_equal. apply IH. intros z Hz. apply Hb. by right.
Qed.

Lemma remove_first_none {A} (test : A → bool) (l : list A) :
  (∀ y, y ∈ l → test y = false) → remove_first test l = l.
Proof.
  intros Hl. induction l as [|y l IH]; simpl; [done|].
  rewrite (Hl y) by left. f_equal. apply IH. intros z Hz. apply Hl. by right.
Qed.

(** What a completed account delete leaves, collection by collection: the
    posts of other users; the profiles without the first one of the user;
    the users without the first record under the id. *)
Lemma without_account_collections (uid : string) (d : db) :
  posts (without_account uid d)
  = List.filter (λ p, negb (String.eqb (post_user p) uid)) (posts d)
  ∧ (∀ before p behind,
       profiles d = (before ++ p :: behind)%list → owned_by uid p = true →
       (∀ q, q ∈ before → owned_by uid q = false) →
       profiles (without_account uid d) = (before ++ behind)%list)
  ∧ ((∀ q, q ∈ profiles d → owned_by uid q = false) →
     profiles (without_account uid d) = profiles d)
  ∧ (∀ before u behind,
       users d = (before ++ u :: behind)%list → user_id u = uid →
       (∀ v, v ∈ before → user_id v ≠ uid) →
       users (without_account uid d) = (before ++ behind)%list)
  ∧ ((∀ v, v ∈ users d → user_id v ≠ uid) →
     users (without_account uid d) = users d).
Proof.
  simpl. split_and!.
  - done.
  - intros before p behind -> Hp Hb. by apply remove_first_split.
  - intros Hn. by apply remove_first_none.
  - intros before u behind -> Hu Hb. apply remove_first_split.
    + by apply String.eqb_eq.
    + intros v Hv. apply String.eqb_neq. by apply Hb.
  - intros Hn. apply remove_first_none. intros v Hv.
    apply String.eqb_neq. by apply Hn.
Qed.

(** C1. The account delete awaits the removal of the posts, then that of
    the profile, then that of the user, each started only once the one
    before has finished: however the request ends, the store calls it has
    logged are an initial part of that sequence; and when no call rejects,
    all three have run, the answer is the success message and the store
    has lost the posts of the user, the profile and the user record: the
    posts left are exactly the posts of other users, the profiles are the
    profiles without the first one of the user, the users are the users
    without the first record under the id, and a collection that holds
    nothing of the user is left as it was. *)
Theorem delete_account_in_order (w : world) (uid : string) :
  (∃ n, log (delete_account uid w).2
        = (log w ++ take n (completed (cascade uid)))%list)
  ∧ (no_faults w →
     ∃ w', delete_account uid w = (Ok (json 200 (Msg "User deleted")), w')
       ∧ log w' = (log w ++ completed (cascade uid))%list
       ∧ answers (delete_account uid) w (json 200 (Msg "User deleted"))
           (without_account uid (store w)) (cascade uid)
       ∧ (∀ p, p ∈ posts (store w') → post_user p ≠ uid)
       ∧ posts (store w')
         = List.filter (λ p, negb (String.eqb (post_user p) uid))
             (posts (store w))
       ∧ (∀ before p behind,
            profiles (store w) = (before ++ p :: behind)%list →
            owned_by uid p = true →
            (∀ q, q ∈ before → owned_by uid q = false) →
            profiles (store w') = (before ++ behind)%list)
       ∧ ((∀ q, q ∈ profiles (store w) → owned_by uid q = false) →
          profiles (store w') = profiles (store w))
       ∧ (∀ before u behind,
            users (store w) = (before ++ u :: behind)%list →
            user_id u = uid →
            (∀ v, v ∈ before → user_id v ≠ uid) →
            users (store w') = (before ++ behind)%list)
       ∧ ((∀ v, v ∈ users (store w) → user_id v ≠ uid) →
          users (store w') = users (store w))).
Proof.
  split.
  - unfold delete_account, try_catch. rewrite run_bind.
    unfold Post_deleteMany.
    match goal with |- context [await ?o ?f ?w0] =>
      destruct (await_cases o f w0) as [(w' & -> & _ & Hl)| ->] end.
    { exists 1. simpl. by rewrite Hl. }
    rewrite run_bind. unfold Profile_findOneAndRemove.
    match goal with |- context [await ?o ?f ?w0] =>
      destruct (await_cases o f w0) as [(w' & -> & _ & Hl)| ->] end.
    { exists 3. simpl. rewrite Hl. simpl. by rewrite <- app_assoc. }
    rewrite run_bind. unfold User_findOneAndRemove.
    match goal with |- context [await ?o ?f ?w0] =>
      destruct (await_cases o f w0) as [(w' & -> & _ & Hl)| ->] end.
    { exists 5. simpl. rewrite Hl. simpl. by rewrite <- !app_assoc. }
    exists 6. simpl. by rewrite <- !app_assoc.
  - intros Hq.
    assert (∃ w', delete_account uid w
                  = (Ok (json 200 (Msg "User deleted")), w')
                  ∧ store w' = without_account uid (store w)
                  ∧ log w' = (log w ++ completed (cascade uid))%list)
      as (w' & Hrun & Hs & Hl).
    { unfold delete_account, try_catch. rewrite run_bind.
      unfold Post_deleteMany. rewrite await_ok by done.
      rewrite run_bind. unfold Profile_findOneAndRemove.
      rewrite await_ok by by apply after_no_faults.
      rewrite run_bind. unfold User_findOneAndRemove.
      rewrite await_ok by by do 2 apply after_no_faults.
      eexists. split; [reflexivity|]. simpl. split; [done|].
      by rewrite <- !app_assoc. }
    destruct (without_account_collections uid (store w))
      as (H1 & H2 & H3 & H4 & H5).
    exists w'. rewrite Hs. split_and!; try done.
    + by exists w'.
    + apply without_account_posts.
Qed.

(** ** The profiles collection *)

Lemma lookup_profile_Some (uid : string) (d : db) (p : Profile) :
  lookup_profile uid d = Some p → owned_by uid p = true ∧ p ∈ profiles d.
Proof.
  unfold lookup_profile. intros H. apply find_some in H as [Hin Ho].
  split; [done | by apply list_elem_of_In].
Qed.

Lemma lookup_write_profile (uid : string) (d : db) (p p' : Profile) :
  lookup_profile uid d = Some p → profile_id p' = profile_id p →
  owned_by uid p' = true →
  lookup_profile uid (write_profile p' d) = Some p'.
Proof.
  unfold lookup_profile, write_profile, has_profile_id. simpl.
  intros H Hid Ho.
  induction (profiles d) as [|q ps IH]; simpl in *; [done|].
  destruct (owned_by uid q) eqn:Hq.
  - injection H as ->. rewrite Hid, String.eqb_refl. by rewrite Ho.
  - destruct (String.eqb (profile_id q) (profile_id p')).
    + by rewrite Ho.
    + rewrite Hq. by apply IH.
Qed.

Lemma write_profile_frame (p : Profile) (d : db) :
  users (write_profile p d) = users d
  ∧ posts (write_profile p d) = posts d
  ∧ map profile_id (profiles (write_profile p d)) = map profile_id (profiles d)
  ∧ ∀ q, q ∈ profiles (write_profile p d) → profile_id q ≠ profile_id p →
         q ∈ profiles d.
Proof.
  unfold write_profile, has_profile_id. simpl. split_and!; try done.
  - induction (profiles d) as [|q ps IH]; simpl; [done|]. rewrite IH. f_equal.
    destruct (String.eqb_spec (profile_id q) (profile_id p)); done.
  - intros q Hq Hne. apply list_elem_of_In, in_map_iff in Hq as (q' & Hq & Hin).
    destruct (String.eqb (profile_id q') (profile_id p)); subst; [done|].
    by apply list_elem_of_In.
Qed.

Lemma Profile_findOne_ok (uid : string) (w : world) :
  no_faults w →
  Profile_findOne uid w
  = (Ok (lookup_profile uid (store w)), after (ProfileFindOne uid) (store w) w).
Proof. intros Hq. unfold Profile_findOne. by rewrite await_ok. Qed.

Lemma check_passes (field message : string) (body : gmap string string) :
  isEmpty (body !! field) = false → check field message body = [].
Proof. intros H. unfold check. by rewrite H. Qed.

Lemma new_Entry_run (gen_oid : nat → string) (data : gmap string string)
    (w : world) :
  new_Entry gen_oid data w
  = (Ok {| entry_id := gen_oid (next_oid w); entry_data := data |},
     {| store := store w; log := log w; faults := faults w;
        next_oid := S (next_oid w) |}).
Proof. reflexivity. Qed.

Section EntryProperties.

Variable gen_oid : nat → string.

(** Adding an entry to an existing profile puts it, under a fresh id, at
    position 0 of the sequence and saves the profile. *)
Lemma add_experience_prepends (w : world) (uid : string)
    (body : gmap string string) (p : Profile) :
  no_faults w → experience_valid body →
  lookup_profile uid (store w) = Some p →
  let e := {| entry_id := gen_oid (next_oid w);
              entry_data := newExp_of body |} in
  let p' := set_experience (e :: experience p) p in
  answers (add_experience gen_oid uid body) w (json 200 (JProfile p'))
    (write_profile p' (store w))
    [ProfileFindOne uid; ProfileSave (profile_id p)]
  ∧ experience p' !! 0 = Some e
  ∧ lookup_profile uid (write_profile p' (store w)) = Some p'.
Proof.
  intros Hq (Ht & Hc & Hf) Hp e p'.
  destruct (lookup_profile_Some _ _ _ Hp) as [Ho _].
  split_and!; [|done|by eapply lookup_write_profile].
  unfold answers, add_experience. rewrite !check_passes by done. simpl.
  unfold try_catch. rewrite run_bind, Profile_findOne_ok, Hp by done.
  simpl. rewrite run_ret_bind, run_bind, new_Entry_run, run_bind.
  unfold Profile_save. rewrite await_ok by by apply after_no_faults.
  eexists. split; [reflexivity|]. simpl. split; [done|].
  by rewrite <- app_assoc.
Qed.

Lemma add_education_prepends (w : world) (uid : string)
    (body : gmap string string) (p : Profile) :
  no_faults w → education_valid body →
  lookup_profile uid (store w) = Some p →
  let e := {| entry_id := gen_oid (next_oid w);
              entry_data := newEdu_of body |} in
  let p' := set_education (e :: education p) p in
  answers (add_education gen_oid uid body) w (json 200 (JProfile p'))
    (write_profile p' (store w))
    [ProfileFindOne uid; ProfileSave (profile_id p)]
  ∧ education p' !! 0 = Some e
  ∧ lookup_profile uid (write_profile p' (store w)) = Some p'.
Proof.
  intros Hq (Hs & Hd & Hfs & Hf) Hp e p'.
  destruct (lookup_profile_Some _ _ _ Hp) as [Ho _].
  split_and!; [|done|by eapply lookup_write_profile].
  unfold answers, add_education. rewrite !check_passes by done. simpl.
  unfold try_catch. rewrite run_bind, Profile_findOne_ok, Hp by done.
  simpl. rewrite run_ret_bind, run_bind, new_Entry_run, run_bind.
  unfold Profile_save. rewrite await_ok by by apply after_no_faults.
  eexists. split; [reflexivity|]. simpl. split; [done|].
  by rewrite <- app_assoc.
Qed.

(** Without a profile the entry routes read a member of null: the
    TypeError lands in the catch block, which answers 500. *)
Lemma add_experience_no_profile (w : world) (uid : string)
    (body : gmap string string) :
  no_faults w → experience_valid body →
  lookup_profile uid (store w) = None →
  answers (add_experience gen_oid uid body) w ServerError (store w)
    [ProfileFindOne uid].
Proof.
  intros Hq (Ht & Hc & Hf) Hp.
  unfold answers, add_experience. rewrite !check_passes by done. simpl.
  unfold try_catch. rewrite run_bind, Profile_findOne_ok, Hp by done.
  simpl. eexists. split; [reflexivity|]. done.
Qed.

Lemma add_education_no_profile (w : world) (uid : string)
    (body : gmap string string) :
  no_faults w → education_valid body →
  lookup_profile uid (store w) = None →
  answers (add_education gen_oid uid body) w ServerError (store w)
    [ProfileFindOne uid].
Proof.
  intros Hq (Hs & Hd & Hfs & Hf) Hp.
  unfold answers, add_education. rewrite !check_passes by done. simpl.
  unfold try_catch. rewrite run_bind, Profile_findOne_ok, Hp by done.
  simpl. eexists. split; [reflexivity|]. done.
Qed.

(** C8. Removing an experience or an education entry from an existing
    profile: when no entry has the given id, the answer is the profile as
    it was loaded, the store is as it was and nothing is saved; when an
    entry has it, the first such entry is taken out of its sequence, the
    entries before and behind it staying in their order and every other
    member of the profile staying as it was, and the profile is saved and
    returned without it; users, posts and the other profiles are not
    touched. *)
Theorem remove_entry_idempotent (w : world) (uid eid : string) (p : Profile) :
  no_faults w → lookup_profile uid (store w) = Some p →
  ((eid ∉ map entry_id (experience p) →
      answers (remove_experience uid eid) w (json 200 (JProfile p)) (store w)
        [ProfileFindOne uid])
   ∧ (eid ∈ map entry_id (experience p) →
      ∃ before e behind,
        experience p = (before ++ e :: behind)%list
        ∧ entry_id e = eid ∧ (eid ∉ map entry_id before)
        ∧ let p' := {| profile_id := profile_id p; fields := fields p;
                       experience := (before ++ behind)%list;
                       education := education p |} in
          ∃ w', remove_experience uid eid w = (Ok (json 200 (JProfile p')), w')
            ∧ log w' = (log w ++ completed [ProfileFindOne uid;
                                            ProfileSave (profile_id p)])%list
            ∧ lookup_profile uid (store w') = Some p'
            ∧ users (store w') = users (store w)
            ∧ posts (store w') = posts (store w)
            ∧ map profile_id (profiles (store w'))
              = map profile_id (profiles (store w))
            ∧ ∀ q, q ∈ profiles (store w') → profile_id q ≠ profile_id p →
                   q ∈ profiles (store w)))
  ∧ ((eid ∉ map entry_id (education p) →
      answers (remove_education uid eid) w (json 200 (JProfile p)) (store w)
        [ProfileFindOne uid])
   ∧ (eid ∈ map entry_id (education p) →
      ∃ before e behind,
        education p = (before ++ e :: behind)%list
        ∧ entry_id e = eid ∧ (eid ∉ map entry_id before)
        ∧ let p' := {| profile_id := profile_id p; fields := fields p;
                       experience := experience p;
                       education := (before ++ behind)%list |} in
          ∃ w', remove_education uid eid w = (Ok (json 200 (JProfile p')), w')
            ∧ log w' = (log w ++ completed [ProfileFindOne uid;
                                            ProfileSave (profile_id p)])%list
            ∧ lookup_profile uid (store w') = Some p'
            ∧ users (store w') = users (store w)
            ∧ posts (store w') = posts (store w)
            ∧ map profile_id (profiles (store w'))
              = map profile_id (profiles (store w))
            ∧ ∀ q, q ∈ profiles (store w') → profile_id q ≠ profile_id p →
                   q ∈ profiles (store w))).
Proof.
  intros Hq Hp. destruct (lookup_profile_Some _ _ _ Hp) as [Ho _].
  split; split.
  - intros Hin. unfold answers, remove_experience, try_catch.
    rewrite run_bind, Profile_findOne_ok, Hp by done. simpl.
    rewrite run_ret_bind, (proj2 (indexOf_absent _ _) Hin), run_ret_bind.
    eexists. split; [reflexivity|]. done.
  - intros Hin.
    destruct (splice1_indexOf entry_id eid _ Hin)
      as (before & e & behind & Hl & He & Hn & Hi & Hs).
    exists before, e, behind. split_and!; try done.
    cbv zeta.
    set (p' := {| profile_id := profile_id p; fields := fields p;
                  experience := (before ++ behind)%list;
                  education := education p |}).
    destruct (write_profile_frame p' (store w)) as (F1 & F2 & F3 & F4).
    eexists. split_and!.
    + unfold remove_experience, try_catch.
      rewrite run_bind, Profile_findOne_ok, Hp by done. simpl.
      rewrite run_ret_bind, Hi, Hs. rewrite !run_bind. unfold Profile_save.
      rewrite await_ok by by apply after_no_faults.
      reflexivity.
    + simpl. by rewrite <- app_assoc.
    + simpl. by apply (lookup_write_profile uid _ p).
    + done.
    + done.
    + done.
    + done.
  - intros Hin. unfold answers, remove_education, try_catch.
    rewrite run_bind, Profile_findOne_ok, Hp by done. simpl.
    rewrite run_ret_bind, (proj2 (indexOf_absent _ _) Hin), run_ret_bind.
    eexists. split; [reflexivity|]. done.
  - intros Hin.
    destruct (splice1_indexOf entry_id eid _ Hin)
      as (before & e & behind & Hl & He & Hn & Hi & Hs).
    exists before, e, behind. split_and!; try done.
    cbv zeta.
    set (p' := {| profile_id := profile_id p; fields := fields p;
                  experience := experience p;
                  education := (before ++ behind)%list |}).
    destruct (write_profile_frame p' (store w)) as (F1 & F2 & F3 & F4).
    eexists. split_and!.
    + unfold remove_education, try_catch.
      rewrite run_bind, Profile_findOne_ok, Hp by done. simpl.
      rewrite run_ret_bind, Hi, Hs. rewrite !run_bind. unfold Profile_save.
      rewrite await_ok by by apply after_no_faults.
      reflexivity.
    + simpl. by rewrite <- app_assoc.
    + simpl. by apply (lookup_write_profile uid _ p).
    + done.
    + done.
    + done.
    + done.
Qed.

End EntryProperties.

(** ** The upsert route *)

Lemma lookup_assign_if_truthy {V} (k k' : string) (v : option string)
    (wrap : string → V) (obj : gmap string V) :
  assign_if_truthy k v wrap obj !! k'
  = if decide (k = k')
    then (if truthy v then wrap <$> v else obj !! k')
    else obj !! k'.
Proof.
  unfold assign_if_truthy. destruct v as [s|]; simpl.
  - destruct (negb (String.eqb s "")); case_decide; subst; try done.
    + by rewrite lookup_insert_eq.
    + by rewrite lookup_insert_ne.
  - by case_decide.
Qed.

Lemma profileFields_social (uid : string) (body : gmap string string) :
  profileFields_of uid body !! "social" = Some (VObj (social_of body)).
Proof. unfold profileFields_of. by rewrite lookup_insert_eq. Qed.

Lemma profileFields_user (uid : string) (body : gmap string string) :
  profileFields_of uid body !! "user" = Some (VStr uid).
Proof.
  unfold profileFields_of. rewrite lookup_insert_ne by done.
  rewrite !lookup_assign_if_truthy. repeat (case_decide; [done|]).
  by rewrite lookup_insert_eq.
Qed.

(** A top-level member is in [profileFields] exactly when it is truthy. *)
Lemma profileFields_top (uid k : string) (body : gmap string string) :
  k ∈ top_level_names →
  profileFields_of uid body !! k
  = if truthy (body !! k) then top_level_value k <$> body !! k else None.
Proof.
  unfold top_level_names, profileFields_of. intros Hk.
  repeat (apply elem_of_cons in Hk as [->|Hk]);
    [..|by apply elem_of_nil in Hk];
    rewrite lookup_insert_ne by done;
    rewrite !lookup_assign_if_truthy;
    repeat (first [rewrite decide_True by done | rewrite decide_False by done]);
    destruct (truthy _); try done;
    by rewrite lookup_insert_ne, lookup_empty.
Qed.

Lemma profileFields_other (uid k : string) (body : gmap string string) :
  k ∉ "user" :: "social" :: top_level_names →
  profileFields_of uid body !! k = None.
Proof.
  unfold top_level_names, profileFields_of. intros Hk.
  rewrite !not_elem_of_cons in Hk.
  destruct Hk as (? & ? & ? & ? & ? & ? & ? & ? & ? & _).
  rewrite lookup_insert_ne by done.
  rewrite !lookup_assign_if_truthy.
  repeat (case_decide; [done|]).
  by rewrite lookup_insert_ne, lookup_empty.
Qed.

(** [social] holds exactly the truthy social members of the body. *)
Lemma social_of_lookup (name : string) (body : gmap string string) :
  social_of body !! name
  = if bool_decide (name ∈ social_names) && truthy (body !! name)
    then body !! name else None.
Proof.
  unfold social_of. rewrite !lookup_assign_if_truthy, lookup_empty.
  destruct (decide (name ∈ social_names)) as [Hin|Hn].
  - rewrite bool_decide_eq_true_2 by done. unfold social_names in Hin. simpl.
    repeat (apply elem_of_cons in Hin as [->|Hin]);
      [..|by apply elem_of_nil in Hin];
      repeat (first [rewrite decide_True by done | rewrite decide_False by done]);
      rewrite option_fmap_id; by destruct (truthy _).
  - rewrite bool_decide_eq_false_2 by done. simpl.
    unfold social_names in Hn. rewrite !not_elem_of_cons in Hn.
    destruct Hn as (? & ? & ? & ? & ? & _).
    repeat case_decide; by subst.
Qed.

Lemma apply_set_lookup (upd : gmap string value) (p : Profile) (k : string) :
  fields (apply_set upd p) !! k
  = match upd !! k with
    | Some v => Some v
    | None => fields p !! k
    end.
Proof.
  unfold apply_set. simpl. rewrite lookup_union.
  destruct (upd !! k), (fields p !! k); done.
Qed.

Lemma owned_by_apply_set (uid : string) (body : gmap string string)
    (p : Profile) :
  owned_by uid (apply_set (profileFields_of uid body) p) = true.
Proof.
  unfold owned_by. rewrite apply_set_lookup, profileFields_user.
  apply String.eqb_refl.
Qed.

Lemma lookup_update_first (uid : string) (f : Profile → Profile) (d : db)
    (p : Profile) :
  lookup_profile uid d = Some p → owned_by uid (f p) = true →
  lookup_profile uid
    (set_profiles (update_first (owned_by uid) f (profiles d)) d)
  = Some (f p).
Proof.
  unfold lookup_profile. simpl. intros H Ho.
  induction (profiles d) as [|q ps IH]; simpl in *; [done|].
  destruct (owned_by uid q) eqn:Hq; simpl.
  - injection H as ->. by rewrite Ho.
  - rewrite Hq. by apply IH.
Qed.

Section UpsertProperties.

Variable gen_oid : nat → string.

(** The store an upsert leaves for a user that has a profile: the store
    it found, or that store with the update applied to the profile. *)
Lemma upsert_profile_store (w : world) (uid : string)
    (body : gmap string string) (p : Profile) :
  lookup_profile uid (store w) = Some p →
  store (upsert_profile gen_oid uid body w).2 = store w
  ∨ store (upsert_profile gen_oid uid body w).2
    = set_profiles
        (update_first (owned_by uid) (apply_set (profileFields_of uid body))
           (profiles (store w))) (store w).
Proof.
  intros Hp. unfold upsert_profile.
  destruct (negb (bool_decide _)); [by left|].
  unfold try_catch. rewrite run_bind. unfold Profile_findOne.
  match goal with |- context [await ?o ?f ?w0] =>
    destruct (await_cases o f w0) as [(w' & -> & Hs & _)| ->] end;
    [by left|].
  simpl. rewrite Hp, run_bind. unfold Profile_findOneAndUpdate.
  match goal with |- context [await ?o ?f ?w0] =>
    destruct (await_cases o f w0) as [(w' & -> & Hs & _)| ->] end.
  - left. simpl in *. by rewrite Hs.
  - right. simpl. by rewrite Hp.
Qed.

(** The run of an upsert that finds a profile, passes validation and
    meets no rejected store call. *)
Lemma upsert_existing_run (w : world) (uid : string)
    (body : gmap string string) (p : Profile) :
  no_faults w → upsert_valid body →
  lookup_profile uid (store w) = Some p →
  let upd := profileFields_of uid body in
  let d' := set_profiles
              (update_first (owned_by uid) (apply_set upd) (profiles (store w)))
              (store w) in
  answers (upsert_profile gen_oid uid body) w
    (json 200 (JProfile (apply_set upd p))) d'
    [ProfileFindOne uid; ProfileFindOneAndUpdate uid]
  ∧ lookup_profile uid d' = Some (apply_set upd p).
Proof.
  intros Hq [Hst Hsk] Hp upd d'. split.
  - unfold answers, upsert_profile. rewrite !check_passes by done. simpl.
    unfold try_catch. rewrite run_bind, Profile_findOne_ok, Hp by done.
    rewrite run_bind. unfold Profile_findOneAndUpdate.
    rewrite await_ok by by apply after_no_faults.
    simpl. rewrite Hp. simpl.
    eexists. split; [reflexivity|]. simpl. split; [reflexivity|].
    by rewrite <- app_assoc.
  - apply lookup_update_first; [done | apply owned_by_apply_set].
Qed.

(** An upsert for a user without a profile makes one, under a fresh id, of
    the fields built from the body and saves it. *)
Lemma upsert_creates_profile (w : world) (uid : string)
    (body : gmap string string) :
  no_faults w → upsert_valid body →
  lookup_profile uid (store w) = None →
  let p := {| profile_id := gen_oid (next_oid w);
              fields := profileFields_of uid body;
              experience := []; education := [] |} in
  answers (upsert_profile gen_oid uid body) w (json 200 (JProfile p))
    (insert_profile p (store w))
    [ProfileFindOne uid; ProfileSave (profile_id p)].
Proof.
  intros Hq [Hst Hsk] Hp p.
  unfold answers, upsert_profile. rewrite !check_passes by done. simpl.
  unfold try_catch. rewrite run_bind, Profile_findOne_ok, Hp by done.
  rewrite run_bind. unfold new_Profile. rewrite run_bind. simpl.
  rewrite run_bind. unfold Profile_save_new.
  match goal with |- context [await ?o ?f ?w0] =>
    rewrite (await_ok o f w0)
      by exact (after_no_faults (ProfileFindOne uid) (store w) w Hq) end.
  eexists. split; [reflexivity|]. simpl. split; [done|].
  by rewrite <- app_assoc.
Qed.

(** C2, as the code has it. An upsert for a user that has a profile,
    with a body that passes validation and no store call rejecting,
    updates that one profile and answers with it: a top-level member
    that is truthy in the body replaces the stored one, every other
    top-level member keeps its stored value, and [social] is replaced as
    a whole by the truthy social members of the body, so that a social
    link the body omits is not kept. *)
Theorem upsert_existing_profile (w : world) (uid : string)
    (body : gmap string string) (p : Profile) :
  no_faults w → upsert_valid body →
  lookup_profile uid (store w) = Some p →
  let p' := apply_set (profileFields_of uid body) p in
  let d' := set_profiles
              (update_first (owned_by uid)
                 (apply_set (profileFields_of uid body)) (profiles (store w)))
              (store w) in
  answers (upsert_profile gen_oid uid body) w (json 200 (JProfile p')) d'
    [ProfileFindOne uid; ProfileFindOneAndUpdate uid]
  ∧ lookup_profile uid d' = Some p'
  ∧ profile_id p' = profile_id p
  ∧ experience p' = experience p ∧ education p' = education p
  ∧ (∀ k, k ∈ top_level_names →
       fields p' !! k
       = if truthy (body !! k) then top_level_value k <$> body !! k
         else fields p !! k)
  ∧ (∀ k, k ∉ "user" :: "social" :: top_level_names →
       fields p' !! k = fields p !! k)
  ∧ (∀ name,
       social_link name p'
       = if bool_decide (name ∈ social_names) && truthy (body !! name)
         then body !! name else None).
Proof.
  intros Hq Hv Hp p' d'.
  destruct (upsert_existing_run w uid body p Hq Hv Hp) as [Hrun Hl].
  split_and!; try done.
  - intros k Hk. subst p'.
    rewrite apply_set_lookup, profileFields_top by done.
    destruct (truthy (body !! k)) eqn:Ht; [|done].
    by destruct (body !! k).
  - intros k Hk. subst p'. by rewrite apply_set_lookup, profileFields_other.
  - intros name. unfold social_link. subst p'.
    rewrite apply_set_lookup, profileFields_social.
    apply social_of_lookup.
Qed.

(** C10, as the code has it. For a user that has a profile, a top-level
    member of the body that is falsy is not applied: whatever else the
    request does and however it ends, the stored value of that member is
    the one from before.  A social link that is falsy in the body is not
    stored either, and since [social] is replaced as a whole the link the
    profile had is gone after the update. *)
Theorem upsert_falsy_member (w : world) (uid k : string)
    (body : gmap string string) (p : Profile) :
  lookup_profile uid (store w) = Some p →
  truthy (body !! k) = false →
  let d' := store (upsert_profile gen_oid uid body w).2 in
  (k ∈ top_level_names →
     ∃ p', lookup_profile uid d' = Some p' ∧ fields p' !! k = fields p !! k)
  ∧ (k ∈ social_names → no_faults w → upsert_valid body →
     ∃ p', lookup_profile uid d' = Some p' ∧ social_link k p' = None).
Proof.
  intros Hp Hk d'. split.
  - intros Hin. subst d'.
    destruct (upsert_profile_store w uid body p Hp) as [-> | ->].
    + by exists p.
    + exists (apply_set (profileFields_of uid body) p). split.
      * apply lookup_update_first; [done | apply owned_by_apply_set].
      * by rewrite apply_set_lookup, profileFields_top, Hk.
  - intros Hin Hq Hv.
    destruct (upsert_existing_run w uid body p Hq Hv Hp)
      as [(w' & Hrun & Hd & _) Hl].
    exists (apply_set (profileFields_of uid body) p).
    subst d'. rewrite Hrun. simpl. rewrite Hd. split; [done|].
    unfold social_link.
    rewrite apply_set_lookup, profileFields_social, social_of_lookup, Hk.
    by rewrite andb_false_r.
Qed.

End UpsertProperties.

(** ** The GitHub route *)

Section GithubProperties.

Variable JSON_parse : string → option jsonv.
Variables githubid githubsecret : string.

(** The request asks for pages of five and sorts by [created:asc]. *)
Lemma github_uri_query (username : string) :
  uri (github_options githubid githubsecret username)
  = "https://api.github.com/users/" ++ username
    ++ "/repos?per_page=5&sort=created:asc&client_id=" ++ githubid
    ++ "&client_secret=" ++ githubsecret.
Proof. reflexivity. Qed.

(** An upstream answer other than 200 becomes the 404 of the route. *)
Lemma github_not_found (net : request_options → upstream)
    (username : string) (code : nat) (text : string) :
  net (github_options githubid githubsecret username) = Reply code text →
  code ≠ 200 →
  github_repos JSON_parse githubid githubsecret net username
  = Ok (json 404 (Msg "No github profile found")).
Proof.
  intros Hn Hc. unfold github_repos. rewrite Hn. simpl.
  apply Nat.eqb_neq in Hc. by rewrite Hc.
Qed.

(** A 200 whose body parses is relayed as parsed. *)
Lemma github_relays (net : request_options → upstream)
    (username text : string) (parsed : jsonv) :
  net (github_options githubid githubsecret username) = Reply 200 text →
  JSON_parse text = Some parsed →
  github_repos JSON_parse githubid githubsecret net username
  = Ok (json 200 (JValue parsed)).
Proof. intros Hn Hj. unfold github_repos. rewrite Hn. simpl. by rewrite Hj. Qed.

(** C4, where the code departs from it. When the transport fails the
    callback logs the error and goes on to read [statusCode] of an
    undefined response: a TypeError thrown outside every [try], so the
    route sends no response at all, neither an upstream error nor any
    other. *)
Theorem github_transport_error_uncaught (username e : string) :
  github_repos JSON_parse githubid githubsecret (λ _, TransportError e)
    username
  = Throw TypeError.
Proof. reflexivity. Qed.

End GithubProperties.

(** The route with the network down, with an upstream 404, and with an
    upstream 200 carrying an empty array. *)
Example github_on_samples :
  github_repos parse_sample "id" "secret" network_down "octocat"
  = Throw TypeError
  ∧ github_repos parse_sample "id" "secret" (λ _, Reply 404 "{}") "nobody"
    = Ok (json 404 (Msg "No github profile found"))
  ∧ github_repos parse_sample "id" "secret" (λ _, Reply 200 "[]") "octocat"
    = Ok (json 200 (JValue (JArray []))).
Proof. by split_and!. Qed.

(** ** The routes on the sample store *)

Lemma sample_world_no_faults : no_faults sample_world.
Proof. constructor. Qed.

(** C3, where the code departs from it. Carol has no profile.  Adding an
    experience or an education entry for her, with a body that passes
    validation, is answered with the 500 of the catch block and not with a
    not-found error; the store is left as it was. *)
Theorem add_entry_without_profile :
  lookup_profile carol sample_db = None
  ∧ answers (add_experience oid_of_counter carol exp_body) sample_world
      ServerError sample_db [ProfileFindOne carol]
  ∧ answers (add_education oid_of_counter carol edu_body) sample_world
      ServerError sample_db [ProfileFindOne carol].
Proof.
  split_and!.
  - reflexivity.
  - apply add_experience_no_profile;
      [apply sample_world_no_faults | by vm_compute | reflexivity].
  - apply add_education_no_profile;
      [apply sample_world_no_faults | by vm_compute | reflexivity].
Qed.

(** The claim C2 fails on the code. Alice's profile has a twitter link and
    the body leaves [twitter] out; the profile the upsert answers with, and
    the one it leaves in the store, have no twitter link any more. *)
Lemma upsert_drops_omitted_social_link :
  body_without_twitter !! "twitter" = None
  ∧ social_link "twitter" <$> lookup_profile alice (store sample_world)
    = Some (Some "https://twitter.com/alice")
  ∧ social_link "twitter"
      <$> returned_profile
            (upsert_profile oid_of_counter alice body_without_twitter
               sample_world).1
    = Some None
  ∧ social_link "twitter"
      <$> lookup_profile alice
            (store (upsert_profile oid_of_counter alice body_without_twitter
                      sample_world).2)
    = Some None.
Proof. split_and!; by vm_compute. Qed.

(** The claim C10 fails on the code. The body sends [twitter] as the empty
    string; the twitter link Alice's profile had is not left unchanged: it
    is gone from the profile the upsert answers with and from the store. *)
Lemma upsert_clears_social_link_sent_empty :
  body_with_empty_twitter !! "twitter" = Some ""
  ∧ social_link "twitter" <$> lookup_profile alice (store sample_world)
    = Some (Some "https://twitter.com/alice")
  ∧ social_link "twitter"
      <$> returned_profile
            (upsert_profile oid_of_counter alice body_with_empty_twitter
               sample_world).1
    = Some None
  ∧ social_link "twitter"
      <$> lookup_profile alice
            (store (upsert_profile oid_of_counter alice
                      body_with_empty_twitter sample_world).2)
    = Some None.
Proof. split_and!; by vm_compute. Qed.

(** ** The theorems at work on the sample store *)

Lemma sample_likes_unique : likes_unique sample_db.
Proof.
  intros p Hp. simpl in Hp.
  repeat (apply elem_of_cons in Hp as [->|Hp]); [..|by apply elem_of_nil in Hp];
    simpl.
  - apply NoDup_singleton.
  - apply NoDup_nil_2.
Qed.

(** Deleting Alice's account on the sample store: her post, her profile
    and her record are gone, Bob's post and record are what is left. *)
Lemma delete_account_in_order_witness :
  no_faults sample_world
  ∧ ∃ w', delete_account alice sample_world
          = (Ok (json 200 (Msg "User deleted")), w')
     ∧ log w' = completed (cascade alice)
     ∧ posts (store w') = [post_b]
     ∧ profiles (store w') = []
     ∧ users (store w')
       = [ {| user_id := bob; user_name := "Bob"; user_avatar := "b.png" |} ].
Proof.
  split; [apply sample_world_no_faults|].
  destruct (proj2 (delete_account_in_order sample_world alice)
              sample_world_no_faults)
    as (w' & Hrun & Hl & _ & _ & Hposts & Hprofiles & _ & Husers & _).
  exists w'. split_and!.
  - exact Hrun.
  - exact Hl.
  - exact Hposts.
  - apply (Hprofiles [] profile_alice []); [reflexivity|reflexivity|].
    intros q Hq. by apply elem_of_nil in Hq.
  - apply (Husers []
             {| user_id := alice; user_name := "Alice"; user_avatar := "a.png" |}
             [ {| user_id := bob; user_name := "Bob"; user_avatar := "b.png" |} ]);
      [reflexivity|reflexivity|].
    intros v Hv. by apply elem_of_nil in Hv.
Defined.

(** Alice, who has a profile, sends an upsert that leaves [twitter] out. *)
Lemma upsert_existing_profile_witness :
  no_faults sample_world ∧ upsert_valid body_without_twitter
  ∧ lookup_profile alice (store sample_world) = Some profile_alice
  ∧ ∀ name,
      social_link name
        (apply_set (profileFields_of alice body_without_twitter) profile_alice)
      = if bool_decide (name ∈ social_names)
           && truthy (body_without_twitter !! name)
        then body_without_twitter !! name else None.
Proof.
  assert (upsert_valid body_without_twitter) as Hv by (by vm_compute).
  assert (lookup_profile alice (store sample_world) = Some profile_alice)
    as Hp by reflexivity.
  split_and!; [apply sample_world_no_faults | done | done |].
  apply (upsert_existing_profile oid_of_counter sample_world alice
           body_without_twitter profile_alice sample_world_no_faults Hv Hp).
Defined.

(** Bob has liked Alice's post and likes it again; Alice has not and
    likes it. *)
Lemma like_post_guarded_witness :
  (bob ∈ map like_user (post_likes post_a)
   ∧ answers (like_post hex24 bob (post_id post_a)) sample_world AlreadyLiked
       sample_db [PostFindById (post_id post_a)])
  ∧ ((alice ∉ map like_user (post_likes post_a))
     ∧ answers (like_post hex24 alice (post_id post_a)) sample_world
         (json 200 (JLikes [ {| like_user := alice |}; {| like_user := bob |} ]))
         (write_post
            (set_likes [ {| like_user := alice |}; {| like_user := bob |} ] post_a)
            sample_db)
         [PostFindById (post_id post_a); PostSave (post_id post_a)]).
Proof.
  assert (hex24 (post_id post_a) = true) as Hv by reflexivity.
  assert (lookup_post (post_id post_a) (store sample_world) = Some post_a)
    as Hp by reflexivity.
  assert (bob ∈ map like_user (post_likes post_a)) as Hin by (simpl; left).
  assert (alice ∉ map like_user (post_likes post_a)) as Hout
    by (simpl; by apply not_elem_of_cons; split; [|apply not_elem_of_nil]).
  split; (split; [done|]).
  - exact (proj1 (like_post_guarded hex24 sample_world bob (post_id post_a)
                    post_a sample_world_no_faults Hv Hp) Hin).
  - exact (proj1 (proj2 (like_post_guarded hex24 sample_world alice
                           (post_id post_a) post_a sample_world_no_faults
                           Hv Hp) Hout)).
Defined.

(** Alice has not liked her post and unlikes it; Bob has and unlikes it. *)
Lemma unlike_post_guarded_witness :
  ((alice ∉ map like_user (post_likes post_a))
   ∧ answers (unlike_post hex24 alice (post_id post_a)) sample_world NotLiked
       sample_db [PostFindById (post_id post_a)])
  ∧ (bob ∈ map like_user (post_likes post_a)
     ∧ ∃ before like behind,
         post_likes post_a = (before ++ like :: behind)%list
         ∧ like_user like = bob
         ∧ (bob ∉ map like_user before)
         ∧ answers (unlike_post hex24 bob (post_id post_a)) sample_world
             (json 200 (JLikes (before ++ behind)))
             (write_post (set_likes (before ++ behind) post_a) sample_db)
             [PostFindById (post_id post_a); PostSave (post_id post_a)]
           ∧ lookup_post (post_id post_a)
               (write_post (set_likes (before ++ behind) post_a) sample_db)
             = Some (set_likes (before ++ behind) post_a)).
Proof.
  assert (hex24 (post_id post_a) = true) as Hv by reflexivity.
  assert (lookup_post (post_id post_a) (store sample_world) = Some post_a)
    as Hp by reflexivity.
  assert (bob ∈ map like_user (post_likes post_a)) as Hin by (simpl; left).
  assert (alice ∉ map like_user (post_likes post_a)) as Hout
    by (simpl; by apply not_elem_of_cons; split; [|apply not_elem_of_nil]).
  split; (split; [done|]).
  - exact (proj1 (unlike_post_guarded hex24 sample_world alice (post_id post_a)
                    post_a sample_world_no_faults Hv Hp) Hout).
  - exact (proj2 (unlike_post_guarded hex24 sample_world bob (post_id post_a)
                    post_a sample_world_no_faults Hv Hp) Hin).
Defined.

(** Bob tries to delete Alice's post; Alice deletes it; somebody asks for a
    post that is not there. *)
Lemma delete_post_owner_only_witness :
  (post_user post_a ≠ bob
   ∧ answers (delete_post hex24 bob (post_id post_a)) sample_world Forbidden
       sample_db [PostFindById (post_id post_a)])
  ∧ (post_user post_a = alice
     ∧ answers (delete_post hex24 alice (post_id post_a)) sample_world
         (json 200 (Msg "Post removed")) (drop_post post_a sample_db)
         [PostFindById (post_id post_a); PostRemove (post_id post_a)])
  ∧ (lookup_post "not-an-object-id" sample_db = None
     ∧ ∃ w', delete_post hex24 alice "not-an-object-id" sample_world
             = (Ok PostNotFound, w')
             ∧ store w' = sample_db).
Proof.
  assert (hex24 (post_id post_a) = true) as Hv by reflexivity.
  assert (lookup_post (post_id post_a) (store sample_world) = Some post_a)
    as Hp by reflexivity.
  assert (post_user post_a ≠ bob) as Hne by (by vm_compute).
  split_and!; try done.
  - exact (proj1 (proj1 (proj2 (delete_post_owner_only hex24 sample_world bob
                                  (post_id post_a) sample_world_no_faults)
                           post_a Hv Hp) Hne)).
  - exact (proj1 (proj2 (proj2 (delete_post_owner_only hex24 sample_world alice
                                  (post_id post_a) sample_world_no_faults)
                           post_a Hv Hp) eq_refl)).
  - exact (proj1 (delete_post_owner_only hex24 sample_world alice
                    "not-an-object-id" sample_world_no_faults) eq_refl).
Defined.

(** Alice removes an experience entry that is not there, and her one
    education entry, which leaves her education empty. *)
Lemma remove_entry_idempotent_witness :
  (("5d7a514b5d2c12c7449be0ee" ∉ map entry_id (experience profile_alice))
   ∧ answers (remove_experience alice "5d7a514b5d2c12c7449be0ee") sample_world
       (json 200 (JProfile profile_alice)) sample_db [ProfileFindOne alice])
  ∧ (entry_id edu_1 ∈ map entry_id (education profile_alice)
     ∧ ∃ w', remove_education alice (entry_id edu_1) sample_world
             = (Ok (json 200
                      (JProfile {| profile_id := profile_id profile_alice;
                                   fields := fields profile_alice;
                                   experience := [exp_1];
                                   education := [] |})), w')
        ∧ lookup_profile alice (store w')
          = Some {| profile_id := profile_id profile_alice;
                    fields := fields profile_alice;
                    experience := [exp_1]; education := [] |})
  ∧ (entry_id exp_1 ∈ map entry_id (experience profile_alice)
     ∧ ∃ w', remove_experience alice (entry_id exp_1) sample_world
             = (Ok (json 200
                      (JProfile {| profile_id := profile_id profile_alice;
                                   fields := fields profile_alice;
                                   experience := [];
                                   education := [edu_1] |})), w')
        ∧ lookup_profile alice (store w')
          = Some {| profile_id := profile_id profile_alice;
                    fields := fields profile_alice;
                    experience := []; education := [edu_1] |}).
Proof.
  assert (lookup_profile alice (store sample_world) = Some profile_alice)
    as Hp by reflexivity.
  assert ("5d7a514b5d2c12c7449be0ee" ∉ map entry_id (experience profile_alice))
    as Hout
    by (simpl; by apply not_elem_of_cons; split; [|apply not_elem_of_nil]).
  assert (entry_id edu_1 ∈ map entry_id (education profile_alice)) as Hin
    by (simpl; left).
  assert (entry_id exp_1 ∈ map entry_id (experience profile_alice)) as Hin'
    by (simpl; left).
  split; [|split]; (split; [done|]).
  - exact (proj1 (proj1 (remove_entry_idempotent sample_world alice _
                           profile_alice sample_world_no_faults Hp)) Hout).
  - destruct (proj2 (proj2 (remove_entry_idempotent sample_world alice _
                              profile_alice sample_world_no_faults Hp)) Hin)
      as (before & e & behind & Hl & _ & _ & w' & Hrun & _ & Hlook & _).
    assert (before = [] ∧ behind = []) as [-> ->].
    { simpl in Hl. destruct before as [|b before]; simpl in Hl.
      - by injection Hl as _ <-.
      - injection Hl as _ Hl. by destruct before. }
    exists w'. split; [exact Hrun | exact Hlook].
  - destruct (proj2 (proj1 (remove_entry_idempotent sample_world alice _
                              profile_alice sample_world_no_faults Hp)) Hin')
      as (before & e & behind & Hl & _ & _ & w' & Hrun & _ & Hlook & _).
    assert (before = [] ∧ behind = []) as [-> ->].
    { simpl in Hl. destruct before as [|b before]; simpl in Hl.
      - by injection Hl as _ <-.
      - injection Hl as _ Hl. by destruct before. }
    exists w'. split; [exact Hrun | exact Hlook].
Defined.

(** The sample store has no duplicate likes, and keeps none when Alice
    likes her post or Bob unlikes it. *)
Lemma likes_unique_preserved_witness :
  likes_unique sample_db
  ∧ likes_unique (store (like_post hex24 alice (post_id post_a) sample_world).2)
  ∧ likes_unique (store (unlike_post hex24 bob (post_id post_a) sample_world).2).
Proof.
  split; [apply sample_likes_unique|].
  split.
  - exact (proj1 (likes_unique_preserved hex24 sample_world alice
                    (post_id post_a) sample_likes_unique)).
  - exact (proj2 (likes_unique_preserved hex24 sample_world bob
                    (post_id post_a) sample_likes_unique)).
Defined.

(** Alice sends [company] and [twitter] as empty strings. *)
Lemma upsert_falsy_member_witness :
  (truthy (body_with_empty_twitter !! "company") = false
   ∧ ∃ p', lookup_profile alice
             (store (upsert_profile oid_of_counter alice
                       body_with_empty_twitter sample_world).2) = Some p'
           ∧ fields p' !! "company" = fields profile_alice !! "company")
  ∧ (truthy (body_with_empty_twitter !! "twitter") = false
     ∧ ∃ p', lookup_profile alice
               (store (upsert_profile oid_of_counter alice
                         body_with_empty_twitter sample_world).2) = Some p'
             ∧ social_link "twitter" p' = None).
Proof.
  assert (lookup_profile alice (store sample_world) = Some profile_alice)
    as Hp by reflexivity.
  assert (upsert_valid body_with_empty_twitter) as Hv by (by vm_compute).
  assert ("company" ∈ top_level_names) as Hc by (unfold top_level_names; left).
  assert ("twitter" ∈ social_names) as Ht
    by (unfold social_names; right; left).
  split; (split; [reflexivity|]).
  - exact (proj1 (upsert_falsy_member oid_of_counter sample_world alice
                    "company" body_with_empty_twitter profile_alice Hp eq_refl)
             Hc).
  - exact (proj2 (upsert_falsy_member oid_of_counter sample_world alice
                    "twitter" body_with_empty_twitter profile_alice Hp eq_refl)
             Ht sample_world_no_faults Hv).
Defined.

(** * Further properties of the post routes *)

Lemma set_likes_same (p : Post) (ls : list Like) :
  set_likes (post_likes p) (set_likes ls p) = p.
Proof. by destruct p. Qed.

Lemma write_post_frame (p : Post) (d : db) :
  users (write_post p d) = users d
  ∧ profiles (write_post p d) = profiles d
  ∧ map post_id (posts (write_post p d)) = map post_id (posts d)
  ∧ ∀ q, q ∈ posts (write_post p d) → post_id q ≠ post_id p → q ∈ posts d.
Proof.
  unfold write_post, has_post_id. simpl. split_and!; try done.
  - induction (posts d) as [|q ps IH]; simpl; [done|]. rewrite IH. f_equal.
    destruct (String.eqb_spec (post_id q) (post_id p)); done.
  - intros q Hq Hne. apply list_elem_of_In, in_map_iff in Hq as (q' & Hq & Hin).
    destruct (String.eqb (post_id q') (post_id p)); subst; [done|].
    by apply list_elem_of_In.
Qed.

Section FurtherPostProperties.

Variable valid_oid : string → bool.
Variable gen_oid : nat → string.

(** The run of a like that goes through, and of one that is refused. *)
Lemma like_post_run (w : world) (uid pid : string) (post : Post) :
  no_faults w → valid_oid pid = true →
  lookup_post pid (store w) = Some post →
  uid ∉ map like_user (post_likes post) →
  like_post valid_oid uid pid w
  = (Ok (json 200 (JLikes ({| like_user := uid |} :: post_likes post))),
     after (PostSave pid)
       (write_post
          (set_likes ({| like_user := uid |} :: post_likes post) post)
          (store w))
       (after (PostFindById pid) (store w) w)).
Proof.
  intros Hq Hv Hp Hin. destruct (lookup_post_Some _ _ _ Hp) as [Hid _].
  unfold like_post, try_catch. rewrite run_bind.
  rewrite Post_findById_ok, Hp by done. simpl.
  destruct (Nat.ltb 0 _) eqn:Hl.
  { apply already_liked_iff in Hl. done. }
  rewrite run_bind. unfold Post_save.
  rewrite await_ok by by apply after_no_faults.
  simpl. by rewrite Hid.
Qed.

Lemma like_post_run_liked (w : world) (uid pid : string) (post : Post) :
  no_faults w → valid_oid pid = true →
  lookup_post pid (store w) = Some post →
  uid ∈ map like_user (post_likes post) →
  like_post valid_oid uid pid w
  = (Ok AlreadyLiked, after (PostFindById pid) (store w) w).
Proof.
  intros Hq Hv Hp Hin.
  unfold like_post, try_catch. rewrite run_bind.
  rewrite Post_findById_ok, Hp by done. simpl.
  apply already_liked_iff in Hin. by rewrite Hin.
Qed.

(** The run of an unlike by the user whose like is the first of the post. *)
Lemma unlike_post_run_front (w : world) (uid pid : string) (post : Post)
    (rest : list Like) :
  no_faults w → valid_oid pid = true →
  lookup_post pid (store w) = Some post →
  post_likes post = {| like_user := uid |} :: rest →
  unlike_post valid_oid uid pid w
  = (Ok (json 200 (JLikes rest)),
     after (PostSave pid) (write_post (set_likes rest post) (store w))
       (after (PostFindById pid) (store w) w)).
Proof.
  intros Hq Hv Hp Hl. destruct (lookup_post_Some _ _ _ Hp) as [Hid _].
  unfold unlike_post, try_catch. rewrite run_bind.
  rewrite Post_findById_ok, Hp by done. simpl.
  rewrite Hl. simpl. rewrite String.eqb_refl. simpl.
  unfold splice1. simpl. rewrite drop_0.
  rewrite run_bind. unfold Post_save.
  rewrite await_ok by by apply after_no_faults.
  simpl. by rewrite Hid.
Qed.

(** X1. A malformed post id never reaches the store: the four post routes
    that take an id answer 404 at once and leave the world, its store, its
    log and its fault plan, exactly as it was. *)
Theorem post_routes_malformed_id (w : world) (uid pid : string) :
  valid_oid pid = false →
  get_post valid_oid pid w = (Ok PostNotFound, w)
  ∧ delete_post valid_oid uid pid w = (Ok PostNotFound, w)
  ∧ like_post valid_oid uid pid w = (Ok PostNotFound, w)
  ∧ unlike_post valid_oid uid pid w = (Ok PostNotFound, w).
Proof.
  intros Hv.
  unfold get_post, delete_post, like_post, unlike_post, try_catch.
  rewrite !run_bind, Post_findById_malformed by done. done.
Qed.

(** X2. The writing post routes fail closed: whatever the fault plan and
    the request, they answer (no exception escapes), and an answer other
    than 200 means the store is as it was. *)
Theorem post_routes_fail_closed (w : world) (uid pid : string) :
  (∃ r, (like_post valid_oid uid pid w).1 = Ok r
        ∧ (status r ≠ 200 → store (like_post valid_oid uid pid w).2 = store w))
  ∧ (∃ r, (unlike_post valid_oid uid pid w).1 = Ok r
        ∧ (status r ≠ 200 → store (unlike_post valid_oid uid pid w).2 = store w))
  ∧ (∃ r, (delete_post valid_oid uid pid w).1 = Ok r
        ∧ (status r ≠ 200 → store (delete_post valid_oid uid pid w).2 = store w)).
Proof.
  split_and!.
  - unfold like_post, try_catch. rewrite run_bind. unfold Post_findById.
    destruct (valid_oid pid); [|by eexists].
    destruct (await_cases (PostFindById pid) (λ d, (lookup_post pid d, d)) w)
      as [(w' & -> & Hs & _)| ->]; [by eexists|].
    simpl. destruct (lookup_post pid (store w)) as [post|]; [|by eexists].
    destruct (Nat.ltb 0 _); [by eexists|].
    rewrite run_bind. unfold Post_save.
    match goal with |- context [await ?o ?f ?w0] =>
      destruct (await_cases o f w0) as [(w' & -> & Hs & _)| ->] end.
    + eexists. split; [done|]. intros _. simpl in *. by rewrite Hs.
    + by eexists.
  - unfold unlike_post, try_catch. rewrite run_bind. unfold Post_findById.
    destruct (valid_oid pid); [|by eexists].
    destruct (await_cases (PostFindById pid) (λ d, (lookup_post pid d, d)) w)
      as [(w' & -> & Hs & _)| ->]; [by eexists|].
    simpl. destruct (lookup_post pid (store w)) as [post|]; [|by eexists].
    destruct (0 <=? _)%Z; [|by eexists].
    rewrite run_bind. unfold Post_save.
    match goal with |- context [await ?o ?f ?w0] =>
      destruct (await_cases o f w0) as [(w' & -> & Hs & _)| ->] end.
    + eexists. split; [done|]. intros _. simpl in *. by rewrite Hs.
    + by eexists.
  - unfold delete_post, try_catch. rewrite run_bind. unfold Post_findById.
    destruct (valid_oid pid); [|by eexists].
    destruct (await_cases (PostFindById pid) (λ d, (lookup_post pid d, d)) w)
      as [(w' & -> & Hs & _)| ->]; [by eexists|].
    simpl. destruct (lookup_post pid (store w)) as [post|]; [|by eexists].
    destruct (negb _); [by eexists|].
    rewrite run_bind. unfold Post_remove.
    match goal with |- context [await ?o ?f ?w0] =>
      destruct (await_cases o f w0) as [(w' & -> & Hs & _)| ->] end.
    + eexists. split; [done|]. intros _. simpl in *. by rewrite Hs.
    + by eexists.
Qed.

(** X3. A like followed by the unlike of the same user is a round trip:
    the unlike answers with the likes the post had before, and the post in
    the store is again the post it was. *)
Theorem like_then_unlike_restores (w : world) (uid pid : string) (post : Post) :
  no_faults w → valid_oid pid = true →
  lookup_post pid (store w) = Some post →
  uid ∉ map like_user (post_likes post) →
  let w1 := (like_post valid_oid uid pid w).2 in
  (unlike_post valid_oid uid pid w1).1 = Ok (json 200 (JLikes (post_likes post)))
  ∧ lookup_post pid (store (unlike_post valid_oid uid pid w1).2) = Some post.
Proof.
  intros Hq Hv Hp Hin w1. subst w1.
  destruct (lookup_post_Some _ _ _ Hp) as [Hid _].
  rewrite (like_post_run w uid pid post) by done. simpl.
  set (post' := set_likes ({| like_user := uid |} :: post_likes post) post).
  assert (lookup_post pid (write_post post' (store w)) = Some post') as Hp'
    by by eapply lookup_write_post.
  rewrite (unlike_post_run_front _ uid pid post' (post_likes post));
    [|by do 2 apply after_no_faults|done|done|done].
  simpl. split; [done|].
  replace (set_likes (post_likes post) post') with post
    by (symmetry; apply set_likes_same).
  by eapply lookup_write_post.
Qed.

(** X4. A second like by the same user is refused: after a like that went
    through, the same request answers AlreadyLiked and leaves the store, the
    single like in it, as the first like left it. *)
Theorem like_twice_refused (w : world) (uid pid : string) (post : Post) :
  no_faults w → valid_oid pid = true →
  lookup_post pid (store w) = Some post →
  uid ∉ map like_user (post_likes post) →
  let w1 := (like_post valid_oid uid pid w).2 in
  (like_post valid_oid uid pid w1).1 = Ok AlreadyLiked
  ∧ store (like_post valid_oid uid pid w1).2 = store w1
  ∧ lookup_post pid (store w1)
    = Some (set_likes ({| like_user := uid |} :: post_likes post) post).
Proof.
  intros Hq Hv Hp Hin w1. subst w1.
  destruct (lookup_post_Some _ _ _ Hp) as [Hid _].
  rewrite (like_post_run w uid pid post) by done. simpl.
  set (post' := set_likes ({| like_user := uid |} :: post_likes post) post).
  assert (lookup_post pid (write_post post' (store w)) = Some post') as Hp'
    by by eapply lookup_write_post.
  rewrite (like_post_run_liked _ uid pid post');
    [done|by do 2 apply after_no_faults|done|done|simpl; left].
Qed.

(** X5. A like and an unlike touch nothing but the post they name: however
    the request ends, the users and the profiles are as they were, the
    posts collection holds the same ids in the same order, and every post
    with another id is a post the store already had. *)
Theorem like_unlike_frame (w : world) (uid pid : string) :
  (let d' := store (like_post valid_oid uid pid w).2 in
   users d' = users (store w) ∧ profiles d' = profiles (store w)
   ∧ map post_id (posts d') = map post_id (posts (store w))
   ∧ ∀ q, q ∈ posts d' → post_id q ≠ pid → q ∈ posts (store w))
  ∧ (let d' := store (unlike_post valid_oid uid pid w).2 in
     users d' = users (store w) ∧ profiles d' = profiles (store w)
     ∧ map post_id (posts d') = map post_id (posts (store w))
     ∧ ∀ q, q ∈ posts d' → post_id q ≠ pid → q ∈ posts (store w)).
Proof.
  split; cbv zeta.
  - destruct (like_post_store valid_oid w uid pid) as [->|(post & Hp & _ & ->)];
      [done|].
    destruct (lookup_post_Some _ _ _ Hp) as [Hid _].
    destruct (write_post_frame
                (set_likes ({| like_user := uid |} :: post_likes post) post)
                (store w)) as (H1 & H2 & H3 & H4).
    split_and!; try done. intros q Hq Hne. apply H4; [done|]. simpl.
    by rewrite Hid.
  - destruct (unlike_post_store valid_oid w uid pid)
      as [->|(post & before & like & behind & Hp & _ & ->)]; [done|].
    destruct (lookup_post_Some _ _ _ Hp) as [Hid _].
    destruct (write_post_frame (set_likes (before ++ behind) post) (store w))
      as (H1 & H2 & H3 & H4).
    split_and!; try done. intros q Hq Hne. apply H4; [done|]. simpl.
    by rewrite Hid.
Qed.

End FurtherPostProperties.

Lemma await_quiet_ok {A} (f : db → A * db) (w : world) :
  no_faults w →
  await_quiet f w
  = (Ok (f (store w)).1,
     set_store (f (store w)).2 (set_faults (tail (faults w)) w)).
Proof.
  unfold no_faults, await_quiet. intros Hq.
  destruct (faults w) as [|[] fs] eqn:Hf.
  - by destruct (f (store w)) as [a d].
  - by inversion Hq.
  - by destruct (f (store w)) as [a d].
Qed.

Lemma await_quiet_cases {A} (f : db → A * db) (w : world) :
  (∃ w', await_quiet f w = (Throw StoreError, w') ∧ store w' = store w)
  ∨ await_quiet f w
    = (Ok (f (store w)).1,
       set_store (f (store w)).2 (set_faults (tail (faults w)) w)).
Proof.
  unfold await_quiet.
  destruct (faults w) as [|[] fs] eqn:Hf.
  - right. by destruct (f (store w)) as [a d].
  - left. by eexists.
  - right. by destruct (f (store w)) as [a d].
Qed.

Lemma tail_no_faults (w : world) (d : db) :
  no_faults w → no_faults (set_store d (set_faults (tail (faults w)) w)).
Proof.
  unfold no_faults. simpl. intros Hq.
  destruct (faults w); [done|]. by inversion Hq.
Qed.

Lemma lookup_insert_post (p : Post) (d : db) :
  lookup_post (post_id p) d = None →
  lookup_post (post_id p) (insert_post p d) = Some p.
Proof.
  unfold lookup_post, insert_post, has_post_id. simpl. intros Hn.
  induction (posts d) as [|q ps IH]; simpl in *.
  - by rewrite String.eqb_refl.
  - destruct (String.eqb (post_id q) (post_id p)); [done|]. by apply IH.
Qed.

Lemma drop_insert_post (p : Post) (d : db) :
  lookup_post (post_id p) d = None →
  posts (drop_post p (insert_post p d)) = posts d.
Proof.
  unfold lookup_post, drop_post, insert_post, has_post_id. simpl. intros Hn.
  induction (posts d) as [|q ps IH]; simpl in *.
  - by rewrite String.eqb_refl.
  - destruct (String.eqb (post_id q) (post_id p)); [done|]. simpl.
    f_equal. by apply IH.
Qed.

Section CreatePostProperties.

Variable valid_oid : string → bool.
Variable gen_oid : nat → string.

(** The run of a post creation that goes through. *)
Lemma create_post_run (w : world) (uid text : string)
    (body : gmap string string) (u : User) :
  no_faults w → body !! "text" = Some text → text ≠ "" →
  lookup_user uid (store w) = Some u →
  let p := {| post_id := gen_oid (next_oid w); post_text := text;
              post_name := user_name u; post_avatar := user_avatar u;
              post_user := uid; post_likes := [] |} in
  ∃ w', create_post gen_oid uid body w
        = (Ok (json 200 (JValue (json_of_post p))), w')
        ∧ store w' = insert_post p (store w) ∧ no_faults w'.
Proof.
  intros Hq Ht Hne Hu p.
  unfold create_post, check. rewrite Ht. simpl.
  apply String.eqb_neq in Hne. rewrite Hne. simpl.
  unfold try_catch. rewrite run_bind. unfold User_findById.
  rewrite await_quiet_ok by done. simpl. rewrite Hu. simpl.
  rewrite run_ret_bind, run_bind. unfold new_Post.
  rewrite run_bind. simpl. rewrite run_bind. unfold Post_save_new.
  match goal with |- context [await ?o ?f ?w0] =>
    rewrite (await_ok o f w0) by exact (tail_no_faults w (store w) Hq) end.
  eexists. split; [reflexivity|]. simpl. split; [done|].
  unfold no_faults in *. simpl.
  destruct (faults w) as [|b [|b' fs]]; simpl; try done.
  inversion Hq as [|? ? _ Hq']. by inversion Hq'.
Qed.

(** X6. A post route that only reads: fetching a post never changes the
    store, however the request ends; and right after a like that went
    through it answers the post as it was, member by member, except that
    its likes now start with the like of that user, the older likes
    following in their order. *)
Theorem get_post_reads_the_like (w : world) (uid pid : string) (post : Post) :
  store (get_post valid_oid pid w).2 = store w
  ∧ (no_faults w → valid_oid pid = true →
     lookup_post pid (store w) = Some post →
     uid ∉ map like_user (post_likes post) →
     let w1 := (like_post valid_oid uid pid w).2 in
     (get_post valid_oid pid w1).1
     = Ok (json 200
             (JValue
                (JObject
                   [("_id", JString (post_id post));
                    ("text", JString (post_text post));
                    ("name", JString (post_name post));
                    ("avatar", JString (post_avatar post));
                    ("user", JString (post_user post));
                    ("likes",
                     JArray
                       (JObject [("user", JString uid)]
                        :: map (λ l, JObject [("user", JString (like_user l))])
                             (post_likes post)))])))).
Proof.
  split.
  - unfold get_post, try_catch. rewrite run_bind. unfold Post_findById.
    destruct (valid_oid pid); [|done].
    destruct (await_cases (PostFindById pid) (λ d, (lookup_post pid d, d)) w)
      as [(w' & -> & Hs & _)| ->]; [done|].
    simpl. by destruct (lookup_post pid (store w)).
  - intros Hq Hv Hp Hin w1. subst w1.
    destruct (lookup_post_Some _ _ _ Hp) as [Hid _].
    rewrite (like_post_run valid_oid w uid pid post) by done. simpl.
    unfold get_post, try_catch. rewrite run_bind.
    rewrite Post_findById_ok; [|done|by do 2 apply after_no_faults]. simpl.
    by erewrite lookup_write_post.
Qed.

(** X7. A post without text is refused before anything else happens: the
    answer is 400 with the one message, and the world is exactly as it
    was, no store call made, no id drawn. *)
Theorem create_post_requires_text (w : world) (uid : string)
    (body : gmap string string) :
  isEmpty (body !! "text") = true →
  create_post gen_oid uid body w
  = (Ok (json 400 (Errors [ {| msg := "Text is required"; param := "text" |} ])),
     w).
Proof. intros He. unfold create_post, check. by rewrite He. Qed.

(** X8. A created post can be fetched back: it has the text of the
    request, the name and the avatar the user record has at that moment,
    the requesting user as owner and no likes, and [get_post] on its id
    answers it. The id the generator hands out must be a well-formed one
    that no stored post has. *)
Theorem create_then_get_post (w : world) (uid text : string)
    (body : gmap string string) (u : User) :
  no_faults w → body !! "text" = Some text → text ≠ "" →
  lookup_user uid (store w) = Some u →
  valid_oid (gen_oid (next_oid w)) = true →
  lookup_post (gen_oid (next_oid w)) (store w) = None →
  let p := {| post_id := gen_oid (next_oid w); post_text := text;
              post_name := user_name u; post_avatar := user_avatar u;
              post_user := uid; post_likes := [] |} in
  (create_post gen_oid uid body w).1 = Ok (json 200 (JValue (json_of_post p)))
  ∧ (get_post valid_oid (post_id p) (create_post gen_oid uid body w).2).1
    = Ok (json 200 (JValue (json_of_post p))).
Proof.
  intros Hq Ht Hne Hu Hv Hfresh p.
  destruct (create_post_run w uid text body u Hq Ht Hne Hu)
    as (w' & Hrun & Hs & Hq').
  fold p in Hrun, Hs. rewrite Hrun. simpl. split; [done|].
  unfold get_post, try_catch. rewrite run_bind.
  rewrite Post_findById_ok by done. simpl.
  pose proof (lookup_insert_post p (store w) Hfresh) as Hl. simpl in Hl.
  by rewrite Hs, Hl.
Qed.

(** X9. Creating a post and deleting it again is a round trip on the posts
    collection: when the owner deletes the post just created, the answer is
    the success message and the posts are the posts from before. *)
Theorem create_then_delete_post (w : world) (uid text : string)
    (body : gmap string string) (u : User) :
  no_faults w → body !! "text" = Some text → text ≠ "" →
  lookup_user uid (store w) = Some u →
  valid_oid (gen_oid (next_oid w)) = true →
  lookup_post (gen_oid (next_oid w)) (store w) = None →
  let w1 := (create_post gen_oid uid body w).2 in
  let w2 := (delete_post valid_oid uid (gen_oid (next_oid w)) w1).2 in
  (delete_post valid_oid uid (gen_oid (next_oid w)) w1).1
  = Ok (json 200 (Msg "Post removed"))
  ∧ posts (store w2) = posts (store w)
  ∧ users (store w2) = users (store w)
  ∧ profiles (store w2) = profiles (store w).
Proof.
  intros Hq Ht Hne Hu Hv Hfresh w1 w2. subst w2 w1.
  destruct (create_post_run w uid text body u Hq Ht Hne Hu)
    as (w' & Hrun & Hs & Hq').
  set (p := {| post_id := gen_oid (next_oid w); post_text := text;
               post_name := user_name u; post_avatar := user_avatar u;
               post_user := uid; post_likes := [] |}) in *.
  rewrite Hrun. simpl.
  unfold delete_post, try_catch. rewrite run_bind.
  rewrite Post_findById_ok by done. simpl.
  pose proof (lookup_insert_post p (store w) Hfresh) as Hl. simpl in Hl.
  rewrite Hs, Hl. simpl. rewrite String.eqb_refl. simpl.
  rewrite run_bind. unfold Post_remove.
  rewrite await_ok by by apply after_no_faults.
  simpl. split_and!; try done.
  exact (drop_insert_post p (store w) Hfresh).
Qed.

Lemma create_post_without_user (w : world) (uid : string)
    (body : gmap string string) :
  no_faults w → isEmpty (body !! "text") = false →
  lookup_user uid (store w) = None →
  create_post gen_oid uid body w
  = (Ok ServerError, set_store (store w) (set_faults (tail (faults w)) w)).
Proof.
  intros Hq Ht Hu. unfold create_post. rewrite check_passes by done. simpl.
  unfold try_catch. rewrite run_bind. unfold User_findById.
  rewrite await_quiet_ok by done. simpl. by rewrite Hu.
Qed.

(** X10. A post cannot be created for a user whose record is gone: the
    route reads [name] of null, the catch block answers 500, and nothing is
    stored. *)
Theorem create_post_user_gone (w : world) (uid : string)
    (body : gmap string string) :
  no_faults w → isEmpty (body !! "text") = false →
  lookup_user uid (store w) = None →
  (create_post gen_oid uid body w).1 = Ok ServerError
  ∧ store (create_post gen_oid uid body w).2 = store w.
Proof.
  intros Hq Ht Hu. unfold create_post. rewrite check_passes by done. simpl.
  unfold try_catch. rewrite run_bind. unfold User_findById.
  rewrite await_quiet_ok by done. simpl. by rewrite Hu.
Qed.

End CreatePostProperties.

(** * Further properties of the profile routes *)

Lemma lookup_insert_profile (uid : string) (p : Profile) (d : db) :
  lookup_profile uid d = None → owned_by uid p = true →
  lookup_profile uid (insert_profile p d) = Some p.
Proof.
  unfold lookup_profile, insert_profile. simpl. intros Hn Ho.
  induction (profiles d) as [|q ps IH]; simpl in *.
  - by rewrite Ho.
  - destruct (owned_by uid q); [done|]. by apply IH.
Qed.

Lemma update_first_fixed (uid : string) (f : Profile → Profile) (d : db)
    (p : Profile) :
  lookup_profile uid d = Some p → f p = p →
  set_profiles (update_first (owned_by uid) f (profiles d)) d = d.
Proof.
  unfold lookup_profile. intros Hl Hf. destruct d as [us ps qs]. simpl in *.
  unfold set_profiles. simpl. f_equal.
  induction ps as [|q ps IH]; simpl in *; [done|].
  destruct (owned_by uid q).
  - injection Hl as ->. by rewrite Hf.
  - f_equal. by apply IH.
Qed.

Lemma apply_set_twice (upd : gmap string value) (p : Profile) :
  apply_set upd (apply_set upd p) = apply_set upd p.
Proof.
  unfold apply_set, set_fields. simpl. f_equal.
  by rewrite (assoc_L (∪)), (idemp_L (∪)).
Qed.

Lemma owned_by_profileFields (u uid : string) (body : gmap string string)
    (fs : gmap string value) (p : Profile) :
  fields p = profileFields_of uid body ∪ fs →
  owned_by u p = String.eqb uid u.
Proof.
  intros Hf. unfold owned_by. rewrite Hf.
  by rewrite (lookup_union_Some_l _ _ _ _ (profileFields_user uid body)).
Qed.

Lemma owned_by_eq (u uid : string) (p : Profile) :
  owned_by uid p = true → owned_by u p = String.eqb uid u.
Proof.
  unfold owned_by. destruct (fields p !! "user") as [[x| |]|]; try done.
  intros Hx. apply String.eqb_eq in Hx. by subst.
Qed.

Lemma count_owned_none (uid : string) (d : db) :
  lookup_profile uid d = None → count_owned uid d = 0.
Proof.
  unfold lookup_profile, count_owned.
  induction (profiles d) as [|q ps IH]; simpl; [done|].
  destruct (owned_by uid q); [done|]. apply IH.
Qed.

Lemma count_owned_insert (u : string) (p : Profile) (d : db) :
  count_owned u (insert_profile p d)
  = count_owned u d + (if owned_by u p then 1 else 0).
Proof.
  unfold count_owned, insert_profile. simpl.
  rewrite List.filter_app, length_app. simpl. by destruct (owned_by u p).
Qed.

Lemma count_owned_update_first (u uid : string) (f : Profile → Profile)
    (d : db) :
  (∀ p, owned_by uid p = true → owned_by u (f p) = owned_by u p) →
  count_owned u (set_profiles (update_first (owned_by uid) f (profiles d)) d)
  = count_owned u d.
Proof.
  unfold count_owned. simpl. intros Hf.
  induction (profiles d) as [|q ps IH]; simpl; [done|].
  destruct (owned_by uid q) eqn:Hq; simpl.
  - rewrite (Hf q Hq). by destruct (owned_by u q).
  - destruct (owned_by u q); simpl; by rewrite IH.
Qed.

Lemma not_upsert_valid (body : gmap string string) :
  ¬ upsert_valid body →
  (check "status" "Status is required" body
   ++ check "skills" "Skills are required" body)%list ≠ [].
Proof.
  unfold upsert_valid, check. intros Hn.
  destruct (isEmpty (body !! "status")); [done|].
  destruct (isEmpty (body !! "skills")); [done|].
  by destruct Hn.
Qed.

Lemma not_experience_valid (body : gmap string string) :
  ¬ experience_valid body →
  (check "title" "Title is required" body
   ++ check "company" "Company is required" body
   ++ check "from" "From date is required" body)%list ≠ [].
Proof.
  unfold experience_valid, check. intros Hn.
  destruct (isEmpty (body !! "title")); [done|].
  destruct (isEmpty (body !! "company")); [done|].
  destruct (isEmpty (body !! "from")); [done|].
  by destruct Hn.
Qed.

Lemma not_education_valid (body : gmap string string) :
  ¬ education_valid body →
  (check "school" "School is required" body
   ++ check "degree" "Degree is required" body
   ++ check "fieldofstudy" "Field of study is required" body
   ++ check "from" "From date is required" body)%list ≠ [].
Proof.
  unfold education_valid, check. intros Hn.
  destruct (isEmpty (body !! "school")); [done|].
  destruct (isEmpty (body !! "degree")); [done|].
  destruct (isEmpty (body !! "fieldofstudy")); [done|].
  destruct (isEmpty (body !! "from")); [done|].
  by destruct Hn.
Qed.

Section FurtherProfileProperties.

Variable gen_oid : nat → string.

(** X11. The three form routes of the profile validate before anything
    else: a body that misses a required member, or has it empty, is
    answered 400 with the messages of the failed checks in the order of the
    checks, and the world is exactly as it was: no store call is made, even
    for a user without a profile. *)
Theorem profile_routes_validate_first (w : world) (uid : string)
    (body : gmap string string) :
  (¬ upsert_valid body →
     let es := (check "status" "Status is required" body
                ++ check "skills" "Skills are required" body)%list in
     es ≠ [] ∧ upsert_profile gen_oid uid body w = (Ok (json 400 (Errors es)), w))
  ∧ (¬ experience_valid body →
     let es := (check "title" "Title is required" body
                ++ check "company" "Company is required" body
                ++ check "from" "From date is required" body)%list in
     es ≠ [] ∧ add_experience gen_oid uid body w = (Ok (json 400 (Errors es)), w))
  ∧ (¬ education_valid body →
     let es := (check "school" "School is required" body
                ++ check "degree" "Degree is required" body
                ++ check "fieldofstudy" "Field of study is required" body
                ++ check "from" "From date is required" body)%list in
     es ≠ [] ∧ add_education gen_oid uid body w = (Ok (json 400 (Errors es)), w)).
Proof.
  split_and!; intros Hn es.
  - pose proof (not_upsert_valid body Hn) as He. fold es in He.
    split; [done|]. unfold upsert_profile. fold es.
    by rewrite bool_decide_eq_false_2.
  - pose proof (not_experience_valid body Hn) as He. fold es in He.
    split; [done|]. unfold add_experience. fold es.
    by rewrite bool_decide_eq_false_2.
  - pose proof (not_education_valid body Hn) as He. fold es in He.
    split; [done|]. unfold add_education. fold es.
    by rewrite bool_decide_eq_false_2.
Qed.

End FurtherProfileProperties.

Lemma populate_user_other (d : db) (p : Profile) (k : string) :
  k ≠ "user" → fields (populate_user d p) !! k = fields p !! k.
Proof.
  intros Hk. unfold populate_user.
  destruct (fields p !! "user") as [[u| |]|]; try done.
  destruct (lookup_user u d); simpl.
  - by rewrite lookup_insert_ne.
  - by rewrite lookup_delete_ne.
Qed.

Lemma social_link_populate_user (d : db) (p : Profile) (name : string) :
  social_link name (populate_user d p) = social_link name p.
Proof. unfold social_link. by rewrite populate_user_other. Qed.

Lemma Profile_findOne_populated_ok (id : string) (w : world) :
  no_faults w →
  Profile_findOne_populated id w
  = (Ok (populate_user (store w) <$> lookup_profile id (store w)),
     after (ProfileFindOne id) (store w) w).
Proof. intros Hq. unfold Profile_findOne_populated. by rewrite await_ok. Qed.

Section UpsertCompositions.

Variable gen_oid : nat → string.

(** The run of an upsert that passes validation and meets no rejected
    store call, whether it finds a profile or makes one. *)
Lemma upsert_run (w : world) (uid : string) (body : gmap string string) :
  no_faults w → upsert_valid body →
  ∃ p w',
    upsert_profile gen_oid uid body w = (Ok (json 200 (JProfile p)), w')
    ∧ no_faults w'
    ∧ lookup_profile uid (store w') = Some p
    ∧ users (store w') = users (store w)
    ∧ fields p
      = profileFields_of uid body
        ∪ match lookup_profile uid (store w) with
          | Some p0 => fields p0
          | None => ∅
          end.
Proof.
  intros Hq [Hst Hsk].
  destruct (lookup_profile uid (store w)) as [p0|] eqn:Hp.
  - exists (apply_set (profileFields_of uid body) p0). eexists.
    split_and!.
    + unfold upsert_profile. rewrite !check_passes by done. simpl.
      unfold try_catch. rewrite run_bind, Profile_findOne_ok, Hp by done.
      rewrite run_bind. unfold Profile_findOneAndUpdate.
      rewrite await_ok by by apply after_no_faults.
      simpl. rewrite Hp. reflexivity.
    + by do 2 apply after_no_faults.
    + simpl. apply lookup_update_first; [done | apply owned_by_apply_set].
    + done.
    + done.
  - exists {| profile_id := gen_oid (next_oid w);
              fields := profileFields_of uid body;
              experience := []; education := [] |}. eexists.
    split_and!.
    + unfold upsert_profile. rewrite !check_passes by done. simpl.
      unfold try_catch. rewrite run_bind, Profile_findOne_ok, Hp by done.
      rewrite run_bind. unfold new_Profile. rewrite run_bind. simpl.
      rewrite run_bind. unfold Profile_save_new.
      match goal with |- context [await ?o ?f ?w0] =>
        rewrite (await_ok o f w0)
          by exact (after_no_faults (ProfileFindOne uid) (store w) w Hq) end.
      reflexivity.
    + unfold no_faults in *. simpl.
      destruct (faults w) as [|b [|b' fs]]; simpl; try done.
      inversion Hq as [|? ? _ Hq']. by inversion Hq'.
    + simpl. apply lookup_insert_profile; [done|]. unfold owned_by. simpl.
      rewrite profileFields_user. apply String.eqb_refl.
    + done.
    + simpl. by rewrite (right_id_L ∅ (∪)).
Qed.

(** X12. What an upsert wrote is what the user reads back: after an upsert
    that went through, for a new profile or an existing one, [GET /me]
    answers the profile of the user with every truthy top-level member of
    the body in it, with [social] holding exactly the truthy social links of
    the body, and with the user's id replaced by the user's record. *)
Theorem upsert_then_get_my_profile (w : world) (uid : string)
    (body : gmap string string) :
  no_faults w → upsert_valid body →
  let w1 := (upsert_profile gen_oid uid body w).2 in
  ∃ p, (get_my_profile uid w1).1 = Ok (json 200 (JProfile p))
    ∧ (∀ k, k ∈ top_level_names → truthy (body !! k) = true →
         fields p !! k = top_level_value k <$> body !! k)
    ∧ (∀ name,
         social_link name p
         = if bool_decide (name ∈ social_names) && truthy (body !! name)
           then body !! name else None)
    ∧ (∀ usr, lookup_user uid (store w) = Some usr →
         fields p !! "user"
         = Some (VObj {[ "_id" := user_id usr; "name" := user_name usr;
                         "avatar" := user_avatar usr ]})).
Proof.
  intros Hq Hv w1. subst w1.
  destruct (upsert_run w uid body Hq Hv) as (p & w' & -> & Hq' & Hl & Hu & Hf).
  simpl. exists (populate_user (store w') p). split_and!.
  - unfold get_my_profile, try_catch.
    rewrite run_bind, Profile_findOne_populated_ok, Hl by done. done.
  - intros k Hk Ht. rewrite populate_user_other.
    + rewrite Hf. destruct (body !! k) as [s|] eqn:Hb; [|done]. simpl.
      apply lookup_union_Some_l.
      by rewrite profileFields_top, Hb, Ht by done.
    + intros ->. unfold top_level_names in Hk.
      repeat (apply elem_of_cons in Hk as [Hk|Hk]; [done|]).
      by apply elem_of_nil in Hk.
  - intros name. rewrite social_link_populate_user. unfold social_link.
    rewrite Hf.
    rewrite (lookup_union_Some_l _ _ _ _ (profileFields_social uid body)).
    apply social_of_lookup.
  - intros usr Husr. unfold populate_user. rewrite Hf.
    rewrite (lookup_union_Some_l _ _ _ _ (profileFields_user uid body)).
    unfold lookup_user in *. rewrite Hu, Husr. simpl.
    by rewrite lookup_insert_eq.
Qed.

(** The store an upsert leaves, whatever the fault plan. *)
Lemma upsert_store_cases (w : world) (uid : string)
    (body : gmap string string) :
  store (upsert_profile gen_oid uid body w).2 = store w
  ∨ (∃ p, lookup_profile uid (store w) = Some p
        ∧ store (upsert_profile gen_oid uid body w).2
          = set_profiles
              (update_first (owned_by uid)
                 (apply_set (profileFields_of uid body)) (profiles (store w)))
              (store w))
  ∨ (lookup_profile uid (store w) = None
     ∧ ∃ id, store (upsert_profile gen_oid uid body w).2
             = insert_profile
                 {| profile_id := id; fields := profileFields_of uid body;
                    experience := []; education := [] |} (store w)).
Proof.
  destruct (lookup_profile uid (store w)) as [p|] eqn:Hp.
  - destruct (upsert_profile_store gen_oid w uid body p Hp) as [H|H];
      [by left|]. right. left. by exists p.
  - unfold upsert_profile.
    destruct (negb (bool_decide _)); [by left|].
    unfold try_catch. rewrite run_bind. unfold Profile_findOne.
    match goal with |- context [await ?o ?f ?w0] =>
      destruct (await_cases o f w0) as [(w' & -> & Hs & _)| ->] end;
      [by left|].
    simpl. rewrite Hp, run_bind. unfold new_Profile. rewrite run_bind. simpl.
    rewrite run_bind. unfold Profile_save_new.
    match goal with |- context [await ?o ?f ?w0] =>
      destruct (await_cases o f w0) as [(w' & -> & Hs & _)| ->] end.
    + left. simpl in *. by rewrite Hs.
    + right. right. split; [done|]. by eexists.
Qed.

(** X13. An upsert keeps the rule of one profile for each user: if no user
    of the store has two profiles, none has after the upsert, whatever the
    request and however it ends. *)
Theorem upsert_keeps_one_profile_each (w : world) (uid : string)
    (body : gmap string string) :
  one_profile_each (store w) →
  one_profile_each (store (upsert_profile gen_oid uid body w).2).
Proof.
  intros Hone u.
  destruct (upsert_store_cases w uid body)
    as [-> | [(p & Hp & ->) | [Hp (id & ->)]]].
  - apply Hone.
  - rewrite count_owned_update_first; [apply Hone|].
    intros q Hq. rewrite (owned_by_eq u uid q Hq).
    by rewrite (owned_by_eq u uid _ (owned_by_apply_set uid body q)).
  - rewrite count_owned_insert.
    rewrite (owned_by_profileFields u uid body ∅);
      [|simpl; by rewrite (right_id_L ∅ (∪))].
    destruct (String.eqb_spec uid u) as [<-|Hne].
    + by rewrite (count_owned_none uid _ Hp).
    + specialize (Hone u). lia.
Qed.

(** X14. An upsert is idempotent: sending the same body again answers with
    the same profile and leaves the store as the first upsert left it. *)
Theorem upsert_twice_same (w : world) (uid : string)
    (body : gmap string string) :
  no_faults w → upsert_valid body →
  let w1 := (upsert_profile gen_oid uid body w).2 in
  (upsert_profile gen_oid uid body w1).1 = (upsert_profile gen_oid uid body w).1
  ∧ store (upsert_profile gen_oid uid body w1).2 = store w1.
Proof.
  intros Hq Hv w1. subst w1.
  destruct (upsert_run w uid body Hq Hv) as (p & w' & -> & Hq' & Hl & Hu & Hf).
  simpl.
  assert (apply_set (profileFields_of uid body) p = p) as Hfix.
  { destruct p as [id fs ex ed]. unfold apply_set, set_fields. simpl in *.
    f_equal. rewrite Hf. by rewrite (assoc_L (∪)), (idemp_L (∪)). }
  destruct (upsert_existing_run gen_oid w' uid body p Hq' Hv Hl)
    as [(w2 & -> & Hs & _) _].
  simpl. rewrite Hs, Hfix. split; [done|].
  by apply (update_first_fixed uid _ _ p).
Qed.

End UpsertCompositions.

(** * Further properties of the entry routes *)

Lemma set_experience_same (p : Profile) (es : list Entry) :
  set_experience (experience p) (set_experience es p) = p.
Proof. by destruct p. Qed.

Lemma set_education_same (p : Profile) (es : list Entry) :
  set_education (education p) (set_education es p) = p.
Proof. by destruct p. Qed.

Section EntryCompositions.

Variable gen_oid : nat → string.

Lemma add_experience_run (w : world) (uid : string)
    (body : gmap string string) (p : Profile) :
  no_faults w → experience_valid body →
  lookup_profile uid (store w) = Some p →
  ∃ w', add_experience gen_oid uid body w
        = (Ok (json 200
                 (JProfile
                    (set_experience
                       ({| entry_id := gen_oid (next_oid w);
                           entry_data := newExp_of body |} :: experience p) p))),
           w')
        ∧ store w'
          = write_profile
              (set_experience
                 ({| entry_id := gen_oid (next_oid w);
                     entry_data := newExp_of body |} :: experience p) p)
              (store w)
        ∧ no_faults w'.
Proof.
  intros Hq (Ht & Hc & Hf) Hp.
  unfold add_experience. rewrite !check_passes by done. simpl.
  unfold try_catch. rewrite run_bind, Profile_findOne_ok, Hp by done.
  simpl. rewrite run_ret_bind, run_bind, new_Entry_run, run_bind.
  unfold Profile_save. rewrite await_ok by by apply after_no_faults.
  eexists. split; [reflexivity|]. simpl. split; [done|].
  unfold no_faults in *. simpl.
  destruct (faults w) as [|b [|b' fs]]; simpl; try done.
  inversion Hq as [|? ? _ Hq']. by inversion Hq'.
Qed.

Lemma add_education_run (w : world) (uid : string)
    (body : gmap string string) (p : Profile) :
  no_faults w → education_valid body →
  lookup_profile uid (store w) = Some p →
  ∃ w', add_education gen_oid uid body w
        = (Ok (json 200
                 (JProfile
                    (set_education
                       ({| entry_id := gen_oid (next_oid w);
                           entry_data := newEdu_of body |} :: education p) p))),
           w')
        ∧ store w'
          = write_profile
              (set_education
                 ({| entry_id := gen_oid (next_oid w);
                     entry_data := newEdu_of body |} :: education p) p)
              (store w)
        ∧ no_faults w'.
Proof.
  intros Hq (Hs & Hd & Hfs & Hf) Hp.
  unfold add_education. rewrite !check_passes by done. simpl.
  unfold try_catch. rewrite run_bind, Profile_findOne_ok, Hp by done.
  simpl. rewrite run_ret_bind, run_bind, new_Entry_run, run_bind.
  unfold Profile_save. rewrite await_ok by by apply after_no_faults.
  eexists. split; [reflexivity|]. simpl. split; [done|].
  unfold no_faults in *. simpl.
  destruct (faults w) as [|b [|b' fs]]; simpl; try done.
  inversion Hq as [|? ? _ Hq']. by inversion Hq'.
Qed.

(** The run of a removal of the entry that is first in its sequence. *)
Lemma remove_experience_run_front (w : world) (uid : string) (p : Profile)
    (e : Entry) (rest : list Entry) :
  no_faults w → lookup_profile uid (store w) = Some p →
  experience p = e :: rest →
  remove_experience uid (entry_id e) w
  = (Ok (json 200 (JProfile (set_experience rest p))),
     after (ProfileSave (profile_id p))
       (write_profile (set_experience rest p) (store w))
       (after (ProfileFindOne uid) (store w) w)).
Proof.
  intros Hq Hp He.
  unfold remove_experience, try_catch.
  rewrite run_bind, Profile_findOne_ok, Hp by done. simpl.
  rewrite run_ret_bind, He. simpl. rewrite String.eqb_refl. simpl.
  unfold splice1. simpl. rewrite drop_0.
  rewrite !run_bind. unfold Profile_save.
  by rewrite await_ok by by apply after_no_faults.
Qed.

Lemma remove_education_run_front (w : world) (uid : string) (p : Profile)
    (e : Entry) (rest : list Entry) :
  no_faults w → lookup_profile uid (store w) = Some p →
  education p = e :: rest →
  remove_education uid (entry_id e) w
  = (Ok (json 200 (JProfile (set_education rest p))),
     after (ProfileSave (profile_id p))
       (write_profile (set_education rest p) (store w))
       (after (ProfileFindOne uid) (store w) w)).
Proof.
  intros Hq Hp He.
  unfold remove_education, try_catch.
  rewrite run_bind, Profile_findOne_ok, Hp by done. simpl.
  rewrite run_ret_bind, He. simpl. rewrite String.eqb_refl. simpl.
  unfold splice1. simpl. rewrite drop_0.
  rewrite !run_bind. unfold Profile_save.
  by rewrite await_ok by by apply after_no_faults.
Qed.

(** X15. Adding an entry and removing it by the id it was given is a round
    trip, for experience and for education alike: the removal answers with
    the profile as it was before the addition, and that profile is what the
    store holds for the user afterwards.  No assumption on the ids of the
    older entries is needed: the new entry is first, and the first entry
    with the id is the one removed. *)
Theorem add_then_remove_entry (w : world) (uid : string)
    (body : gmap string string) (p : Profile) :
  no_faults w → lookup_profile uid (store w) = Some p →
  (experience_valid body →
     let w1 := (add_experience gen_oid uid body w).2 in
     let eid := gen_oid (next_oid w) in
     (remove_experience uid eid w1).1 = Ok (json 200 (JProfile p))
     ∧ lookup_profile uid (store (remove_experience uid eid w1).2) = Some p)
  ∧ (education_valid body →
     let w1 := (add_education gen_oid uid body w).2 in
     let eid := gen_oid (next_oid w) in
     (remove_education uid eid w1).1 = Ok (json 200 (JProfile p))
     ∧ lookup_profile uid (store (remove_education uid eid w1).2) = Some p).
Proof.
  intros Hq Hp. destruct (lookup_profile_Some _ _ _ Hp) as [Ho _].
  split; intros Hv w1 eid; subst w1 eid.
  - destruct (add_experience_run w uid body p Hq Hv Hp)
      as (w' & -> & Hs & Hq').
    set (e := {| entry_id := gen_oid (next_oid w);
                 entry_data := newExp_of body |}) in *.
    set (p' := set_experience (e :: experience p) p) in *.
    assert (lookup_profile uid (store w') = Some p') as Hp'
      by (rewrite Hs; by eapply lookup_write_profile).
    simpl.
    pose proof (remove_experience_run_front w' uid p' e (experience p) Hq' Hp' eq_refl)
      as Hr.
    change (entry_id e) with (gen_oid (next_oid w)) in Hr. rewrite Hr.
    simpl. replace (set_experience (experience p) p') with p
      by (symmetry; apply set_experience_same).
    split; [done|]. by eapply lookup_write_profile.
  - destruct (add_education_run w uid body p Hq Hv Hp)
      as (w' & -> & Hs & Hq').
    set (e := {| entry_id := gen_oid (next_oid w);
                 entry_data := newEdu_of body |}) in *.
    set (p' := set_education (e :: education p) p) in *.
    assert (lookup_profile uid (store w') = Some p') as Hp'
      by (rewrite Hs; by eapply lookup_write_profile).
    simpl.
    pose proof (remove_education_run_front w' uid p' e (education p) Hq' Hp' eq_refl)
      as Hr.
    change (entry_id e) with (gen_oid (next_oid w)) in Hr. rewrite Hr.
    simpl. replace (set_education (education p) p') with p
      by (symmetry; apply set_education_same).
    split; [done|]. by eapply lookup_write_profile.
Qed.

(** The members of the object an add route builds from the body. *)
Lemma pick_lookup (keys : list string) (body : gmap string string)
    (k : string) :
  pick keys body !! k = if bool_decide (k ∈ keys) then body !! k else None.
Proof.
  unfold pick. induction keys as [|k' keys IH]; cbn [foldr].
  - rewrite bool_decide_eq_false_2 by apply not_elem_of_nil. done.
  - destruct (decide (k = k')) as [->|Hne].
    + rewrite bool_decide_eq_true_2 by left.
      destruct (body !! k') eqn:Hb.
      * by rewrite lookup_insert_eq.
      * rewrite IH. by case_bool_decide.
    + assert (bool_decide (k ∈ k' :: keys) = bool_decide (k ∈ keys)) as ->.
      { apply bool_decide_ext. rewrite elem_of_cons. tauto. }
      destruct (body !! k'); [by rewrite lookup_insert_ne|done].
Qed.

Lemma add_experience_counter (w : world) (uid : string)
    (body : gmap string string) (p : Profile) :
  no_faults w → experience_valid body →
  lookup_profile uid (store w) = Some p →
  next_oid (add_experience gen_oid uid body w).2 = S (next_oid w)
  ∧ log (add_experience gen_oid uid body w).2
    = (log w ++ completed [ProfileFindOne uid; ProfileSave (profile_id p)])%list.
Proof.
  intros Hq (Ht & Hc & Hf) Hp.
  unfold add_experience. rewrite !check_passes by done. simpl.
  unfold try_catch. rewrite run_bind, Profile_findOne_ok, Hp by done.
  simpl. rewrite run_ret_bind, run_bind, new_Entry_run, run_bind.
  unfold Profile_save. rewrite await_ok by by apply after_no_faults.
  simpl. split; [done|]. by rewrite <- app_assoc.
Qed.

Lemma add_education_counter (w : world) (uid : string)
    (body : gmap string string) (p : Profile) :
  no_faults w → education_valid body →
  lookup_profile uid (store w) = Some p →
  next_oid (add_education gen_oid uid body w).2 = S (next_oid w)
  ∧ log (add_education gen_oid uid body w).2
    = (log w ++ completed [ProfileFindOne uid; ProfileSave (profile_id p)])%list.
Proof.
  intros Hq (Hs & Hd & Hfs & Hf) Hp.
  unfold add_education. rewrite !check_passes by done. simpl.
  unfold try_catch. rewrite run_bind, Profile_findOne_ok, Hp by done.
  simpl. rewrite run_ret_bind, run_bind, new_Entry_run, run_bind.
  unfold Profile_save. rewrite await_ok by by apply after_no_faults.
  simpl. split; [done|]. by rewrite <- app_assoc.
Qed.

(** X16. With a profile, a valid body and no rejected store call, the two
    add routes make an entry of the seven members of the body the route
    names, give it the id the generator has for the current counter and
    advance the counter, so that this world hands the id out no more; they
    put the entry at position 0 of its sequence with the older entries
    behind it in their order, leave every other member of the profile as it
    was, save the profile and answer with it; users, posts and the other
    profiles are not touched. *)
Theorem add_entry_prepends (w : world) (uid : string)
    (body : gmap string string) (p : Profile) :
  no_faults w → lookup_profile uid (store w) = Some p →
  (experience_valid body →
     ∃ e w',
       entry_id e = gen_oid (next_oid w)
       ∧ (∀ k, entry_data e !! k
               = if bool_decide
                      (k ∈ ["company"; "title"; "location"; "from"; "to";
                            "current"; "description"])
                 then body !! k else None)
       ∧ let p' := {| profile_id := profile_id p; fields := fields p;
                      experience := e :: experience p;
                      education := education p |} in
         add_experience gen_oid uid body w = (Ok (json 200 (JProfile p')), w')
         ∧ next_oid w' = S (next_oid w)
         ∧ log w' = (log w ++ completed [ProfileFindOne uid;
                                         ProfileSave (profile_id p)])%list
         ∧ lookup_profile uid (store w') = Some p'
         ∧ users (store w') = users (store w)
         ∧ posts (store w') = posts (store w)
         ∧ map profile_id (profiles (store w'))
           = map profile_id (profiles (store w))
         ∧ ∀ q, q ∈ profiles (store w') → profile_id q ≠ profile_id p →
                q ∈ profiles (store w))
  ∧ (education_valid body →
     ∃ e w',
       entry_id e = gen_oid (next_oid w)
       ∧ (∀ k, entry_data e !! k
               = if bool_decide
                      (k ∈ ["school"; "degree"; "fieldofstudy"; "from"; "to";
                            "current"; "description"])
                 then body !! k else None)
       ∧ let p' := {| profile_id := profile_id p; fields := fields p;
                      experience := experience p;
                      education := e :: education p |} in
         add_education gen_oid uid body w = (Ok (json 200 (JProfile p')), w')
         ∧ next_oid w' = S (next_oid w)
         ∧ log w' = (log w ++ completed [ProfileFindOne uid;
                                         ProfileSave (profile_id p)])%list
         ∧ lookup_profile uid (store w') = Some p'
         ∧ users (store w') = users (store w)
         ∧ posts (store w') = posts (store w)
         ∧ map profile_id (profiles (store w'))
           = map profile_id (profiles (store w))
         ∧ ∀ q, q ∈ profiles (store w') → profile_id q ≠ profile_id p →
                q ∈ profiles (store w)).
Proof.
  intros Hq Hp. destruct (lookup_profile_Some _ _ _ Hp) as [Ho _].
  split; intros Hv.
  - destruct (add_experience_run w uid body p Hq Hv Hp)
      as (w' & Hrun & Hs & Hq').
    destruct (add_experience_counter w uid body p Hq Hv Hp) as [Hn Hl].
    rewrite Hrun in Hn, Hl. simpl in Hn, Hl.
    exists {| entry_id := gen_oid (next_oid w);
              entry_data := newExp_of body |}, w'.
    split; [done|]. split; [intros k; apply pick_lookup|]. cbv zeta.
    match type of Hs with _ = write_profile ?q _ =>
      destruct (write_profile_frame q (store w)) as (F1 & F2 & F3 & F4) end.
    rewrite Hs. split_and!; try done.
    by apply (lookup_write_profile uid _ p).
  - destruct (add_education_run w uid body p Hq Hv Hp)
      as (w' & Hrun & Hs & Hq').
    destruct (add_education_counter w uid body p Hq Hv Hp) as [Hn Hl].
    rewrite Hrun in Hn, Hl. simpl in Hn, Hl.
    exists {| entry_id := gen_oid (next_oid w);
              entry_data := newEdu_of body |}, w'.
    split; [done|]. split; [intros k; apply pick_lookup|]. cbv zeta.
    match type of Hs with _ = write_profile ?q _ =>
      destruct (write_profile_frame q (store w)) as (F1 & F2 & F3 & F4) end.
    rewrite Hs. split_and!; try done.
    by apply (lookup_write_profile uid _ p).
Qed.

(** X17. The two remove routes have no guard for a missing profile either:
    for a user without a profile they read a member of null and the answer
    is the 500 of the catch block, not a not-found error; the store is left
    as it was. *)
Theorem remove_entry_without_profile (w : world) (uid eid : string) :
  no_faults w → lookup_profile uid (store w) = None →
  answers (remove_experience uid eid) w ServerError (store w)
    [ProfileFindOne uid]
  ∧ answers (remove_education uid eid) w ServerError (store w)
      [ProfileFindOne uid].
Proof.
  intros Hq Hp. split.
  - unfold answers, remove_experience, try_catch.
    rewrite run_bind, Profile_findOne_ok, Hp by done. simpl.
    eexists. by split.
  - unfold answers, remove_education, try_catch.
    rewrite run_bind, Profile_findOne_ok, Hp by done. simpl.
    eexists. by split.
Qed.

End EntryCompositions.

(** * Further properties of the account and the reading profile routes *)

Lemma remove_first_keeps {A} (test : A → bool) (l : list A) (x : A) :
  x ∈ l → test x = false → x ∈ remove_first test l.
Proof.
  intros Hin Ht. induction l as [|y l IH]; simpl; [done|].
  apply elem_of_cons in Hin as [->|Hin].
  - rewrite Ht. left.
  - destruct (test y); [done|]. right. by apply IH.
Qed.

Lemma filter_keeps {A} (test : A → bool) (l : list A) (x : A) :
  x ∈ l → test x = true → x ∈ List.filter test l.
Proof.
  intros Hin Ht. apply list_elem_of_In, filter_In. split; [|done].
  by apply list_elem_of_In.
Qed.

Lemma remove_first_user_gone (uid : string) (us : list User) :
  NoDup (map user_id us) →
  List.find (λ u, String.eqb (user_id u) uid)
    (remove_first (λ u, String.eqb (user_id u) uid) us) = None.
Proof.
  induction us as [|u us IH]; simpl; [done|]. intros Hnd.
  apply NoDup_cons in Hnd as [Hu Hnd].
  destruct (String.eqb_spec (user_id u) uid) as [Heq|Hne].
  - subst uid. clear IH.
    induction us as [|v us IH]; simpl; [done|].
    simpl in Hu. apply not_elem_of_cons in Hu as [Hv Hu].
    destruct (String.eqb_spec (user_id v) (user_id u)); [congruence|].
    apply IH; [done|]. by apply NoDup_cons in Hnd as [_ ?].
  - simpl. apply String.eqb_neq in Hne. rewrite Hne. by apply IH.
Qed.

Lemma remove_first_profile_gone (uid : string) (ps : list Profile) :
  (length (List.filter (owned_by uid) ps) ≤ 1)%nat →
  List.find (owned_by uid) (remove_first (owned_by uid) ps) = None.
Proof.
  induction ps as [|q ps IH]; simpl; [done|].
  destruct (owned_by uid q) eqn:Hq; simpl.
  - intros Hle. clear IH.
    induction ps as [|r ps IH]; simpl in *; [done|].
    destruct (owned_by uid r); simpl in *; [lia|]. by apply IH.
  - rewrite Hq. apply IH.
Qed.

Section AccountProperties.

Variable valid_oid : string → bool.
Variable gen_oid : nat → string.

(** The store and the answer of an account delete, by the number of store
    calls that run before one rejects. *)
Lemma delete_account_by_stage (w : world) (uid : string) :
  store (delete_account uid w).2
  = cascade_stage (calls_before_fault 3 (faults w)) uid (store w)
  ∧ (delete_account uid w).1
    = Ok (if Nat.eqb (calls_before_fault 3 (faults w)) 3
          then json 200 (Msg "User deleted") else ServerError).
Proof.
  unfold delete_account, try_catch, Post_deleteMany, Profile_findOneAndRemove,
    User_findOneAndRemove, await, mbind, M_bind, bind.
  destruct (faults w) as [|[] [|[] [|[] fs]]]; simpl; by split.
Qed.

(** X18. The account delete is sequential, not atomic. However many of its
    three store calls run before one rejects decides what is left.  The
    posts are those of the other users as soon as the first call has run,
    and all the posts before; the profiles are without the first profile
    of the user once the second call has run, and untouched before; the
    users are without the first record under the id once the third has
    run, and untouched before.  So a rejected second call leaves the posts
    deleted with the profile and the user in place.  The answer is the
    success message only when all three have run, the 500 otherwise. *)
Theorem delete_account_stages (w : world) (uid : string) :
  let n := calls_before_fault 3 (faults w) in
  let d := store w in
  let d' := store (delete_account uid w).2 in
  d' = cascade_stage n uid d
  ∧ (delete_account uid w).1
    = Ok (if Nat.eqb n 3 then json 200 (Msg "User deleted") else ServerError)
  ∧ posts d'
    = (if Nat.eqb n 0 then posts d
       else List.filter (λ p, negb (String.eqb (post_user p) uid)) (posts d))
  ∧ (∀ before p behind,
       profiles d = (before ++ p :: behind)%list → owned_by uid p = true →
       (∀ q, q ∈ before → owned_by uid q = false) →
       profiles d' = if Nat.ltb n 2 then profiles d else (before ++ behind)%list)
  ∧ ((∀ q, q ∈ profiles d → owned_by uid q = false) → profiles d' = profiles d)
  ∧ (∀ before u behind,
       users d = (before ++ u :: behind)%list → user_id u = uid →
       (∀ v, v ∈ before → user_id v ≠ uid) →
       users d' = if Nat.ltb n 3 then users d else (before ++ behind)%list)
  ∧ ((∀ v, v ∈ users d → user_id v ≠ uid) → users d' = users d).
Proof.
  intros n d d'. subst n d d'.
  destruct (delete_account_by_stage w uid) as [Hs Hr].
  rewrite Hs. split; [done|]. split; [done|].
  assert (∀ before u behind,
            users (store w) = (before ++ u :: behind)%list → user_id u = uid →
            (∀ v, v ∈ before → user_id v ≠ uid) →
            remove_first (λ u, String.eqb (user_id u) uid) (users (store w))
            = (before ++ behind)%list) as Husers.
  { intros before u behind -> Hu Hb. apply remove_first_split.
    - by apply String.eqb_eq.
    - intros v Hv. apply String.eqb_neq. by apply Hb. }
  assert ((∀ v, v ∈ users (store w) → user_id v ≠ uid) →
          remove_first (λ u, String.eqb (user_id u) uid) (users (store w))
          = users (store w)) as Hnousers.
  { intros Hn. apply remove_first_none. intros v Hv.
    apply String.eqb_neq. by apply Hn. }
  destruct (calls_before_fault 3 (faults w)) as [|[|[|m]]]; simpl;
    split_and!; try done.
  - intros before p behind -> Hp Hb. by apply remove_first_split.
  - intros Hn. by apply remove_first_none.
  - intros before p behind -> Hp Hb. by apply remove_first_split.
  - intros Hn. by apply remove_first_none.
Qed.

(** X19. The account delete leaves the others alone: however it ends, the
    posts of other users, the profiles of other users and the other user
    records that were in the store are still in it. *)
Theorem delete_account_frame (w : world) (uid : string) :
  let d' := store (delete_account uid w).2 in
  (∀ p, p ∈ posts (store w) → post_user p ≠ uid → p ∈ posts d')
  ∧ (∀ q, q ∈ profiles (store w) → owned_by uid q = false → q ∈ profiles d')
  ∧ (∀ u, u ∈ users (store w) → user_id u ≠ uid → u ∈ users d').
Proof.
  intros d'. subst d'.
  destruct (delete_account_by_stage w uid) as [-> _].
  assert (∀ p, p ∈ posts (store w) → post_user p ≠ uid →
            p ∈ List.filter (λ p, negb (String.eqb (post_user p) uid))
                  (posts (store w))) as Hposts.
  { intros p Hp Hne. apply filter_keeps; [done|].
    apply negb_true_iff. by apply String.eqb_neq. }
  assert (∀ u, u ∈ users (store w) → user_id u ≠ uid →
            u ∈ remove_first (λ u, String.eqb (user_id u) uid)
                  (users (store w))) as Husers.
  { intros u Hu Hne. apply remove_first_keeps; [done|].
    by apply String.eqb_neq. }
  destruct (calls_before_fault 3 (faults w)) as [|[|[|n]]]; simpl;
    split_and!; try done; intros q Hq Ho; by apply remove_first_keeps.
Qed.

(** The run of an account delete that meets no rejected store call. *)
Lemma delete_account_run (w : world) (uid : string) :
  no_faults w →
  ∃ w', delete_account uid w = (Ok (json 200 (Msg "User deleted")), w')
        ∧ store w' = without_account uid (store w) ∧ no_faults w'.
Proof.
  intros Hq. unfold delete_account, try_catch. rewrite run_bind.
  unfold Post_deleteMany. rewrite await_ok by done.
  rewrite run_bind. unfold Profile_findOneAndRemove.
  rewrite await_ok by by apply after_no_faults.
  rewrite run_bind. unfold User_findOneAndRemove.
  rewrite await_ok by by do 2 apply after_no_faults.
  eexists. split; [reflexivity|]. split; [done|].
  by do 3 apply after_no_faults.
Qed.

(** X20. After an account delete that went through, for a store with one
    record for each user id and at most one profile for the user: the token
    of the deleted user still opens [GET api/auth], which answers 200 with
    null; [GET /me] answers that there is no profile; and a post cannot be
    created any more, the route answering 500. *)
Theorem after_account_delete (w : world) (uid : string)
    (body : gmap string string) :
  no_faults w → NoDup (map user_id (users (store w))) →
  (count_owned uid (store w) ≤ 1)%nat →
  isEmpty (body !! "text") = false →
  let w1 := (delete_account uid w).2 in
  (get_auth_user uid w1).1 = Ok (json 200 (JValue JNull))
  ∧ (get_my_profile uid w1).1 = Ok (json 400 (Msg "User profile not found!"))
  ∧ (create_post gen_oid uid body w1).1 = Ok ServerError
  ∧ store (create_post gen_oid uid body w1).2 = store w1.
Proof.
  intros Hq Hnd Hone Ht w1. subst w1.
  destruct (delete_account_run w uid Hq) as (w' & -> & Hs & Hq'). simpl.
  assert (lookup_user uid (store w') = None) as Hu.
  { rewrite Hs. unfold lookup_user. simpl. by apply remove_first_user_gone. }
  assert (lookup_profile uid (store w') = None) as Hp.
  { rewrite Hs. unfold lookup_profile. simpl.
    by apply remove_first_profile_gone. }
  split_and!.
  - unfold get_auth_user, try_catch. rewrite run_bind. unfold User_findById.
    rewrite await_quiet_ok by done. simpl. by rewrite Hu.
  - unfold get_my_profile, try_catch.
    rewrite run_bind, Profile_findOne_populated_ok, Hp by done. done.
  - by rewrite create_post_without_user.
  - by rewrite create_post_without_user.
Qed.

(** X21. The two routes that read one profile never write, however the
    request ends; a malformed id in the path is answered like a missing
    profile, 400 with the same message, without a store call; and so is a
    user that has no profile. *)
Theorem profile_reads_not_found (w : world) (id : string) :
  store (get_my_profile id w).2 = store w
  ∧ store (get_profile_by_user valid_oid id w).2 = store w
  ∧ (valid_oid id = false →
     get_profile_by_user valid_oid id w
     = (Ok (json 400 (Msg "User profile not found!")), w))
  ∧ (no_faults w → lookup_profile id (store w) = None →
     (get_my_profile id w).1 = Ok (json 400 (Msg "User profile not found!"))
     ∧ (get_profile_by_user valid_oid id w).1
       = Ok (json 400 (Msg "User profile not found!"))).
Proof.
  split_and!.
  - unfold get_my_profile, try_catch. rewrite run_bind.
    unfold Profile_findOne_populated.
    match goal with |- context [await ?o ?f ?w0] =>
      destruct (await_cases o f w0) as [(w' & -> & Hs & _)| ->] end;
      [done|].
    simpl. by destruct (lookup_profile id (store w)).
  - unfold get_profile_by_user, try_catch. rewrite run_bind.
    destruct (valid_oid id); [|done]. unfold Profile_findOne_populated.
    match goal with |- context [await ?o ?f ?w0] =>
      destruct (await_cases o f w0) as [(w' & -> & Hs & _)| ->] end;
      [done|].
    simpl. by destruct (lookup_profile id (store w)).
  - intros Hv. unfold get_profile_by_user, try_catch. rewrite run_bind.
    by rewrite Hv.
  - intros Hq Hp. split.
    + unfold get_my_profile, try_catch.
      rewrite run_bind, Profile_findOne_populated_ok, Hp by done. done.
    + unfold get_profile_by_user, try_catch. rewrite run_bind.
      destruct (valid_oid id); [|done].
      rewrite Profile_findOne_populated_ok, Hp by done. done.
Qed.

End AccountProperties.

(** * Further properties of the GitHub route and of the skills *)

Section GithubOutcomes.

Variable JSON_parse : string → option jsonv.
Variables githubid githubsecret : string.

(** X22. Every way the GitHub route can end. When it answers, the answer
    is the 404 for an upstream status other than 200, or a 200 carrying the
    parse of the upstream body; it never answers 500, the catch block of
    the handler being out of reach of the callback.  When it does not
    answer, the transport failed or the upstream sent a 200 whose body is
    not JSON. *)
Theorem github_route_outcomes (net : request_options → upstream)
    (username : string) :
  let run := github_repos JSON_parse githubid githubsecret net username in
  let sent := net (github_options githubid githubsecret username) in
  (∀ r, run = Ok r →
     (r = json 404 (Msg "No github profile found")
      ∧ ∃ code text, sent = Reply code text ∧ code ≠ 200)
     ∨ (∃ text parsed, sent = Reply 200 text ∧ JSON_parse text = Some parsed
          ∧ r = json 200 (JValue parsed)))
  ∧ (∀ e, run = Throw e →
     (e = TypeError ∧ ∃ failure, sent = TransportError failure)
     ∨ (e = SyntaxError
        ∧ ∃ text, sent = Reply 200 text ∧ JSON_parse text = None)).
Proof.
  intros run sent. subst run sent. unfold github_repos.
  destruct (net _) as [failure|code text]; simpl.
  - split; [done|]. intros e [= <-]. left. split; [done|]. by eexists.
  - destruct (Nat.eqb_spec code 200) as [->|Hc]; simpl.
    + destruct (JSON_parse text) as [parsed|] eqn:Hj.
      * split; [|done]. intros r [= <-]. right. by exists text, parsed.
      * split; [done|]. intros e [= <-]. right. split; [done|]. by exists text.
    + split; [|done]. intros r [= <-]. left. split; [done|]. by exists code, text.
Qed.

End GithubOutcomes.

Lemma ascii_eqb_sym (a b : ascii) : Ascii.eqb a b = Ascii.eqb b a.
Proof.
  destruct (Ascii.eqb_spec a b) as [->|Hne].
  - by rewrite Ascii.eqb_refl.
  - symmetry. apply Ascii.eqb_neq. congruence.
Qed.

Lemma commas_cons (c : ascii) (s : string) :
  commas (String c s)
  = if Ascii.eqb c ","%char then S (commas s) else commas s.
Proof.
  unfold commas. cbn [list_ascii_of_string List.filter].
  rewrite (ascii_eqb_sym ","%char c).
  by destruct (Ascii.eqb c ","%char).
Qed.

Lemma split_comma_length (s : string) :
  length (split_comma s) = S (commas s).
Proof.
  induction s as [|c s IH]; [done|].
  rewrite commas_cons. simpl.
  destruct (Ascii.eqb c ","%char); simpl; [by rewrite IH|].
  destruct (split_comma s); simpl in *; [done|by rewrite IH].
Qed.

Lemma split_comma_pieces (s x : string) :
  x ∈ split_comma s → commas x = 0.
Proof.
  revert x. induction s as [|c s IH]; simpl; intros x Hx.
  - apply elem_of_cons in Hx as [->|Hx]; [done|]. by apply elem_of_nil in Hx.
  - destruct (Ascii.eqb c ","%char) eqn:Hc.
    + apply elem_of_cons in Hx as [->|Hx]; [done|]. by apply IH.
    + destruct (split_comma s) as [|piece rest].
      * apply elem_of_cons in Hx as [->|Hx]; [|by apply elem_of_nil in Hx].
        by rewrite commas_cons, Hc.
      * apply elem_of_cons in Hx as [->|Hx].
        -- rewrite commas_cons, Hc. apply IH. left.
        -- apply IH. by right.
Qed.

Lemma split_comma_single (x : string) : commas x = 0 → split_comma x = [x].
Proof.
  induction x as [|c x IH]; [done|].
  rewrite commas_cons. simpl.
  destruct (Ascii.eqb c ","%char); [done|]. intros H. by rewrite IH.
Qed.

Lemma string_app_cons (x : ascii) (a b : string) :
  String x a ++ b = String x (a ++ b).
Proof. reflexivity. Qed.

Lemma list_ascii_app (a b : string) :
  list_ascii_of_string (a ++ b)
  = (list_ascii_of_string a ++ list_ascii_of_string b)%list.
Proof.
  induction a as [|c a IH]; [done|].
  rewrite string_app_cons. simpl. by rewrite IH.
Qed.

Lemma string_of_list_app (l k : list ascii) :
  string_of_list_ascii (l ++ k)
  = string_of_list_ascii l ++ string_of_list_ascii k.
Proof.
  induction l as [|c l IH]; [done|]. simpl. by rewrite string_app_cons, IH.
Qed.

Lemma string_app_assoc (a b c : string) : (a ++ b) ++ c = a ++ b ++ c.
Proof.
  induction a as [|x a IH]; [done|]. by rewrite !string_app_cons, IH.
Qed.

Lemma string_app_nil_r (a : string) : a ++ "" = a.
Proof.
  induction a as [|x a IH]; [done|]. by rewrite string_app_cons, IH.
Qed.

Lemma string_length_app (a b : string) :
  String.length (a ++ b) = String.length a + String.length b.
Proof.
  induction a as [|x a IH]; [done|]. rewrite string_app_cons. simpl.
  by rewrite IH.
Qed.

Lemma string_rev_app (a b : string) :
  string_rev (a ++ b) = string_rev b ++ string_rev a.
Proof.
  unfold string_rev. by rewrite list_ascii_app, rev_app_distr, string_of_list_app.
Qed.

Lemma string_rev_involutive (s : string) : string_rev (string_rev s) = s.
Proof.
  unfold string_rev.
  by rewrite list_ascii_of_string_of_list_ascii, rev_involutive,
    string_of_list_ascii_of_string.
Qed.

Lemma string_of_list_length (l : list ascii) :
  String.length (string_of_list_ascii l) = length l.
Proof. induction l as [|c l IH]; [done|]. simpl. by rewrite IH. Qed.

Lemma list_ascii_length (s : string) :
  length (list_ascii_of_string s) = String.length s.
Proof. induction s as [|c s IH]; [done|]. simpl. by rewrite IH. Qed.

Lemma string_rev_length (s : string) :
  String.length (string_rev s) = String.length s.
Proof.
  unfold string_rev.
  by rewrite string_of_list_length, length_rev, list_ascii_length.
Qed.

Lemma commas_app (a b : string) : commas (a ++ b) = commas a + commas b.
Proof.
  unfold commas. by rewrite list_ascii_app, List.filter_app, length_app.
Qed.

Lemma drop_prefix_app (p rest : string) : drop_prefix p (p ++ rest) = Some rest.
Proof.
  induction p as [|a p IH]; [done|].
  rewrite string_app_cons. simpl. by rewrite Ascii.eqb_refl.
Qed.

Lemma drop_prefix_Some (p s rest : string) :
  drop_prefix p s = Some rest → s = p ++ rest.
Proof.
  revert s. induction p as [|a p IH]; intros s H; simpl in H.
  - by injection H as ->.
  - destruct s as [|b s]; [done|].
    destruct (Ascii.eqb_spec a b) as [->|]; [|done].
    rewrite string_app_cons. f_equal. by apply IH.
Qed.

Lemma strip_one_Some (chars : list string) (s rest : string) :
  strip_one chars s = Some rest → ∃ c, c ∈ chars ∧ s = c ++ rest.
Proof.
  induction chars as [|c chars IH]; [done|]. cbn [strip_one].
  destruct (drop_prefix c s) as [r|] eqn:Hd.
  - intros [= ->]. exists c. split; [by left|]. by apply drop_prefix_Some.
  - intros H. destruct (IH H) as (c' & Hc' & Hs).
    exists c'. split; [by right|done].
Qed.

Lemma strip_one_None (chars : list string) (s : string) :
  strip_one chars s = None → ∀ c rest, c ∈ chars → s ≠ c ++ rest.
Proof.
  induction chars as [|c chars IH]; cbn [strip_one].
  - intros _ c rest Hc. by apply elem_of_nil in Hc.
  - destruct (drop_prefix c s) as [r|] eqn:Hd; [done|].
    intros H c' rest Hc' ->.
    apply elem_of_cons in Hc' as [->|Hc'].
    + by rewrite drop_prefix_app in Hd.
    + by apply (IH H c' rest).
Qed.

Lemma strip_one_no_prefix (chars : list string) (s : string) :
  (∀ c rest, c ∈ chars → s ≠ c ++ rest) → strip_one chars s = None.
Proof.
  intros H. destruct (strip_one chars s) as [rest|] eqn:Hs; [|done].
  destruct (strip_one_Some _ _ _ Hs) as (c & Hc & ->).
  by destruct (H c rest Hc).
Qed.

Lemma strip_leading_spec (chars : list string) (fuel : nat) (s : string) :
  (∀ c, c ∈ chars → c ≠ "") → (String.length s ≤ fuel)%nat →
  ∃ lead, s = lead ++ strip_leading fuel chars s
    ∧ made_of chars lead
    ∧ strip_one chars (strip_leading fuel chars s) = None.
Proof.
  intros Hne. revert s. induction fuel as [|fuel IH]; intros s Hlen.
  - destruct s; [|simpl in Hlen; lia]. exists "". split_and!; [done|constructor|].
    apply strip_one_no_prefix. intros c rest Hc Heq.
    apply (Hne c Hc). by destruct c.
  - cbn [strip_leading]. destruct (strip_one chars s) as [rest|] eqn:Hs.
    + destruct (strip_one_Some _ _ _ Hs) as (c & Hc & ->).
      assert (String.length rest ≤ fuel)%nat as Hr.
      { rewrite string_length_app in Hlen.
        specialize (Hne c Hc). destruct c; [done|]. simpl in Hlen. lia. }
      destruct (IH rest Hr) as (lead & Hlead & Hm & Hn).
      exists (c ++ lead). split_and!; [|by constructor|done].
      by rewrite string_app_assoc, <- Hlead.
    + exists "". split_and!; [done|constructor|done].
Qed.

Lemma strip_leading_fixed (chars : list string) (fuel : nat) (s : string) :
  strip_one chars s = None → strip_leading fuel chars s = s.
Proof. intros H. destruct fuel; [done|]. cbn [strip_leading]. by rewrite H. Qed.

Lemma made_of_app (chars : list string) (a b : string) :
  made_of chars a → made_of chars b → made_of chars (a ++ b).
Proof.
  induction 1 as [|c s Hc Hs IH]; intros Hb; [done|].
  rewrite string_app_assoc. constructor; [done|]. by apply IH.
Qed.

Lemma made_of_rev (chars : list string) (s : string) :
  made_of (map string_rev chars) s → made_of chars (string_rev s).
Proof.
  induction 1 as [|c s Hc Hs IH]; [constructor|].
  rewrite string_rev_app. apply made_of_app; [done|].
  apply list_elem_of_fmap in Hc as (c' & -> & Hc').
  rewrite string_rev_involutive, <- (string_app_nil_r c').
  constructor; [done|constructor].
Qed.

Lemma white_space_nonempty (c : string) : c ∈ white_space → c ≠ "".
Proof.
  intros Hc ->. revert Hc. unfold white_space.
  repeat (rewrite elem_of_cons; intros [H|H]; [discriminate H|revert H]).
  apply not_elem_of_nil.
Qed.

Lemma white_space_rev_nonempty (c : string) :
  c ∈ map string_rev white_space → c ≠ "".
Proof.
  intros Hc. apply list_elem_of_fmap in Hc as (c' & -> & Hc').
  intros H. apply (white_space_nonempty c' Hc').
  by rewrite <- (string_rev_involutive c'), H.
Qed.

Lemma trim_start_spec (s : string) :
  ∃ lead, s = lead ++ trim_start s
    ∧ made_of white_space lead
    ∧ ∀ ws rest, ws ∈ white_space → trim_start s ≠ ws ++ rest.
Proof.
  destruct (strip_leading_spec white_space (String.length s) s
              white_space_nonempty (le_n _)) as (lead & Hs & Hm & Hn).
  exists lead. split_and!; [done..|]. by apply strip_one_None.
Qed.

Lemma trim_end_spec (s : string) :
  ∃ trail, s = trim_end s ++ trail
    ∧ made_of white_space trail
    ∧ ∀ ws pre, ws ∈ white_space → trim_end s ≠ pre ++ ws.
Proof.
  destruct (strip_leading_spec (map string_rev white_space) (String.length s)
              (string_rev s) white_space_rev_nonempty) as (lead & Hs & Hm & Hn).
  { by rewrite string_rev_length. }
  exists (string_rev lead). unfold trim_end. split_and!.
  - rewrite <- string_rev_app, <- Hs. by rewrite string_rev_involutive.
  - by apply made_of_rev.
  - intros ws pre Hws Heq.
    apply (strip_one_None _ _ Hn (string_rev ws) (string_rev pre)).
    + apply list_elem_of_fmap. by exists ws.
    + by rewrite <- string_rev_app, <- Heq, string_rev_involutive.
Qed.

Lemma trim_spec (s : string) :
  ∃ lead trail, s = lead ++ trim s ++ trail
    ∧ made_of white_space lead ∧ made_of white_space trail
    ∧ (∀ ws rest, ws ∈ white_space → trim s ≠ ws ++ rest)
    ∧ (∀ ws pre, ws ∈ white_space → trim s ≠ pre ++ ws).
Proof.
  destruct (trim_start_spec s) as (lead & Hs & Hl & Hp).
  destruct (trim_end_spec (trim_start s)) as (trail & Ht & Hm & Hq).
  exists lead, trail. fold (trim s) in Ht, Hq. split_and!; [|done..| |done].
  - by rewrite <- Ht.
  - intros ws rest Hws Heq. apply (Hp ws (rest ++ trail) Hws).
    by rewrite Ht, Heq, string_app_assoc.
Qed.

Lemma split_comma_nonempty (s : string) : split_comma s ≠ [].
Proof.
  destruct s as [|c s]; [done|]. cbn [split_comma].
  destruct (Ascii.eqb c ","%char); [done|]. by destruct (split_comma s).
Qed.

Lemma split_comma_concat (s : string) : String.concat "," (split_comma s) = s.
Proof.
  induction s as [|c s IH]; [done|]. cbn [split_comma].
  pose proof (split_comma_nonempty s) as Hne.
  destruct (split_comma s) as [|piece rest]; [done|].
  destruct (Ascii.eqb_spec c ","%char) as [->|Hc].
  - cbn [String.concat] in *. by rewrite IH.
  - cbn [String.concat] in *. destruct rest as [|piece' rest].
    + by rewrite IH.
    + by rewrite string_app_cons, IH.
Qed.

Lemma trim_fixed (x : string) :
  (∀ ws rest, ws ∈ white_space → x ≠ ws ++ rest) →
  (∀ ws pre, ws ∈ white_space → x ≠ pre ++ ws) →
  trim x = x.
Proof.
  intros Hp Hs. unfold trim, trim_start.
  rewrite (strip_leading_fixed white_space _ x)
    by by apply strip_one_no_prefix.
  unfold trim_end. rewrite strip_leading_fixed; [apply string_rev_involutive|].
  apply strip_one_no_prefix. intros c rest Hc Heq.
  apply list_elem_of_fmap in Hc as (ws & -> & Hws).
  apply (Hs ws (string_rev rest) Hws).
  by rewrite <- (string_rev_involutive x), Heq, string_rev_app,
    string_rev_involutive.
Qed.

Lemma comma_free (y pre post : string) : commas y = 0 → y ≠ pre ++ "," ++ post.
Proof.
  intros H ->. rewrite !commas_app in H.
  change (commas ",") with 1 in H. lia.
Qed.

Lemma Forall2_map_self {A B} (P : A → B → Prop) (f : A → B) (l : list A) :
  (∀ y, y ∈ l → P y (f y)) → Forall2 P l (map f l).
Proof.
  induction l as [|y l IH]; intros H; [constructor|].
  constructor; [apply H; by left|]. apply IH. intros z Hz. apply H. by right.
Qed.

Example skills_trimmed_of_unicode_white_space :
  map trim (split_comma padded_skills) = ["html"; "css"; "js"]
  ∧ trim (utf8 [239; 187; 191] ++ "go" ++ utf8 [9; 226; 128; 168]) = "go"
  ∧ trim (utf8 [226; 128; 139] ++ "go") = utf8 [226; 128; 139] ++ "go".
Proof. split_and!; vm_compute; reflexivity. Qed.

(** X23. The skills the upsert stores are clean. For a non-empty [skills]
    member the pieces between the commas of the string, joined again by
    commas, are the string; the stored array has one element for each
    piece, in the order of the string, one more than the string has
    commas; each element is its piece without the white space around it,
    the white space of ECMAScript with the no-break space, the byte order
    mark and the other Unicode spaces: the piece is white space, the
    element, white space, and the element neither starts nor ends with a
    white-space character and holds no comma. Trimming or splitting an
    element again gives the element itself. *)
Theorem skills_stored_clean (uid skills : string) (body : gmap string string) :
  body !! "skills" = Some skills → skills ≠ "" →
  let pieces := split_comma skills in
  let l := map trim pieces in
  profileFields_of uid body !! "skills" = Some (VArr l)
  ∧ String.concat "," pieces = skills
  ∧ length pieces = S (commas skills)
  ∧ length l = S (commas skills)
  ∧ (∀ y pre post, y ∈ pieces → y ≠ pre ++ "," ++ post)
  ∧ Forall2 (λ y x, ∃ lead trail, y = lead ++ x ++ trail
               ∧ made_of white_space lead ∧ made_of white_space trail
               ∧ (∀ ws rest, ws ∈ white_space → x ≠ ws ++ rest)
               ∧ (∀ ws pre, ws ∈ white_space → x ≠ pre ++ ws)
               ∧ (∀ pre post, x ≠ pre ++ "," ++ post)) pieces l
  ∧ ∀ x, x ∈ l → trim x = x ∧ split_comma x = [x].
Proof.
  intros Hb Hne pieces l.
  assert (∀ y, y ∈ pieces → commas y = 0) as Hfree.
  { intros y Hy. by apply (split_comma_pieces skills). }
  assert (∀ y, commas y = 0 → commas (trim y) = 0) as Htrim.
  { intros y Hy. destruct (trim_spec y) as (lead & trail & Heq & _).
    rewrite Heq, !commas_app in Hy. lia. }
  split_and!.
  - rewrite profileFields_top by (unfold top_level_names; do 6 right; left).
    rewrite Hb. simpl. apply String.eqb_neq in Hne. by rewrite Hne.
  - apply split_comma_concat.
  - apply split_comma_length.
  - subst l. rewrite length_map. apply split_comma_length.
  - intros y pre post Hy. by apply comma_free, Hfree.
  - subst l. apply Forall2_map_self. intros y Hy.
    destruct (trim_spec y) as (lead & trail & Heq & Hl & Ht & Hp & Hs).
    exists lead, trail. split_and!; [done..|].
    intros pre post. by apply comma_free, Htrim, Hfree.
  - intros x Hx. apply list_elem_of_fmap in Hx as (y & -> & Hy).
    destruct (trim_spec y) as (lead & trail & Heq & Hl & Ht & Hp & Hs).
    split; [by apply trim_fixed|].
    by apply split_comma_single, Htrim, Hfree.
Qed.

(** * Properties of the client's profile actions *)

Lemma no_push_in_profile_error (err_response : option axios_response)
    (path : string) :
  HistoryPush path ∉ (dispatch_profile_error err_response).1.
Proof.
  destruct err_response as [response|]; simpl.
  - intros H. apply elem_of_cons in H as [H|H]; [done|].
    by apply elem_of_nil in H.
  - apply not_elem_of_nil.
Qed.

Lemma no_push_in_alerts (err_response : option axios_response)
    (path : string) :
  HistoryPush path ∉ (alert_errors_then_profile_error err_response).1.
Proof.
  unfold alert_errors_then_profile_error.
  destruct (data_errors err_response) as [errors|]; [|apply not_elem_of_nil].
  pose proof (no_push_in_profile_error err_response path) as Hn.
  destruct (dispatch_profile_error err_response) as [effects thrown].
  simpl in *. rewrite elem_of_app. intros [H|H]; [|done].
  destruct errors as [errors|]; [|by apply elem_of_nil in H].
  apply list_elem_of_In, in_map_iff in H as (e & He & _). done.
Qed.

Section ActionProperties.

Variable reason : nat → string.
Variable gen_oid : nat → string.

(** X24. The validation messages of the server reach the user as alerts.
    When the body of [createProfile] fails the validation of the upsert
    route and axios settles the request as that route answers it, the
    action raises one danger alert for each failed check, in the order of
    the checks, then dispatches the profile error with status 400; it
    dispatches no profile, raises no success alert and does not navigate,
    whether it was called to create or to edit. *)
Theorem createProfile_shows_validation_errors
    (axios : axios_request → settled) (w : world) (uid : string)
    (form : gmap string string) (edit : bool) (r : response) :
  ¬ upsert_valid form →
  (upsert_profile gen_oid uid form w).1 = Ok r →
  axios (axios_post "/api/profile" form) = settle reason r →
  createProfile axios form edit
  = ((map (λ error, SetAlert (msg error) (Some "danger"))
        (check "status" "Status is required" form
         ++ check "skills" "Skills are required" form)
      ++ [Dispatch (PROFILE_ERROR (reason 400) 400)])%list,
     None).
Proof.
  intros Hn Hr Ha.
  pose proof (not_upsert_valid form Hn) as He.
  unfold upsert_profile in Hr. rewrite bool_decide_eq_false_2 in Hr by done.
  simpl in Hr. injection Hr as <-.
  unfold createProfile. rewrite Ha. reflexivity.
Qed.

(** X25. [createProfile] navigates to the dashboard exactly when the
    request is fulfilled and the action was called to create, never when
    called to edit and never when the request is rejected. *)
Theorem createProfile_navigates_iff (axios : axios_request → settled)
    (form : gmap string string) (edit : bool) :
  HistoryPush "/dashboard" ∈ (createProfile axios form edit).1
  ↔ edit = false
    ∧ ∃ result_data, axios (axios_post "/api/profile" form)
                     = Fulfilled result_data.
Proof.
  unfold createProfile.
  destruct (axios (axios_post "/api/profile" form)) as [d|err_response].
  - destruct edit; simpl.
    + split; [|by intros [? _]]. intros H.
      repeat (apply elem_of_cons in H as [H|H]; [done|]).
      by apply elem_of_nil in H.
    + split; [intros _; split; [done|by exists d]|]. intros _.
      do 2 right. left.
  - split; [|by intros [_ [? ?]]].
    intros H. by apply no_push_in_alerts in H.
Qed.

(** X26. When a request gets no answer at all, the catch block of every
    action reads a member of the undefined [err.response]: the thunk
    rejects with a TypeError and no profile error is dispatched.  Only the
    profile reset that [getProfiles] dispatches before the request has
    happened. *)
Theorem actions_without_response_throw (axios : axios_request → settled)
    (form : gmap string string) (edit : bool) (id : string) :
  (∀ request, axios request = Rejected None) →
  getCurrentProfile axios = ([], Some TypeError)
  ∧ getProfiles axios = ([Dispatch CLEAR_PROFILE], Some TypeError)
  ∧ getProfileById axios id = ([], Some TypeError)
  ∧ getGithubRepos axios id = ([], Some TypeError)
  ∧ createProfile axios form edit = ([], Some TypeError)
  ∧ addExperience axios form = ([], Some TypeError)
  ∧ addEducation axios form = ([], Some TypeError)
  ∧ deleteExperience axios id = ([], Some TypeError)
  ∧ deleteEducation axios id = ([], Some TypeError)
  ∧ deleteAccount axios true = ([], Some TypeError).
Proof.
  intros Ha.
  unfold getCurrentProfile, getProfiles, getProfileById, getGithubRepos,
    createProfile, addExperience, addEducation, deleteExperience,
    deleteEducation, deleteAccount.
  rewrite !Ha. by split_and!.
Qed.

(** X27. The client clears the account only after the whole cascade. With
    axios settling the request as the account route answers it,
    [deleteAccount] dispatches the profile reset and the account deletion
    exactly when all three store calls of the route have run; when one of
    them rejects it dispatches the profile error with status 500 and
    nothing else, whatever the route has deleted by then.  Unconfirmed, it
    sends no request and does nothing. *)
Theorem deleteAccount_follows_cascade (axios : axios_request → settled)
    (w : world) (uid : string) (r : response) :
  (delete_account uid w).1 = Ok r →
  axios (axios_delete "/api/profile/") = settle reason r →
  deleteAccount axios true
  = (if Nat.eqb (calls_before_fault 3 (faults w)) 3
     then [Dispatch CLEAR_PROFILE; Dispatch ACCOUNT_DELETED;
           SetAlert "Your account has been permanently deleted" None]
     else [Dispatch (PROFILE_ERROR (reason 500) 500)],
     None)
  ∧ deleteAccount axios false = ([], None).
Proof.
  intros Hr Ha. split; [|done].
  destruct (delete_account_by_stage w uid) as [_ Hs].
  remember (Nat.eqb (calls_before_fault 3 (faults w)) 3) as full.
  rewrite Hs in Hr. injection Hr as <-.
  unfold deleteAccount. rewrite Ha. by destruct full.
Qed.

End ActionProperties.

(** * The further theorems at work on the sample store *)

Lemma sample_users_distinct : NoDup (map user_id (users sample_db)).
Proof.
  simpl. apply NoDup_cons. split; [|apply NoDup_singleton].
  intros H. apply elem_of_cons in H as [H|H]; [done|].
  by apply elem_of_nil in H.
Qed.

Lemma sample_one_profile_each : one_profile_each sample_db.
Proof.
  intros uid. unfold count_owned. simpl.
  destruct (owned_by uid profile_alice); simpl; lia.
Qed.

Lemma post_routes_malformed_id_witness :
  hex24 "not-an-object-id" = false
  ∧ like_post hex24 alice "not-an-object-id" sample_world
    = (Ok PostNotFound, sample_world).
Proof.
  split; [reflexivity|].
  exact (proj1 (proj2 (proj2 (post_routes_malformed_id hex24 sample_world alice
                                "not-an-object-id" eq_refl)))).
Defined.

Lemma post_routes_fail_closed_witness :
  store (like_post hex24 bob (post_id post_a) sample_world).2
  = store sample_world.
Proof.
  destruct (proj1 (post_routes_fail_closed hex24 sample_world bob
                     (post_id post_a))) as (r & Hr & Hs).
  apply Hs. vm_compute in Hr. injection Hr as <-. simpl. lia.
Defined.

Lemma like_then_unlike_restores_witness :
  (alice ∉ map like_user (post_likes post_a))
  ∧ lookup_post (post_id post_a)
      (store (unlike_post hex24 alice (post_id post_a)
                (like_post hex24 alice (post_id post_a) sample_world).2).2)
    = Some post_a.
Proof.
  assert (alice ∉ map like_user (post_likes post_a)) as Hout
    by (simpl; by apply not_elem_of_cons; split; [|apply not_elem_of_nil]).
  split; [done|].
  exact (proj2 (like_then_unlike_restores hex24 sample_world alice
                  (post_id post_a) post_a sample_world_no_faults eq_refl
                  eq_refl Hout)).
Defined.

Lemma like_twice_refused_witness :
  (like_post hex24 alice (post_id post_a)
     (like_post hex24 alice (post_id post_a) sample_world).2).1
  = Ok AlreadyLiked.
Proof.
  assert (alice ∉ map like_user (post_likes post_a)) as Hout
    by (simpl; by apply not_elem_of_cons; split; [|apply not_elem_of_nil]).
  exact (proj1 (like_twice_refused hex24 sample_world alice (post_id post_a)
                  post_a sample_world_no_faults eq_refl eq_refl Hout)).
Defined.

Lemma like_unlike_frame_witness :
  post_b ∈ posts (store (like_post hex24 alice (post_id post_a) sample_world).2)
  ∧ post_id post_b ≠ post_id post_a
  ∧ post_b ∈ posts (store sample_world).
Proof.
  assert (post_b ∈ posts (store (like_post hex24 alice (post_id post_a)
                                   sample_world).2)) as Hin
    by (vm_compute; right; left).
  assert (post_id post_b ≠ post_id post_a) as Hne by (by vm_compute).
  split_and!; [done|done|].
  exact (proj2 (proj2 (proj2 (proj1 (like_unlike_frame hex24 sample_world alice
                                       (post_id post_a))))) post_b Hin Hne).
Defined.

Lemma get_post_reads_the_like_witness :
  (get_post hex24 (post_id post_a)
     (like_post hex24 alice (post_id post_a) sample_world).2).1
  = Ok (json 200
          (JValue
             (JObject
                [("_id", JString "5d7a514b5d2c12c7449be0a1");
                 ("text", JString "hello"); ("name", JString "Alice");
                 ("avatar", JString "a.png"); ("user", JString alice);
                 ("likes",
                  JArray [JObject [("user", JString alice)];
                          JObject [("user", JString bob)]])]))).
Proof.
  assert (alice ∉ map like_user (post_likes post_a)) as Hout
    by (simpl; by apply not_elem_of_cons; split; [|apply not_elem_of_nil]).
  exact (proj2 (get_post_reads_the_like hex24 sample_world alice
                  (post_id post_a) post_a) sample_world_no_faults eq_refl
           eq_refl Hout).
Defined.

Lemma create_post_requires_text_witness :
  isEmpty (invalid_form !! "text") = true
  ∧ create_post oid_of_counter alice invalid_form sample_world
    = (Ok (json 400 (Errors [ {| msg := "Text is required"; param := "text" |} ])),
       sample_world).
Proof.
  split; [reflexivity|].
  exact (create_post_requires_text oid_of_counter sample_world alice
           invalid_form eq_refl).
Defined.

Lemma sample_text_not_empty : "first post" ≠ "".
Proof. done. Qed.

Lemma create_then_get_post_witness :
  lookup_user alice (store sample_world)
  = Some {| user_id := alice; user_name := "Alice"; user_avatar := "a.png" |}
  ∧ lookup_post (oid_of_counter 7) (store sample_world) = None
  ∧ (get_post hex24 (oid_of_counter 7)
       (create_post oid_of_counter alice text_body sample_world).2).1
    = Ok (json 200
            (JValue (json_of_post
                       {| post_id := oid_of_counter 7; post_text := "first post";
                          post_name := "Alice"; post_avatar := "a.png";
                          post_user := alice; post_likes := [] |}))).
Proof.
  split_and!; [reflexivity|reflexivity|].
  exact (proj2 (create_then_get_post hex24 oid_of_counter sample_world alice
                  "first post" text_body
                  {| user_id := alice; user_name := "Alice";
                     user_avatar := "a.png" |}
                  sample_world_no_faults eq_refl sample_text_not_empty eq_refl
                  eq_refl eq_refl)).
Defined.

Lemma create_then_delete_post_witness :
  posts (store (delete_post hex24 alice (oid_of_counter 7)
                  (create_post oid_of_counter alice text_body sample_world).2).2)
  = posts (store sample_world).
Proof.
  exact (proj1 (proj2 (create_then_delete_post hex24 oid_of_counter sample_world
                         alice "first post" text_body
                         {| user_id := alice; user_name := "Alice";
                            user_avatar := "a.png" |}
                         sample_world_no_faults eq_refl sample_text_not_empty
                         eq_refl eq_refl eq_refl))).
Defined.

Lemma create_post_user_gone_witness :
  lookup_user carol (store sample_world) = None
  ∧ (create_post oid_of_counter carol text_body sample_world).1 = Ok ServerError.
Proof.
  split; [reflexivity|].
  exact (proj1 (create_post_user_gone oid_of_counter sample_world carol
                  text_body sample_world_no_faults eq_refl eq_refl)).
Defined.

Lemma sample_invalid_form : ¬ upsert_valid invalid_form.
Proof. intros [H _]. vm_compute in H. discriminate. Qed.

Lemma profile_routes_validate_first_witness :
  upsert_profile oid_of_counter carol invalid_form sample_world
  = (Ok (json 400
           (Errors (check "status" "Status is required" invalid_form
                    ++ check "skills" "Skills are required" invalid_form))),
     sample_world).
Proof.
  exact (proj2 (proj1 (profile_routes_validate_first oid_of_counter sample_world
                         carol invalid_form) sample_invalid_form)).
Defined.

Lemma sample_valid_body : upsert_valid body_without_twitter.
Proof. by vm_compute. Qed.

Lemma upsert_then_get_my_profile_witness :
  ∃ p, (get_my_profile carol
          (upsert_profile oid_of_counter carol body_without_twitter
             sample_world).2).1
       = Ok (json 200 (JProfile p))
     ∧ social_link "youtube" p = Some "https://youtube.com/alice".
Proof.
  destruct (upsert_then_get_my_profile oid_of_counter sample_world carol
              body_without_twitter sample_world_no_faults sample_valid_body)
    as (p & Hr & _ & Hs & _).
  exists p. split; [exact Hr|]. rewrite Hs. reflexivity.
Defined.

Lemma upsert_keeps_one_profile_each_witness :
  one_profile_each sample_db
  ∧ one_profile_each
      (store (upsert_profile oid_of_counter carol body_without_twitter
                sample_world).2).
Proof.
  split; [apply sample_one_profile_each|].
  exact (upsert_keeps_one_profile_each oid_of_counter sample_world carol
           body_without_twitter sample_one_profile_each).
Defined.

Lemma upsert_twice_same_witness :
  let w1 := (upsert_profile oid_of_counter carol body_without_twitter
               sample_world).2 in
  store (upsert_profile oid_of_counter carol body_without_twitter w1).2
  = store w1.
Proof.
  exact (proj2 (upsert_twice_same oid_of_counter sample_world carol
                  body_without_twitter sample_world_no_faults
                  sample_valid_body)).
Defined.

Lemma sample_exp_body_valid : experience_valid exp_body.
Proof. by vm_compute. Qed.

Lemma sample_edu_body_valid : education_valid edu_body.
Proof. by vm_compute. Qed.

Lemma add_then_remove_entry_witness :
  lookup_profile alice (store sample_world) = Some profile_alice
  ∧ (remove_education alice (oid_of_counter 7)
       (add_education oid_of_counter alice edu_body sample_world).2).1
    = Ok (json 200 (JProfile profile_alice)).
Proof.
  split; [reflexivity|].
  exact (proj1 (proj2 (add_then_remove_entry oid_of_counter sample_world alice
                         edu_body profile_alice sample_world_no_faults
                         eq_refl) sample_edu_body_valid)).
Defined.

Lemma add_entry_prepends_witness :
  (∃ e w',
     entry_id e = oid_of_counter 7
     ∧ entry_data e !! "title" = Some "Developer"
     ∧ entry_data e !! "status" = None
     ∧ add_experience oid_of_counter alice exp_body sample_world
       = (Ok (json 200
                (JProfile {| profile_id := profile_id profile_alice;
                             fields := fields profile_alice;
                             experience := [e; exp_1];
                             education := [edu_1] |})), w')
     ∧ next_oid w' = 8)
  ∧ (∃ e w',
       entry_id e = oid_of_counter 7
       ∧ entry_data e !! "school" = Some "NUS"
       ∧ entry_data e !! "title" = None
       ∧ add_education oid_of_counter alice edu_body sample_world
         = (Ok (json 200
                  (JProfile {| profile_id := profile_id profile_alice;
                               fields := fields profile_alice;
                               experience := [exp_1];
                               education := [e; edu_1] |})), w')
       ∧ next_oid w' = 8).
Proof.
  split.
  - destruct (proj1 (add_entry_prepends oid_of_counter sample_world alice
                       exp_body profile_alice sample_world_no_faults eq_refl)
                sample_exp_body_valid)
      as (e & w' & Hid & Hdata & Hrun & Hn & _).
    exists e, w'. split_and!.
    + exact Hid.
    + rewrite Hdata. reflexivity.
    + rewrite Hdata. reflexivity.
    + exact Hrun.
    + exact Hn.
  - destruct (proj2 (add_entry_prepends oid_of_counter sample_world alice
                       edu_body profile_alice sample_world_no_faults eq_refl)
                sample_edu_body_valid)
      as (e & w' & Hid & Hdata & Hrun & Hn & _).
    exists e, w'. split_and!.
    + exact Hid.
    + rewrite Hdata. reflexivity.
    + rewrite Hdata. reflexivity.
    + exact Hrun.
    + exact Hn.
Defined.

Lemma remove_entry_without_profile_witness :
  lookup_profile carol (store sample_world) = None
  ∧ answers (remove_experience carol (entry_id exp_1)) sample_world ServerError
      sample_db [ProfileFindOne carol].
Proof.
  split; [reflexivity|].
  exact (proj1 (remove_entry_without_profile sample_world carol (entry_id exp_1)
                  sample_world_no_faults eq_refl)).
Defined.

Lemma delete_account_stages_witness :
  calls_before_fault 3 (faults world_failing_second) = 1
  ∧ posts (store (delete_account alice world_failing_second).2) = [post_b]
  ∧ profiles (store (delete_account alice world_failing_second).2)
    = [profile_alice]
  ∧ users (store (delete_account alice world_failing_second).2)
    = users sample_db
  ∧ (delete_account alice world_failing_second).1 = Ok ServerError
  ∧ calls_before_fault 3 (faults world_failing_third) = 2
  ∧ posts (store (delete_account alice world_failing_third).2) = [post_b]
  ∧ profiles (store (delete_account alice world_failing_third).2) = []
  ∧ users (store (delete_account alice world_failing_third).2)
    = users sample_db
  ∧ (delete_account alice world_failing_third).1 = Ok ServerError.
Proof.
  destruct (delete_account_stages world_failing_second alice)
    as (_ & Hr & Hposts & Hprofiles & _ & Husers & _).
  destruct (delete_account_stages world_failing_third alice)
    as (_ & Hr' & Hposts' & Hprofiles' & _ & Husers' & _).
  split_and!.
  - reflexivity.
  - exact Hposts.
  - apply (Hprofiles [] profile_alice []); [reflexivity|reflexivity|].
    intros q Hq. by apply elem_of_nil in Hq.
  - apply (Husers []
             {| user_id := alice; user_name := "Alice"; user_avatar := "a.png" |}
             [ {| user_id := bob; user_name := "Bob"; user_avatar := "b.png" |} ]);
      [reflexivity|reflexivity|].
    intros v Hv. by apply elem_of_nil in Hv.
  - exact Hr.
  - reflexivity.
  - exact Hposts'.
  - apply (Hprofiles' [] profile_alice []); [reflexivity|reflexivity|].
    intros q Hq. by apply elem_of_nil in Hq.
  - apply (Husers' []
             {| user_id := alice; user_name := "Alice"; user_avatar := "a.png" |}
             [ {| user_id := bob; user_name := "Bob"; user_avatar := "b.png" |} ]);
      [reflexivity|reflexivity|].
    intros v Hv. by apply elem_of_nil in Hv.
  - exact Hr'.
Defined.

Lemma delete_account_frame_witness :
  post_b ∈ posts (store world_failing_second) ∧ post_user post_b ≠ alice
  ∧ post_b ∈ posts (store (delete_account alice world_failing_second).2).
Proof.
  assert (post_b ∈ posts (store world_failing_second)) as Hin
    by (simpl; right; left).
  assert (post_user post_b ≠ alice) as Hne by (by vm_compute).
  split_and!; [done|done|].
  exact (proj1 (delete_account_frame world_failing_second alice) post_b Hin Hne).
Defined.

Lemma sample_count_owned : (count_owned alice (store sample_world) ≤ 1)%nat.
Proof. vm_compute. lia. Qed.

Lemma after_account_delete_witness :
  (get_auth_user alice (delete_account alice sample_world).2).1
  = Ok (json 200 (JValue JNull))
  ∧ (get_my_profile alice (delete_account alice sample_world).2).1
    = Ok (json 400 (Msg "User profile not found!"))
  ∧ (create_post oid_of_counter alice text_body
       (delete_account alice sample_world).2).1
    = Ok ServerError.
Proof.
  destruct (after_account_delete oid_of_counter sample_world alice text_body
              sample_world_no_faults sample_users_distinct sample_count_owned
              eq_refl) as (H1 & H2 & H3 & _).
  by split_and!.
Defined.

Lemma profile_reads_not_found_witness :
  hex24 "me" = false
  ∧ get_profile_by_user hex24 "me" sample_world
    = (Ok (json 400 (Msg "User profile not found!")), sample_world)
  ∧ lookup_profile carol (store sample_world) = None
  ∧ (get_my_profile carol sample_world).1
    = Ok (json 400 (Msg "User profile not found!")).
Proof.
  split_and!; [reflexivity| |reflexivity|].
  - exact (proj1 (proj2 (proj2 (profile_reads_not_found hex24 sample_world
                                  "me"))) eq_refl).
  - exact (proj1 (proj2 (proj2 (proj2 (profile_reads_not_found hex24
                                         sample_world carol)))
                    sample_world_no_faults eq_refl)).
Defined.

Lemma github_route_outcomes_witness :
  github_repos parse_sample "id" "secret" (λ _, Reply 200 "not json") "octocat"
  = Throw SyntaxError
  ∧ ∃ text, parse_sample text = None.
Proof.
  split; [reflexivity|].
  destruct (proj2 (github_route_outcomes parse_sample "id" "secret"
                     (λ _, Reply 200 "not json") "octocat")
              SyntaxError eq_refl) as [[He _]|[_ (text & _ & Hp)]].
  - discriminate He.
  - by exists text.
Defined.

Lemma skills_stored_clean_witness :
  body_with_padded_skills !! "skills" = Some padded_skills
  ∧ profileFields_of alice body_with_padded_skills !! "skills"
    = Some (VArr ["html"; "css"; "js"])
  ∧ String.concat ","
      ["html"; utf8 [194; 160] ++ " css" ++ utf8 [227; 128; 128]; "js"]
    = padded_skills
  ∧ Forall2 (λ y x, ∃ lead trail, y = lead ++ x ++ trail
               ∧ made_of white_space lead ∧ made_of white_space trail
               ∧ (∀ ws rest, ws ∈ white_space → x ≠ ws ++ rest)
               ∧ (∀ ws pre, ws ∈ white_space → x ≠ pre ++ ws)
               ∧ (∀ pre post, x ≠ pre ++ "," ++ post))
      ["html"; utf8 [194; 160] ++ " css" ++ utf8 [227; 128; 128]; "js"]
      ["html"; "css"; "js"].
Proof.
  assert (padded_skills ≠ "") as Hne by (vm_compute; discriminate).
  destruct (skills_stored_clean alice padded_skills body_with_padded_skills
              eq_refl Hne) as (Hstored & Hconcat & _ & _ & _ & Hclean & _).
  split; [reflexivity|]. split; [exact Hstored|]. split; [exact Hconcat|].
  exact Hclean.
Defined.

Lemma createProfile_shows_validation_errors_witness :
  createProfile
    (axios_answering
       (json 400
          (Errors [ {| msg := "Status is required"; param := "status" |};
                    {| msg := "Skills are required"; param := "skills" |} ])))
    invalid_form false
  = ([SetAlert "Status is required" (Some "danger");
      SetAlert "Skills are required" (Some "danger");
      Dispatch (PROFILE_ERROR "Bad Request" 400)], None).
Proof.
  exact (createProfile_shows_validation_errors reason_phrase oid_of_counter
           (axios_answering
              (json 400
                 (Errors [ {| msg := "Status is required"; param := "status" |};
                           {| msg := "Skills are required"; param := "skills" |} ])))
           sample_world carol invalid_form false _ sample_invalid_form
           eq_refl eq_refl).
Defined.

Lemma createProfile_navigates_iff_witness :
  HistoryPush "/dashboard"
  ∈ (createProfile (λ _, Fulfilled (Msg "ok")) invalid_form false).1
  ∧ HistoryPush "/dashboard"
    ∉ (createProfile (λ _, Fulfilled (Msg "ok")) invalid_form true).1.
Proof.
  split.
  - apply (proj2 (createProfile_navigates_iff (λ _, Fulfilled (Msg "ok"))
                    invalid_form false)).
    split; [reflexivity|]. by exists (Msg "ok").
  - intros H.
    apply (proj1 (createProfile_navigates_iff (λ _, Fulfilled (Msg "ok"))
                    invalid_form true)) in H.
    destruct H as [H _]. discriminate H.
Defined.

Lemma actions_without_response_throw_witness :
  getProfiles axios_down = ([Dispatch CLEAR_PROFILE], Some TypeError)
  ∧ deleteAccount axios_down true = ([], Some TypeError).
Proof.
  destruct (actions_without_response_throw axios_down invalid_form false
              "5d7a514b5d2c12c7449be0e1" (λ _, eq_refl))
    as (_ & H2 & _ & _ & _ & _ & _ & _ & _ & H10).
  by split.
Defined.

Lemma deleteAccount_follows_cascade_witness :
  (delete_account alice world_failing_second).1 = Ok ServerError
  ∧ deleteAccount (axios_answering ServerError) true
    = ([Dispatch (PROFILE_ERROR "Internal Server Error" 500)], None)
  ∧ lookup_post (post_id post_a)
      (store (delete_account alice world_failing_second).2) = None.
Proof.
  split_and!; [reflexivity| |reflexivity].
  exact (proj1 (deleteAccount_follows_cascade reason_phrase
                  (axios_answering ServerError) world_failing_second alice
                  ServerError eq_refl eq_refl)).
Defined.
